(* ===== verification/_CoqProject ===== *)
-Q . S2P
Prelude.v
Score.v
ArgSort.v
KnowledgeBase.v
TextFile.v
PyStr.v
Format.v
JsonDump.v
JsonLoad.v
JsonRoundtrip.v
Embedding.v
Retriever.v
Pipeline.v
Cosine.v
App.v
Session.v
