(* ===== verification/Prelude.v ===== *)
(** * LegalBot: a verification development of the retrieval core

    The program (repository LegalBot, three Python files under [src/]):
    - [src/convert_to_json.py] groups the rows of an annotation sheet by
      label into a dict [label -> list of texts] and writes it to
      [legal_knowledge.json] (the knowledge base).
    - [src/rag_utils.py] loads that dict ([knowledge]), embeds every text
      with a sentence-transformer ([embeddings], one vector list per label,
      in the same order), and answers [retrieve_answer(question, top_k=2)]:
      for every label in dict order it computes the cosine similarities of
      the question's vector with the label's vectors, takes the [top_k]
      best indices ([np.argsort(sims)[::-1][:top_k]]), averages their
      similarities, and keeps the label whose average is strictly greater
      than the best so far (starting from the score [0]).
    - [src/app.py] is the Streamlit page: it keeps the uploaded case text
      in [st.session_state], refuses to answer without a case or with a
      blank question, and otherwise calls [retrieve_answer], builds the
      prompt from [context[:4]] and the first 1500 characters of the case,
      asks the text generator and renders the answer, the label and the
      first two contexts.
    The components interact through values: the ETL's dict is the
    knowledge base [rag_utils.py] loads; the retriever reads the module
    state ([knowledge], [embeddings]) and never changes it; the page calls
    the retriever and the generator once per run.

    Files, in dependency order, and what they model:
    - [Prelude] (this file): Python's exceptions ([py_error], with
      [JSONDecodeError msg pos] and the codec errors) and the result monad
      [result] (stdpp's [mret]/[mbind], so [x ← m; k] reads like
      straight-line Python that may raise); Python slicing [l`[:k]] with
      negative [k] ([py_take]); dicts in insertion order as association
      lists ([dict_get], [dict_set], [dict_ext]); [str.join]; the
      [legalbot] hint and rewrite databases.
    - [Score]: the interface the retriever is written against, the classes
      [ScoreOps] (zero, sum, division by a count, [<]) and [ScoreLaws] (a
      strict weak order, a mean between the bounds of its elements), with
      [np_mean] ([None] for numpy's [nan]), the executable instance on
      [Q] used by the witnesses, and the instance on [Z] that numpy's
      integer argsorts of the sentence-transformer use.
    - [ArgSort]: [np.argsort] as numpy's insertion sort of the index
      array ([insert_index], [argsort]), [top_indices] (line 28), and the
      inverse permutation [np.argsort(perm)] of an index permutation.
    - [KnowledgeBase]: [convert_to_json.py]'s loop ([convert_row],
      [convert_rows], [build_knowledge]) and its declarative description
      [group_by_label].
    - [TextFile]: a Python [str] as the bytes of its UTF-8 encoding;
      [open(..., encoding="utf-8")] in text mode: strict decoding
      ([utf8_valid]) with universal newlines ([read_text]) and strict
      encoding ([write_text]); [bytes.decode("utf-8", errors="ignore")] as
      CPython's decoder skips errors ([decode_ignore], app.py line 24); and
      [s[:n]] by code points ([utf8_take], [str_take]).
    - [PyStr]: the code points of a [str] as CPython's decoder computes
      them ([utf8_decode]) and [str.strip()] on them with Python's
      whitespace ([is_space_cp], [py_strip]), app.py line 35.
    - [Format]: the caption of line 69: [str(label)] and
      [format(score, '.2f')] ([format_2f], rounding half to even), read by
      the page through the class [ScoreFormat]; an independent reader
      [read_2f] of such a rendering.
    - [JsonDump]: [json.dump(knowledge, f, indent=2, ensure_ascii=False)]
      (convert_to_json.py lines 18-19) as CPython's pure-Python encoder
      [_make_iterencode] on the Python values [pyval] ([iterencode],
      [encode_basestring], [json_dump]).
    - [JsonLoad]: [json.load] (rag_utils.py lines 10-11) as CPython 3.11's
      C scanner ([scan_str], [scan_atom], and the mutual [scan_once],
      [parse_array], [parse_object]) with its error messages and
      positions, the BOM check and the trailing-data check ([json_loads]),
      after [read_text] ([json_load]); its termination and error theorems.
    - [JsonRoundtrip]: the round trip: what [iterencode] writes scans back
      to the same value; the encoder writes no carriage return and valid
      UTF-8; so [json_load] reads back what [json_dump] wrote.
    - [Embedding]: the encoder interface [Encoder] (the sentence-transformer),
      [Similarity], [model.encode(texts)] with the sentence-transformer's
      sort by decreasing length and its restoring of the input order
      ([encode_batch]), the comprehension of line 14 ([build_index]), the
      module state [rag_state] built by [load_rag], and the whole import of
      rag_utils.py from the file's bytes ([load_rag_file], lines 9-14),
      which raises [AttributeError] when the file's value is not a dict.
    - [Retriever]: [retrieve_answer] (lines 16-37) as a monadic loop
      [scan_labels] over [scan_label]; the abstract specification
      [first_best]/[no_best]/[retrieve_spec], which admits one result; the
      refinement proof through the invariant [scan_inv] of the loop, and
      the exact equivalence of code and specification; the typed view
      [retrieval] of its results; witnesses on a table of similarities
      ([Fixture]).
    - [Pipeline]: the script convert_to_json.py after reading the sheets
      ([convert_to_json_main], lines 8-21) composed with the import of
      rag_utils.py and the retriever.
    - [Cosine]: sklearn's [cosine_similarity] on real vectors, the [Score]
      instance on [R], and the score bound of the whole retriever.
    - [App]: one Streamlit run [app_run] of [app.py] (lines 5-76) as a
      function of the session state and the widget values: the page header,
      the upload decoded with [errors="ignore"] ([decode_case]), the two
      guards, the prompt and the rendered answer with its caption, and the
      only exception a run can raise (the retriever's); the generator [qa]
      is a section variable.
    - [Session]: a browser session as the step relation [app_step] (one
      rerun, which returns or raises) and [reachable] (the reruns from a
      fresh [st.session_state]).

    What the theorems show (claim ids of the manifest):
    - the retriever refines its specification: no exception on a knowledge
      base with distinct labels and no empty group, the first strict
      maximum above 0 or no label, the winner's contexts in ranked order
      (C1); a result of the code is exactly a result the specification
      admits (C14); it raises [ValueError] exactly when a label is empty
      (C2); its score lies in [[0, 1]] (C3, from C15: cosine lies in
      [[-1, 1]]); the number of contexts follows Python's slicing (C4);
      [top_k = 0] never matches (C13); with a unique best label the answer
      does not depend on the dict's iteration order (C20); every result is
      a well-typed [retrieval], with between 1 and [top_k] contexts of the
      winning group on a match (C26);
    - the top-k selection: a permutation sorted by (similarity, index),
      unique, hence equal to any stable sort (C7), descending (C6),
      dominating the rest (C5), of the sliced length (C8);
    - the index is aligned with the knowledge base, whatever order the
      length sort of [model.encode] encodes the texts in (C9); the ETL
      builds the grouped dict exactly (C10), with distinct non-empty groups
      (C11) and every row kept once (C12);
    - the file between the scripts: [json.load] reads back what
      [json.dump] wrote (C22); the scanner terminates within its fuel
      (C25); blank documents, trailing data and a byte-order mark raise
      [JSONDecodeError] (C33, C34, C35); the two scripts composed: the ETL
      succeeds on a sheet of strings and the import holds its dict (C24),
      and the retriever on the loaded file meets its specification for
      the grouped rows (C23); a knowledge file that is not a dict fails
      the import with [AttributeError] (C39);
    - text: [errors="ignore"] decoding yields valid UTF-8 and changes
      exactly the invalid inputs (C31); slicing by code points (C32);
      [str.strip()] returns the middle of a string between two runs of
      Python whitespace (C36, C37); the score's [.2f] rendering reads back
      as the hundredths rounded to the nearest, ties to even, with the
      sign of the score (C38);
    - the page: guards before any retrieval (C17, C18, with C21 for
      [str.strip]), a run keeps the last upload (C19), the prompt holds all
      contexts (C16), a run raises only where the retriever does (C40);
      over a session, raising runs included: the state holds the last
      upload (C28) as valid UTF-8 (C30), an answer needs an upload and a
      question (C29), and from every reachable state an answer is one
      interaction away (C27).

    Modelling choices and bounds: every recursion is structural (lists of
    rows, labels, chunks, indices and bytes) except the JSON scanner,
    whose recursion (Python's, bounded by the recursion limit) is
    structural on a fuel argument; [json_loads] gives it
    [decode_fuel s = 2 * length s + 1], which is enough because every
    call of the scanner or of an array or object step consumes at least
    one byte between two decrements of the fuel (C26 proves it: from that
    fuel on the result exists and no longer changes), so the out-of-fuel
    branch is never taken.  Numbers are exact ([Q] for evaluation, [R]
    for cosine), float32 rounding is not modelled; numpy's argsort is
    modelled by its insertion-sort path (arrays of at most 16 elements,
    which sorts stably); numpy documents its default sort as unstable, and
    on other paths (longer arrays, the AVX-512 sort of recent numpy) equal
    similarities may come out in another order, so the tie clauses of C6
    and C7 describe the insertion path only; a [str] is the bytes of its UTF-8 encoding, slicing counts
    code points, error positions of [JSONDecodeError] count bytes where
    Python counts code points (they agree on ASCII); the [.2f] rendering
    rounds the exact score, where Python rounds the nearest binary float
    (they differ only on an exact tie such as 1/200); the
    sentence-transformer and the text generator are opaque functions
    ([Encoder], [qa]).

    Not modelled: [pd.read_excel] (the rows are the input of the ETL; the
    second sheet is read and never used), the drawing of the widgets
    themselves (their values are the inputs of a run), a knowledge dict
    whose values are not lists of strings (what the encoder does with
    them is not modelled: [load_rag_file] gives [None]), JSON numbers as floats (kept as their lexeme; the
    ETL writes none), Python's recursion limit on deeply nested
    documents, partial writes when [json.dump] raises half way.  Planned
    next: a float model of the mean and of the comparison, and the
    selection under numpy's sort path for arrays of more than 16
    elements. *)

From stdpp Require Export base list strings sets.
From Stdlib Require Export ZArith Lia Sorted.

Declare Scope legalbot_scope.
Delimit Scope legalbot_scope with lb.
Open Scope legalbot_scope.

Create HintDb legalbot.
Create Rewrite HintDb legalbot.

(** ** Python exceptions and the result monad *)

Inductive py_error :=
| ValueError (msg : string)
| KeyError (key : string)
| IndexError (index : nat)
| JSONDecodeError (msg : string) (pos : nat)
| AttributeError (name : string)
| UnicodeDecodeError
| UnicodeEncodeError.

Inductive result (A : Type) :=
| Ok (a : A)
| Err (e : py_error).
Arguments Ok {A} a.
Arguments Err {A} e.

#[export] Instance result_ret : MRet result := fun A a => Ok a.
#[export] Instance result_bind : MBind result :=
  fun A B f m => match m with Ok a => f a | Err e => Err e end.

Notation "'raise' e" := (Err e) (at level 10) : legalbot_scope.

Lemma bind_Ok {A B} (m : result A) (f : A -> result B) b :
  (m ≫= f) = Ok b <-> exists a, m = Ok a /\ f a = Ok b.
Proof.
  destruct m as [a|e]; simpl; split.
  - intros H. by exists a.
  - by intros (a' & [= ->] & H).
  - done.
  - by intros (a' & ? & _).
Qed.

(** [mapM] over a list in [result] succeeds exactly when every call does. *)
Lemma mapM_result_Ok {A B} (f : A -> result B) (l : list A) :
  (forall x, x ∈ l -> exists y, f x = Ok y) -> exists ys, mapM f l = Ok ys.
Proof.
  induction l as [|x l IH]; intros Hf; simpl; [by eexists|].
  destruct (Hf x) as [y Hy]; [set_solver|]. rewrite Hy; simpl.
  destruct IH as [ys ->]; [set_solver|]. by eexists.
Qed.

Lemma mapM_result_length {A B} (f : A -> result B) (l : list A) ys :
  mapM f l = Ok ys -> length ys = length l.
Proof.
  revert ys; induction l as [|x l IH]; intros ys H; simpl in *.
  - by inversion H.
  - destruct (f x); simpl in H; [|done].
    destruct (mapM f l) eqn:E; simpl in H; [|done].
    inversion H; subst; simpl; f_equal; auto.
Qed.

(** ** Python slicing [l[:k]] *)

(** [l[:k]] keeps the first [k] elements; a negative [k] drops the last
    [-k] ones (and gives [[]] when [-k >= len l]). *)
Definition py_take {A} (k : Z) (l : list A) : list A :=
  if (0 <=? k)%Z then take (Z.to_nat k) l
  else take (length l - Z.to_nat (- k)) l.

Notation "l `[: k ]" := (py_take k l)
  (at level 1, k at level 200, format "l `[: k ]") : legalbot_scope.

Lemma length_py_take {A} (k : Z) (l : list A) :
  Z.of_nat (length (l`[:k])) =
  if (0 <=? k)%Z then Z.min k (Z.of_nat (length l))
  else Z.max 0 (Z.of_nat (length l) + k).
Proof.
  unfold py_take. destruct (Z.leb_spec 0 k); rewrite length_take; lia.
Qed.

Lemma py_take_prefix {A} (k : Z) (l : list A) : l`[:k] `prefix_of` l.
Proof. unfold py_take. case_match; apply prefix_take. Qed.

Lemma py_take_nonneg {A} (k : Z) (l : list A) :
  (0 <= k)%Z -> l`[:k] = take (Z.to_nat k) l.
Proof. intros Hk. unfold py_take. by rewrite (proj2 (Z.leb_le 0 k) Hk). Qed.

#[export] Hint Resolve py_take_prefix : legalbot.

(** ** Dicts with insertion order *)

(** A Python dict is an association list in insertion order; its keys
    are kept distinct by every operation that builds one. *)
Section Dict.
Context {K : Type} `{EqDecision K} {V : Type}.

Fixpoint dict_get (k : K) (d : list (K * V)) : option V :=
    match d with
    | [] => None
    | (k', v) :: d' => if decide (k = k') then Some v else dict_get k d'
    end.

Definition dict_keys (d : list (K * V)) : list K := fst <$> d.

  (** [d[k] = v]: overwrite in place, or append a new key at the end. *)
Fixpoint dict_set (k : K) (v : V) (d : list (K * V)) : list (K * V) :=
    match d with
    | [] => [(k, v)]
    | (k', v') :: d' =>
        if decide (k = k') then (k', v) :: d' else (k', v') :: dict_set k v d'
    end.

Lemma dict_get_set k k' v d :
    dict_get k' (dict_set k v d) = if decide (k' = k) then Some v else dict_get k' d.
  Proof.
    induction d as [|[k'' v''] d IH]; simpl; [by repeat case_decide|].
    repeat (case_decide; simplify_eq; simpl); done.
  Qed.

Lemma dict_keys_set k v d :
    dict_keys (dict_set k v d) =
    if decide (k ∈ dict_keys d) then dict_keys d else dict_keys d ++ [k].
  Proof.
    induction d as [|[k' v'] d IH]; simpl; [done|].
    unfold dict_keys in *; simpl.
    destruct (decide (k = k')) as [->|Hne].
    - rewrite decide_True; [done | set_solver].
    - change ((k', v') :: dict_set k v d).*1 with (k' :: (dict_set k v d).*1).
      rewrite IH. repeat case_decide; set_solver.
  Qed.

Lemma dict_get_In k v d : dict_get k d = Some v -> (k, v) ∈ d.
  Proof.
    induction d as [|[k' v'] d IH]; simpl; [done|].
    rewrite elem_of_cons. case_decide; intros Hget; simplify_eq; auto.
  Qed.

Lemma dict_get_NoDup k v d :
    NoDup (dict_keys d) -> (k, v) ∈ d -> dict_get k d = Some v.
  Proof.
    induction d as [|[k' v'] d IH]; simpl; intros Hnd Hin;
      [set_solver|].
    inversion Hnd as [|? ? Hnot Hnd']; subst.
    apply elem_of_cons in Hin as [Heq|Hin]; simplify_eq.
    - by rewrite decide_True.
    - rewrite decide_False; auto. intros ->. apply Hnot.
      by apply (list_elem_of_fmap_2 fst _ (k', v)).
  Qed.

Lemma dict_get_None k d : dict_get k d = None <-> k ∉ dict_keys d.
  Proof.
    induction d as [|[k' v'] d IH]; simpl; [set_solver|].
    case_decide; subst; [set_solver|]. rewrite IH. set_solver.
  Qed.
Lemma dict_set_new k v d : k ∉ dict_keys d -> dict_set k v d = d ++ [(k, v)].
  Proof.
    induction d as [|[k' v'] d IH]; simpl; [done|]. unfold dict_keys; simpl.
    intros Hk. rewrite decide_False by set_solver. f_equal. apply IH. set_solver.
  Qed.

  (** A dict with distinct keys is determined by its keys and lookups. *)
Lemma dict_ext d1 d2 :
    NoDup (dict_keys d1) -> dict_keys d1 = dict_keys d2 ->
    (forall k, dict_get k d1 = dict_get k d2) -> d1 = d2.
  Proof.
    revert d2; induction d1 as [|[k v] d1 IH]; intros [|[k2 v2] d2] Hnd Hkeys Hget;
      simplify_eq/=; [done|].
    inversion Hnd as [|? ? Hnot Hnd']; subst.
    pose proof (Hget k2) as Hk. simpl in Hk. rewrite !decide_True in Hk by done.
    simplify_eq. f_equal. apply IH; [done..|]. intros k'.
    specialize (Hget k'). simpl in Hget. case_decide; [subst|done].
    rewrite !(proj2 (dict_get_None _ _)); [done|congruence|done].
  Qed.
End Dict.

(** ** Python strings *)

(** [sep.join(xs)] *)
Definition py_join (sep : string) (xs : list string) : string :=
  String.concat sep xs.

(** Split a successful bind [m ≫= f = Ok b] into its two steps. *)
Ltac result_simpl :=
  repeat match goal with
  | H : (_ ≫= _) = Ok _ |- _ =>
      let a := fresh "a" in let Hm := fresh "Hm" in
      apply bind_Ok in H as (a & Hm & H)
  end.

(** ** Indexing lists: [l[i]] for [i] in range *)

Lemma nth_fmap_lt {A B} (f : A -> B) (l : list A) i d d' :
  i < length l -> nth i (f <$> l) d = f (nth i l d').
Proof.
  revert i; induction l as [|x l IH]; intros [|i] Hi; simpl in *; [lia|lia|done|].
  apply IH. lia.
Qed.

(** [[l[j] for j in range(len(l))] == l] *)
Lemma fmap_nth_seq {A} (l : list A) d : (fun j => nth j l d) <$> seq 0 (length l) = l.
Proof.
  induction l as [|x l IH]; [done|]. simpl. f_equal.
  rewrite <- fmap_S_seq, <- list_fmap_compose. exact IH.
Qed.

Lemma StronglySorted_fmap_mono {A B} (R : A -> A -> Prop) (R' : B -> B -> Prop) (f : A -> B) l :
  (forall x y, x ∈ l -> y ∈ l -> R x y -> R' (f x) (f y)) ->
  StronglySorted R l -> StronglySorted R' (f <$> l).
Proof.
  induction l as [|x l IH]; intros Hf Hs; simpl; [constructor|].
  apply StronglySorted_inv in Hs as [Hs Hx]. constructor.
  - apply IH; [|done]. intros y z Hy Hz. apply Hf; set_solver.
  - apply Forall_fmap, Forall_forall. intros y Hy.
    apply Hf; [set_solver|set_solver|]. by eapply Forall_forall in Hx.
Qed.

Lemma StronglySorted_seq m k : StronglySorted lt (seq m k).
Proof.
  revert m; induction k as [|k IH]; intros m; simpl; constructor; [apply IH|].
  apply Forall_forall. intros x Hx. apply elem_of_seq in Hx. lia.
Qed.
