(* ===== verification/Score.v ===== *)
(** * Scores: the numbers the retriever compares and averages

    [rag_utils.py] only does three things with similarity values: it
    compares them ([np.argsort], [avg_score > best_score]), sums and
    divides them ([np.mean]), and starts from the score [0].  [ScoreOps]
    names these operations and [ScoreLaws] states what the retriever needs
    of them: [<] is a strict weak order, and a mean lies between the bounds
    of its elements.  The instance on [Q] is executable and used by the
    witnesses; the instance on [R] is in [Cosine]. *)

From S2P Require Import Prelude.
From Stdlib Require Import QArith Lqa.

Class ScoreOps (S : Type) := {
  szero : S;
  sadd : S -> S -> S;
  sdivn : S -> nat -> S;
  sltb : S -> S -> bool
}.

Section Derived.
Context {S : Type} `{ScoreOps S}.

  (** [x <= y] is "not [y < x]", the comparison numpy's sort uses. *)
Definition sle (x y : S) : Prop := sltb y x = false.

Definition ssum (xs : list S) : S := fold_right sadd szero xs.

  (** [np.mean]: the sum divided by the count; [nan] (here [None]) on an
      empty array. *)
Definition np_mean (xs : list S) : option S :=
    match xs with
    | [] => None
    | _ :: _ => Some (sdivn (ssum xs) (length xs))
    end.
End Derived.

Class ScoreLaws (S : Type) `{ScoreOps S} := {
  sltb_irrefl x : sltb x x = false;
  sltb_trans x y z : sltb x y = true -> sltb y z = true -> sltb x z = true;
  sltb_negtrans x y z : sltb x z = true -> sltb x y = true \/ sltb y z = true;
  smean_ub hi xs : xs <> [] -> Forall (fun x => sle x hi) xs ->
    sle (sdivn (ssum xs) (length xs)) hi;
  smean_lb lo xs : xs <> [] -> Forall (fun x => sle lo x) xs ->
    sle lo (sdivn (ssum xs) (length xs))
}.

Section Order.
Context {S : Type} `{ScoreLaws S}.

Lemma sle_refl x : sle x x.
  Proof. apply sltb_irrefl. Qed.

Lemma sle_trans x y z : sle x y -> sle y z -> sle x z.
  Proof.
    unfold sle. intros Hxy Hyz.
    destruct (sltb z x) eqn:E; [|done].
    destruct (sltb_negtrans z y x E); congruence.
  Qed.

Lemma sltb_asym x y : sltb x y = true -> sle x y.
  Proof.
    unfold sle. intros Hxy. destruct (sltb y x) eqn:E; [|done].
    pose proof (sltb_trans x y x Hxy E) as Hxx. by rewrite sltb_irrefl in Hxx.
  Qed.

Lemma sle_total x y : sle x y \/ sle y x.
  Proof.
    unfold sle. destruct (sltb y x) eqn:E; [|by left].
    right. by apply sltb_asym.
  Qed.

Lemma sle_not_lt x y : sle x y -> sltb y x = false.
  Proof. done. Qed.

Lemma lt_sle_trans x y z : sltb x y = true -> sle y z -> sltb x z = true.
  Proof.
    unfold sle. intros Hxy Hyz.
    destruct (sltb_negtrans x z y Hxy) as [|Hzy]; congruence.
  Qed.

Lemma sle_lt_trans x y z : sle x y -> sltb y z = true -> sltb x z = true.
  Proof.
    unfold sle. intros Hxy Hyz.
    destruct (sltb_negtrans y x z Hyz) as [Hyx|]; congruence.
  Qed.

Lemma np_mean_bounds lo hi xs m :
    np_mean xs = Some m -> Forall (fun x => sle lo x /\ sle x hi) xs ->
    sle lo m /\ sle m hi.
  Proof.
    destruct xs as [|x xs]; intros Hm Hall; [done|]. inversion Hm; subst.
    apply Forall_and in Hall as [Hlo Hhi].
    split; [apply (smean_lb lo (x :: xs)) | apply (smean_ub hi (x :: xs))]; done.
  Qed.
End Order.

#[export] Hint Resolve sle_refl sltb_asym : legalbot.

(** ** The executable instance on [Q] *)

#[export] Instance Q_score_ops : ScoreOps Q := {
  szero := 0%Q;
  sadd := Qplus;
  sdivn x n := (x / inject_Z (Z.of_nat n))%Q;
  sltb x y := negb (Qle_bool y x)
}.

Lemma Q_sltb_iff (x y : Q) : sltb x y = true <-> (x < y)%Q.
Proof.
  simpl. rewrite negb_true_iff. split; intros Hxy.
  - apply Qnot_le_lt. intros Hle. apply Qle_bool_iff in Hle. congruence.
  - destruct (Qle_bool y x) eqn:E; [|done].
    apply Qle_bool_iff in E. exfalso. by apply (Qlt_not_le x y).
Qed.

Lemma Q_sle_iff (x y : Q) : sle x y <-> (x <= y)%Q.
Proof.
  unfold sle. split; intros Hxy.
  - apply Qnot_lt_le. intros Hlt. apply Q_sltb_iff in Hlt. congruence.
  - destruct (sltb y x) eqn:E; [|done].
    apply Q_sltb_iff in E. exfalso. by apply (Qlt_not_le y x).
Qed.

Lemma Q_ssum_ub (hi : Q) (xs : list Q) :
  Forall (fun x => x <= hi)%Q xs ->
  (ssum xs <= hi * inject_Z (Z.of_nat (length xs)))%Q.
Proof.
  induction xs as [|x xs IH]; intros Hall.
  - unfold ssum; simpl. change (inject_Z (Z.of_nat 0)) with 0%Q. lra.
  - inversion Hall as [|? ? Hx Hxs]; subst.
    change (ssum (x :: xs)) with (x + ssum xs)%Q.
    rewrite length_cons, Nat2Z.inj_succ, <- Z.add_1_r, inject_Z_plus.
    specialize (IH Hxs). change (inject_Z 1) with 1%Q. lra.
Qed.

Lemma Q_ssum_lb (lo : Q) (xs : list Q) :
  Forall (fun x => lo <= x)%Q xs ->
  (lo * inject_Z (Z.of_nat (length xs)) <= ssum xs)%Q.
Proof.
  induction xs as [|x xs IH]; intros Hall.
  - unfold ssum; simpl. change (inject_Z (Z.of_nat 0)) with 0%Q. lra.
  - inversion Hall as [|? ? Hx Hxs]; subst.
    change (ssum (x :: xs)) with (x + ssum xs)%Q.
    rewrite length_cons, Nat2Z.inj_succ, <- Z.add_1_r, inject_Z_plus.
    specialize (IH Hxs). change (inject_Z 1) with 1%Q. lra.
Qed.

Lemma Q_length_pos (xs : list Q) :
  xs <> [] -> (0 < inject_Z (Z.of_nat (length xs)))%Q.
Proof. destruct xs; [done|]. intros _. unfold Qlt. simpl. lia. Qed.

#[export] Instance Q_score_laws : ScoreLaws Q.
Proof.
  split.
  - intros x. apply Q_sle_iff, Qle_refl.
  - intros x y z. rewrite !Q_sltb_iff. apply Qlt_trans.
  - intros x y z. rewrite !Q_sltb_iff. intros Hxz.
    destruct (Qlt_le_dec x y); [by left | right; lra].
  - intros hi xs Hne Hall. apply Q_sle_iff. simpl.
    apply Qle_shift_div_r; [by apply Q_length_pos|].
    apply Q_ssum_ub. eapply Forall_impl; [exact Hall|].
    intros x. apply Q_sle_iff.
  - intros lo xs Hne Hall. apply Q_sle_iff. simpl.
    apply Qle_shift_div_l; [by apply Q_length_pos|].
    apply Q_ssum_lb. eapply Forall_impl; [exact Hall|].
    intros x. apply Q_sle_iff.
Qed.

(** ** Integer keys

    [np.argsort] also sorts integer arrays: the negated text lengths and
    the index permutation of [SentenceTransformer.encode] ([Embedding]).
    Only the comparison is used on them; the mean is floor division. *)

#[export] Instance Z_score_ops : ScoreOps Z := {
  szero := 0%Z;
  sadd := Z.add;
  sdivn x n := (x / Z.of_nat n)%Z;
  sltb := Z.ltb
}.

Lemma Z_sle_iff (x y : Z) : sle x y <-> (x <= y)%Z.
Proof. unfold sle. simpl. rewrite Z.ltb_ge. done. Qed.

Lemma Z_ssum_ub (hi : Z) (xs : list Z) :
  Forall (fun x => x <= hi)%Z xs -> (ssum xs <= hi * Z.of_nat (length xs))%Z.
Proof.
  induction xs as [|x xs IH]; intros Hall; [unfold ssum; simpl; lia|].
  inversion Hall as [|? ? Hx Hxs]; subst. specialize (IH Hxs).
  change (ssum (x :: xs)) with (x + ssum xs)%Z. rewrite length_cons, Nat2Z.inj_succ. lia.
Qed.

Lemma Z_ssum_lb (lo : Z) (xs : list Z) :
  Forall (fun x => lo <= x)%Z xs -> (lo * Z.of_nat (length xs) <= ssum xs)%Z.
Proof.
  induction xs as [|x xs IH]; intros Hall; [unfold ssum; simpl; lia|].
  inversion Hall as [|? ? Hx Hxs]; subst. specialize (IH Hxs).
  change (ssum (x :: xs)) with (x + ssum xs)%Z. rewrite length_cons, Nat2Z.inj_succ. lia.
Qed.

#[export] Instance Z_score_laws : ScoreLaws Z.
Proof.
  split.
  - intros x. apply Z.ltb_irrefl.
  - intros x y z. simpl. rewrite !Z.ltb_lt. lia.
  - intros x y z. simpl. rewrite !Z.ltb_lt. lia.
  - intros hi xs Hne Hall. apply Z_sle_iff. simpl.
    apply Z.div_le_upper_bound; [destruct xs; [done|simpl; lia]|].
    rewrite Z.mul_comm. apply Z_ssum_ub.
    eapply Forall_impl; [exact Hall|]. intros x. apply Z_sle_iff.
  - intros lo xs Hne Hall. apply Z_sle_iff. simpl.
    apply Z.div_le_lower_bound; [destruct xs; [done|simpl; lia]|].
    rewrite Z.mul_comm. apply Z_ssum_lb.
    eapply Forall_impl; [exact Hall|]. intros x. apply Z_sle_iff.
Qed.
