(* ===== verification/ArgSort.v ===== *)
(** * [np.argsort(sims)[::-1][:top_k]]

    [rag_utils.py], line 28, selects the chunks of a label by sorting the
    indices of its similarity array.  numpy's default argsort (an
    introsort) sorts the index array by insertion for arrays of at most 16
    elements, which is stable: equal similarities keep their index order.
    That insertion path is the one modelled.  numpy documents its default
    sort as unstable, and recent releases send float32 arrays to a
    vectorised sort on processors with AVX-512, where equal similarities
    may come out in another order: the theorems below that speak of ties
    (the index order among equal similarities in [argsort_correct] and
    [top_indices_descending]) hold for the insertion path only; the
    others (permutation, descending similarity, domination, length) hold
    for any correct sort.  [argsort] models
    that insertion sort; [top_indices] reverses it and takes the Python
    slice [[:top_k]].  The theorems: the result is a permutation of the
    indices, sorted by (similarity, index), and the unique such list; the
    slice has [min top_k n] elements (Python's rule for a negative
    [top_k] included) and no index outside it has a larger similarity;
    on a tie the later index comes first. *)

From S2P Require Import Prelude Score.
From stdpp Require Import sorting.

Section ArgSort.
Context {Sc : Type} `{ScoreLaws Sc}.

  (** [sims[i]]; the indices used are always in range. *)
Definition key (sims : list Sc) (i : nat) : Sc := nth i sims szero.

  (** One step of numpy's insertion sort on the index array: [i] goes
      after every index of the sorted prefix whose value is [<= sims[i]]. *)
Fixpoint insert_index (sims : list Sc) (i : nat) (l : list nat) : list nat :=
    match l with
    | [] => [i]
    | j :: l' =>
        if sltb (key sims i) (key sims j) then i :: j :: l'
        else j :: insert_index sims i l'
    end.

  (** [np.argsort(sims)]: insert the indices [0 .. n-1] in order. *)
Definition argsort (sims : list Sc) : list nat :=
    fold_left (fun acc i => insert_index sims i acc) (seq 0 (length sims)) [].

  (** [np.argsort(sims)[::-1][:top_k]] *)
Definition top_indices (sims : list Sc) (top_k : Z) : list nat :=
    (rev (argsort sims))`[:top_k].

  (** The order the sort produces: by similarity, then by index. *)
Definition idx_lt (sims : list Sc) (i j : nat) : Prop :=
    sltb (key sims i) (key sims j) = true \/
    (sle (key sims i) (key sims j) /\ sle (key sims j) (key sims i) /\ i < j).

Lemma idx_lt_irrefl sims i : ~ idx_lt sims i i.
  Proof. unfold idx_lt. rewrite sltb_irrefl. intros [|(_ & _ & ?)]; [done|lia]. Qed.

Lemma idx_lt_trans sims i j k :
    idx_lt sims i j -> idx_lt sims j k -> idx_lt sims i k.
  Proof.
    unfold idx_lt. intros [Hij|(Hij1 & Hij2 & Hij)] [Hjk|(Hjk1 & Hjk2 & Hjk)].
    - left. by apply (sltb_trans _ (key sims j)).
    - left. by apply (lt_sle_trans _ (key sims j)).
    - left. by apply (sle_lt_trans _ (key sims j)).
    - right. split_and!; [by apply (sle_trans _ (key sims j))..|lia].
  Qed.

Lemma idx_lt_asym sims i j : idx_lt sims i j -> ~ idx_lt sims j i.
  Proof. intros Hij Hji. apply (idx_lt_irrefl sims i). by eapply idx_lt_trans. Qed.

Lemma insert_index_perm sims i l : insert_index sims i l ≡ₚ i :: l.
  Proof.
    induction l as [|j l IH]; simpl; [done|].
    case_match; [done|]. rewrite IH. apply perm_swap.
  Qed.

Lemma insert_index_sorted sims i l :
    StronglySorted (idx_lt sims) l -> Forall (fun j => j < i) l ->
    StronglySorted (idx_lt sims) (insert_index sims i l).
  Proof.
    induction l as [|j l IH]; intros Hs Hlt; simpl; [by repeat constructor|].
    apply StronglySorted_inv in Hs as [Hs Hj]. apply Forall_cons in Hlt as [Hji Hlt].
    destruct (sltb (key sims i) (key sims j)) eqn:E.
    - constructor; [by constructor|]. constructor; [by left|].
      eapply Forall_impl; [exact Hj|]. intros x. apply idx_lt_trans. by left.
    - constructor; [by apply IH|].
      apply Forall_forall. intros x Hx.
      rewrite (insert_index_perm sims i l), elem_of_cons in Hx. destruct Hx as [->|Hx].
      + unfold idx_lt. destruct (sltb (key sims j) (key sims i)) eqn:E'; [by left|].
        right. split_and!; [done..|lia].
      + rewrite Forall_forall in Hj. by apply Hj.
  Qed.

  (** numpy's insertion pass, on any prefix [seq 0 n] it has sorted. *)
Lemma insert_all_spec sims acc m k :
    acc ≡ₚ seq 0 m -> StronglySorted (idx_lt sims) acc ->
    let res := fold_left (fun acc i => insert_index sims i acc) (seq m k) acc in
    res ≡ₚ seq 0 (m + k) /\ StronglySorted (idx_lt sims) res.
  Proof.
    revert acc m; induction k as [|k IH]; intros acc m Hp Hs; simpl.
    - by rewrite Nat.add_0_r.
    - replace (m + S k) with (S m + k) by lia. apply IH.
      + rewrite insert_index_perm, Hp, seq_S. simpl.
        rewrite Permutation_app_comm. done.
      + apply insert_index_sorted; [done|].
        apply Forall_forall. intros x Hx.
        rewrite Hp, elem_of_seq in Hx. lia.
  Qed.

Lemma argsort_spec sims :
    argsort sims ≡ₚ seq 0 (length sims) /\
    StronglySorted (idx_lt sims) (argsort sims).
  Proof. apply (insert_all_spec sims [] 0 (length sims)); constructor. Qed.

  (** Two lists sorted by an asymmetric relation that are permutations of
      each other are equal. *)
Lemma sorted_perm_eq (R : nat -> nat -> Prop) l1 l2 :
    (forall x y, R x y -> ~ R y x) ->
    StronglySorted R l1 -> StronglySorted R l2 -> l1 ≡ₚ l2 -> l1 = l2.
  Proof.
    intros Hasym. revert l2.
    induction l1 as [|a l1 IH]; intros l2 Hs1 Hs2 Hp.
    - symmetry. by apply Permutation_nil.
    - destruct l2 as [|b l2]; [by apply Permutation_sym, Permutation_nil_cons in Hp|].
      apply StronglySorted_inv in Hs1 as [Hs1 Ha], Hs2 as [Hs2 Hb].
      destruct (decide (a = b)) as [<-|Hne].
      + f_equal. apply IH; [done..|]. by apply Permutation_cons_inv in Hp.
      + exfalso.
        assert (Hb1 : b ∈ l1).
        { assert (Hin : b ∈ a :: l1) by (rewrite Hp; set_solver). set_solver. }
        assert (Ha2 : a ∈ l2).
        { assert (Hin : a ∈ b :: l2) by (rewrite <- Hp; set_solver). set_solver. }
        rewrite Forall_forall in Ha, Hb.
        exact (Hasym a b (Ha b Hb1) (Hb a Ha2)).
  Qed.

Lemma sorted_rev {A} (R : A -> A -> Prop) l :
    StronglySorted R l -> StronglySorted (flip R) (rev l).
  Proof.
    induction l as [|x l IH]; intros Hs; simpl; [constructor|].
    apply StronglySorted_inv in Hs as [Hs Hx].
    apply StronglySorted_app_2; [|by apply IH|by repeat constructor].
    intros y z Hy Hz. apply list_elem_of_singleton in Hz as ->.
    rewrite list_elem_of_In, <- in_rev, <- list_elem_of_In in Hy.
    rewrite Forall_forall in Hx. by apply Hx.
  Qed.

Lemma top_indices_prefix sims k : top_indices sims k `prefix_of` rev (argsort sims).
  Proof. apply py_take_prefix. Qed.

Lemma top_indices_range sims k i :
    i ∈ top_indices sims k -> i < length sims.
  Proof.
    intros Hi. eapply elem_of_prefix in Hi; [|apply top_indices_prefix].
    rewrite list_elem_of_In, <- in_rev, <- list_elem_of_In in Hi.
    destruct (argsort_spec sims) as [Hp _]. rewrite Hp, elem_of_seq in Hi. lia.
  Qed.

Lemma top_indices_NoDup sims k : NoDup (top_indices sims k).
  Proof.
    destruct (top_indices_prefix sims k) as [rest Hrest].
    assert (Hnd : NoDup (rev (argsort sims))).
    { rewrite <- Permutation_rev, (proj1 (argsort_spec sims)). apply NoDup_seq. }
    rewrite Hrest in Hnd. by apply NoDup_app in Hnd as [? _].
  Qed.

  (** ** Properties of the selection *)

(** C7: [argsort] (numpy's insertion sort) is the unique permutation of
      the indices [0 .. n-1] sorted by similarity and, among equal
      similarities, by index: it agrees with any correct stable sort. *)
Theorem argsort_correct sims l :
    (l ≡ₚ seq 0 (length sims) /\ StronglySorted (idx_lt sims) l) <->
    l = argsort sims.
  Proof.
    split.
    - intros [Hp Hs]. destruct (argsort_spec sims) as [Hp' Hs'].
      apply (sorted_perm_eq (idx_lt sims)); [apply idx_lt_asym|done..|].
      by rewrite Hp, Hp'.
    - intros ->. apply argsort_spec.
  Qed.

(** C6: the selected indices come in non-increasing similarity, and on
      equal similarity the higher index first (the reverse of a stable
      ascending sort). *)
Theorem top_indices_descending sims k :
    StronglySorted (flip (idx_lt sims)) (top_indices sims k).
  Proof.
    destruct (top_indices_prefix sims k) as [rest Hrest].
    pose proof (sorted_rev _ _ (proj2 (argsort_spec sims))) as Hs.
    rewrite Hrest in Hs. by apply StronglySorted_app_1_l in Hs.
  Qed.

Lemma length_top_indices sims k :
    Z.of_nat (length (top_indices sims k)) =
    if (0 <=? k)%Z then Z.min k (Z.of_nat (length sims))
    else Z.max 0 (Z.of_nat (length sims) + k).
  Proof.
    unfold top_indices. rewrite length_py_take, length_rev.
    by rewrite (Permutation_length (proj1 (argsort_spec sims))), length_seq.
  Qed.

(** C8: [len(sims[top])] follows Python's slicing: [min top_k n] for a
      non-negative [top_k], [max 0 (n + top_k)] for a negative one. *)
Theorem top_indices_length sims k :
    Z.of_nat (length (top_indices sims k)) =
    if (0 <=? k)%Z then Z.min k (Z.of_nat (length sims))
    else Z.max 0 (Z.of_nat (length sims) + k).
  Proof. apply length_top_indices. Qed.

(** C5: every index left out of the selection has a similarity at most
      that of every selected index: the selection is a top-k. *)
Theorem top_indices_dominate sims k i j :
    i ∈ top_indices sims k -> j < length sims -> j ∉ top_indices sims k ->
    sle (key sims j) (key sims i).
  Proof.
    intros Hi Hj Hnot.
    destruct (top_indices_prefix sims k) as [rest Hrest].
    assert (Hjr : j ∈ rest).
    { assert (Hjall : j ∈ rev (argsort sims)).
      { rewrite list_elem_of_In, <- in_rev, <- list_elem_of_In.
        rewrite (proj1 (argsort_spec sims)), elem_of_seq. lia. }
      rewrite Hrest, elem_of_app in Hjall. by destruct Hjall. }
    pose proof (sorted_rev _ _ (proj2 (argsort_spec sims))) as Hs.
    rewrite Hrest in Hs.
    destruct (StronglySorted_app_1_elem_of _ _ _ _ _ Hs Hi Hjr) as [Hlt|(Hle & _)].
    - by apply sltb_asym.
    - done.
  Qed.

End ArgSort.

(** ** The argsort of a permutation is its inverse

    [np.argsort(perm)] for an array [perm] holding each of [0 .. n-1]
    once: its keys are distinct, so every sort path gives the same
    result, and [perm[argsort(perm)[j]] = j]. *)

Lemma key_fmap_of_nat (p : list nat) i :
  key (Z.of_nat <$> p) i = Z.of_nat (nth i p 0).
Proof.
  unfold key. revert i; induction p as [|x p IH]; intros [|i]; simpl; [done..|]. apply IH.
Qed.

Lemma argsort_unsort (p : list nat) :
  p ≡ₚ seq 0 (length p) ->
  (fun i => nth i p 0) <$> argsort (Z.of_nat <$> p) = seq 0 (length p).
Proof.
  intros Hp. destruct (argsort_spec (Z.of_nat <$> p)) as [Hq Hs].
  rewrite length_fmap in Hq.
  assert (Hnd : NoDup p) by (rewrite Hp; apply NoDup_seq).
  apply (sorted_perm_eq lt); [intros x y; lia| |apply StronglySorted_seq|].
  - apply (StronglySorted_fmap_mono (idx_lt (Z.of_nat <$> p)) lt); [|exact Hs].
    intros i j Hi Hj Hij. rewrite Hq, elem_of_seq in Hi, Hj.
    unfold idx_lt in Hij. rewrite !key_fmap_of_nat in Hij.
    destruct Hij as [Hlt|(Hle1 & Hle2 & Hij)].
    + simpl in Hlt. apply Z.ltb_lt in Hlt. lia.
    + apply Z_sle_iff in Hle1, Hle2.
      assert (Heq : nth i p 0 = nth j p 0) by lia.
      rewrite !nth_lookup in Heq.
      destruct (lookup_lt_is_Some_2 p i ltac:(lia)) as [x Hx].
      destruct (lookup_lt_is_Some_2 p j ltac:(lia)) as [y Hy].
      rewrite Hx, Hy in Heq. simpl in Heq. subst y.
      pose proof (NoDup_lookup p i j x Hnd Hx Hy). lia.
  - rewrite Hq, fmap_nth_seq. exact Hp.
Qed.

(** ** Witnesses on rational similarities *)

From Stdlib Require Import QArith.

Lemma top_indices_dominate_witness :
  1%nat ∈ top_indices [Qmake 1 10; Qmake 5 10; Qmake 3 10] 1%Z /\ (0 < 3)%nat /\
  0%nat ∉ top_indices [Qmake 1 10; Qmake 5 10; Qmake 3 10] 1%Z /\
  sle (key [Qmake 1 10; Qmake 5 10; Qmake 3 10] 0) (key [Qmake 1 10; Qmake 5 10; Qmake 3 10] 1).
Proof.
  assert (Hi : 1%nat ∈ top_indices [Qmake 1 10; Qmake 5 10; Qmake 3 10] 1%Z)
    by (vm_compute; left).
  assert (Hj : 0%nat ∉ top_indices [Qmake 1 10; Qmake 5 10; Qmake 3 10] 1%Z)
    by (apply (bool_decide_unpack _); vm_compute; reflexivity).
  split_and!; [exact Hi|lia|exact Hj|].
  exact (top_indices_dominate [Qmake 1 10; Qmake 5 10; Qmake 3 10] 1%Z 1 0 Hi
           ltac:(simpl; lia) Hj).
Defined.

Definition witness_sims : list Q := [Qmake 1 10; Qmake 5 10; Qmake 3 10; Qmake 5 10].

Lemma argsort_correct_witness :
  argsort witness_sims = [0; 2; 1; 3]%nat /\
  (([0; 2; 1; 3]%nat ≡ₚ seq 0 (length witness_sims) /\
    StronglySorted (idx_lt witness_sims) [0; 2; 1; 3]%nat) <->
   [0; 2; 1; 3]%nat = argsort witness_sims).
Proof.
  split; [vm_compute; reflexivity|]. exact (argsort_correct witness_sims _).
Defined.

Lemma top_indices_descending_witness :
  top_indices witness_sims 3%Z = [3; 1; 2]%nat /\
  StronglySorted (flip (idx_lt witness_sims)) (top_indices witness_sims 3%Z).
Proof.
  split; [vm_compute; reflexivity|]. exact (top_indices_descending witness_sims 3%Z).
Defined.

Lemma top_indices_length_witness :
  top_indices witness_sims (-1)%Z = [3; 1; 2]%nat /\
  Z.of_nat (length (top_indices witness_sims (-1)%Z)) =
    (if (0 <=? -1)%Z then Z.min (-1) (Z.of_nat (length witness_sims))
     else Z.max 0 (Z.of_nat (length witness_sims) + -1))%Z.
Proof.
  split; [vm_compute; reflexivity|]. exact (top_indices_length witness_sims (-1)%Z).
Defined.
