(* ===== verification/KnowledgeBase.v ===== *)
(** * The knowledge base: [convert_to_json.py]

    The ETL script reads the annotation sheet row by row and groups the
    texts by label into the dict [knowledge], which [json.dump] writes and
    [rag_utils.py] reads back.  A row is the pair [(row['label'],
    str(row['text']))]; the dict is an association list in insertion
    order.  [convert_row] is the loop body of lines 11-15 (the
    [knowledge[label]] read may raise [KeyError] in Python; it never does,
    which [build_knowledge_lookup] shows).  The theorems: the loop never
    raises, each label maps to its texts in row order, the labels appear in
    the order of their first row, every group is non-empty (the invariant
    the spec puts on the knowledge base), and every row's text is kept
    exactly once. *)

From S2P Require Import Prelude.

Definition row : Type := string * string.
Definition knowledge_base : Type := list (string * list string).

(** [knowledge[label]] *)
Definition kb_get (knowledge : knowledge_base) (label : string)
  : result (list string) :=
  match dict_get label knowledge with
  | Some ts => Ok ts
  | None => raise (KeyError label)
  end.

(** Lines 11-15: [if label not in knowledge: knowledge[label] = []]
    then [knowledge[label].append(text)]. *)
Definition convert_row (knowledge : knowledge_base) (r : row)
  : result knowledge_base :=
  let '(label, text) := r in
  let knowledge :=
    match dict_get label knowledge with
    | None => dict_set label [] knowledge
    | Some _ => knowledge
    end in
  ts ← kb_get knowledge label;
  mret (dict_set label (ts ++ [text]) knowledge).

(** Line 10: [for _, row in annotations.iterrows()]. *)
Fixpoint convert_rows (knowledge : knowledge_base) (rows : list row)
  : result knowledge_base :=
  match rows with
  | [] => mret knowledge
  | r :: rows' => knowledge' ← convert_row knowledge r; convert_rows knowledge' rows'
  end.

(** Line 9: [knowledge = {}]. *)
Definition build_knowledge (rows : list row) : result knowledge_base :=
  convert_rows [] rows.

(** ** Reference descriptions of the result *)

(** The texts of the rows with a given label, in row order. *)
Definition texts_of (label : string) (rows : list row) : list string :=
  snd <$> filter (fun r : row => r.1 = label) rows.

(** The labels in the order of their first occurrence. *)
Fixpoint first_occurrences (seen : list string) (labels : list string)
  : list string :=
  match labels with
  | [] => []
  | l :: ls =>
      if decide (l ∈ seen) then first_occurrences seen ls
      else l :: first_occurrences (l :: seen) ls
  end.

Definition app_group (g : option (list string)) (ts : list string)
  : option (list string) :=
  match g, ts with
  | None, [] => None
  | None, _ => Some ts
  | Some g, _ => Some (g ++ ts)
  end.

(** ** The loop body *)

Lemma convert_row_spec knowledge label text :
  exists knowledge',
    convert_row knowledge (label, text) = Ok knowledge' /\
    (forall l, dict_get l knowledge' =
       if decide (l = label) then app_group (dict_get l knowledge) [text]
       else dict_get l knowledge) /\
    dict_keys knowledge' =
      if decide (label ∈ dict_keys knowledge) then dict_keys knowledge
      else dict_keys knowledge ++ [label].
Proof.
  unfold convert_row, kb_get.
  destruct (dict_get label knowledge) as [ts|] eqn:Hget; simpl.
  - rewrite Hget. eexists; split; [done|]. split.
    + intros l. rewrite dict_get_set. case_decide; subst; [by rewrite Hget|done].
    + apply dict_keys_set.
  - rewrite dict_get_set, decide_True by done. simpl.
    eexists; split; [done|]. split.
    + intros l. rewrite !dict_get_set. case_decide; subst; [by rewrite Hget|done].
    + apply dict_get_None in Hget.
      rewrite !dict_keys_set.
      destruct (decide (label ∈ dict_keys knowledge)); [done|].
      rewrite decide_True; [done | set_solver].
Qed.

Lemma first_occurrences_seen s1 s2 labels :
  (forall x, x ∈ s1 <-> x ∈ s2) ->
  first_occurrences s1 labels = first_occurrences s2 labels.
Proof.
  revert s1 s2; induction labels as [|l ls IH]; intros s1 s2 Hs; simpl; [done|].
  destruct (decide (l ∈ s1)), (decide (l ∈ s2)); try naive_solver.
  f_equal. apply IH. set_solver.
Qed.

Lemma app_group_app g ts1 ts2 :
  app_group (app_group g ts1) ts2 = app_group g (ts1 ++ ts2).
Proof. destruct g, ts1, ts2; simpl; by rewrite ?app_nil_r, <- ?app_assoc. Qed.

(** Writing [ts ++ [x]] over the group [ts] adds [x] to the texts. *)
Lemma concat_dict_set_snoc label ts x (d : knowledge_base) :
  dict_get label d = Some ts ->
  concat (snd <$> dict_set label (ts ++ [x]) d) ≡ₚ concat (snd <$> d) ++ [x].
Proof.
  induction d as [|[l v] d IH]; simpl; [done|].
  case_decide; intros Hget; simplify_eq; simpl.
  - by rewrite <- !app_assoc, (Permutation_app_comm [x]).
  - rewrite IH by done. by rewrite app_assoc.
Qed.

Lemma concat_dict_set_new label (d : knowledge_base) :
  dict_get label d = None -> concat (snd <$> dict_set label [] d) = concat (snd <$> d).
Proof.
  induction d as [|[l v] d IH]; simpl; [done|].
  case_decide; intros Hget; simplify_eq; simpl. f_equal. by apply IH.
Qed.

Lemma convert_row_texts knowledge label text knowledge' :
  convert_row knowledge (label, text) = Ok knowledge' ->
  concat (snd <$> knowledge') ≡ₚ concat (snd <$> knowledge) ++ [text].
Proof.
  unfold convert_row, kb_get.
  destruct (dict_get label knowledge) as [ts|] eqn:Hget; simpl.
  - rewrite Hget. intros [= <-]. by apply concat_dict_set_snoc.
  - rewrite dict_get_set, decide_True by done. intros [= <-].
    change [text] with ([] ++ [text]).
    rewrite (concat_dict_set_snoc label [] text); [|by rewrite dict_get_set, decide_True].
    by rewrite concat_dict_set_new.
Qed.

(** The loop, from any dict it has built so far. *)
Lemma convert_rows_spec knowledge rows :
  exists knowledge',
    convert_rows knowledge rows = Ok knowledge' /\
    (forall l, dict_get l knowledge' =
       app_group (dict_get l knowledge) (texts_of l rows)) /\
    dict_keys knowledge' =
      dict_keys knowledge ++ first_occurrences (dict_keys knowledge) (fst <$> rows) /\
    concat (snd <$> knowledge') ≡ₚ concat (snd <$> knowledge) ++ (snd <$> rows).
Proof.
  revert knowledge; induction rows as [|[label text] rows IH]; intros knowledge.
  - exists knowledge. split_and!; [done| |simpl; by rewrite app_nil_r..].
    intros l. unfold texts_of. simpl. destruct (dict_get l knowledge); simpl; by rewrite ?app_nil_r.
  - destruct (convert_row_spec knowledge label text) as (k1 & Hk1 & Hget1 & Hkeys1).
    destruct (IH k1) as (k2 & Hk2 & Hget2 & Hkeys2 & Htexts2).
    exists k2. split_and!.
    + cbn [convert_rows]. rewrite Hk1. done.
    + intros l. rewrite Hget2, Hget1. unfold texts_of. rewrite filter_cons. simpl.
      destruct (decide (l = label)) as [->|Hne].
      * by rewrite decide_True, app_group_app.
      * by rewrite decide_False by congruence.
    + rewrite Hkeys2, Hkeys1. simpl.
      destruct (decide (label ∈ dict_keys knowledge)); [done|].
      rewrite <- app_assoc. f_equal. simpl. f_equal.
      apply first_occurrences_seen. set_solver.
    + rewrite Htexts2, (convert_row_texts knowledge label text k1 Hk1). simpl.
      by rewrite <- app_assoc.
Qed.

Lemma first_occurrences_NoDup seen labels :
  NoDup (first_occurrences seen labels) /\
  forall l, l ∈ first_occurrences seen labels -> l ∉ seen /\ l ∈ labels.
Proof.
  revert seen; induction labels as [|l ls IH]; intros seen; simpl.
  - split; [constructor|set_solver].
  - case_decide.
    + destruct (IH seen) as [Hnd Hin]. split; [done|]. set_solver.
    + destruct (IH (l :: seen)) as [Hnd Hin]. split.
      * constructor; [|done]. intros Hl. apply Hin in Hl. set_solver.
      * intros x Hx. apply elem_of_cons in Hx as [->|Hx]; [set_solver|].
        apply Hin in Hx. set_solver.
Qed.

Lemma first_occurrences_complete seen labels l :
  l ∈ labels -> l ∉ seen -> l ∈ first_occurrences seen labels.
Proof.
  revert seen; induction labels as [|x ls IH]; intros seen Hl Hseen; [set_solver|].
  simpl. apply elem_of_cons in Hl.
  destruct (decide (l = x)) as [->|Hne].
  - rewrite decide_False by done. set_solver.
  - destruct Hl as [|Hl]; [done|]. case_decide; [by apply IH|].
    apply elem_of_cons. right. apply IH; set_solver.
Qed.

(** The declarative description of the dict: one entry per label, in
    first-occurrence order, holding the label's texts in row order. *)
Definition group_by_label (rows : list row) : knowledge_base :=
  (fun l => (l, texts_of l rows)) <$> first_occurrences [] (fst <$> rows).

Lemma texts_of_nil_iff label rows :
  texts_of label rows = [] <-> label ∉ fst <$> rows.
Proof.
  induction rows as [|[l t] rows IH]; unfold texts_of in *; simpl; [set_solver|].
  rewrite filter_cons. simpl. case_decide; simpl; [subst; set_solver|].
  rewrite IH. set_solver.
Qed.

Lemma group_by_label_get label rows :
  dict_get label (group_by_label rows) = app_group None (texts_of label rows).
Proof.
  unfold group_by_label.
  destruct (first_occurrences_NoDup [] (fst <$> rows)) as [Hnd Hin].
  destruct (texts_of label rows) as [|t ts] eqn:Ht; simpl.
  - apply dict_get_None. unfold dict_keys. rewrite <- list_fmap_compose.
    simpl. rewrite list_fmap_id. intros Hl. apply Hin in Hl as [_ Hl].
    by apply texts_of_nil_iff in Ht.
  - apply dict_get_NoDup.
    + unfold dict_keys. rewrite <- list_fmap_compose. by rewrite list_fmap_id.
    + apply list_elem_of_fmap. exists label. rewrite Ht. split; [done|].
      destruct (decide (label ∈ fst <$> rows)) as [Hl|Hl].
      * apply first_occurrences_complete; [done|set_solver].
      * apply texts_of_nil_iff in Hl. congruence.
Qed.

(** ** Properties of [convert_to_json.py] *)

Lemma build_knowledge_groups rows :
  build_knowledge rows = Ok (group_by_label rows).
Proof.
  destruct (convert_rows_spec [] rows) as (kb & Hkb & Hget & Hkeys & _).
  unfold build_knowledge. rewrite Hkb. f_equal.
  destruct (first_occurrences_NoDup [] (fst <$> rows)) as [Hnd _].
  assert (Hk : dict_keys (group_by_label rows) = first_occurrences [] (fst <$> rows)).
  { unfold dict_keys, group_by_label. rewrite <- list_fmap_compose.
    apply list_fmap_id. }
  apply dict_ext; [by rewrite Hkeys|by rewrite Hkeys, Hk|].
  intros l. by rewrite Hget, group_by_label_get.
Qed.

(** C10: the grouping loop never raises and builds exactly the dict that
    maps each label, in the order of its first row, to the texts of its
    rows in row order. *)
Theorem build_knowledge_correct rows :
  build_knowledge rows = Ok (group_by_label rows).
Proof. apply build_knowledge_groups. Qed.

(** What the loop builds, in one statement: distinct labels, each taken
    from a row, no empty group, and the rows' texts, each once. *)
Lemma build_knowledge_shape rows :
  exists kb, build_knowledge rows = Ok kb /\
    NoDup (dict_keys kb) /\ Forall (fun e : string * list string => e.2 <> []) kb /\
    Forall (fun e : string * list string => e.1 ∈ fst <$> rows) kb /\
    concat (snd <$> kb) ≡ₚ snd <$> rows.
Proof.
  destruct (convert_rows_spec [] rows) as (kb & Hkb & _ & _ & Htexts).
  pose proof (build_knowledge_groups rows) as Hg. unfold build_knowledge in Hg.
  rewrite Hkb in Hg. injection Hg as ->.
  exists (group_by_label rows). split; [done|].
  destruct (first_occurrences_NoDup [] (fst <$> rows)) as [Hnd Hin].
  split_and!.
  - unfold dict_keys, group_by_label. rewrite <- list_fmap_compose.
    by rewrite list_fmap_id.
  - apply Forall_forall. intros [l ts] Hl.
    unfold group_by_label in Hl. apply list_elem_of_fmap in Hl as (l' & Heq & Hl').
    injection Heq as -> ->.
    apply Hin in Hl' as [_ Hl']. simpl.
    rewrite texts_of_nil_iff. tauto.
  - apply Forall_forall. intros [l ts] Hl.
    unfold group_by_label in Hl. apply list_elem_of_fmap in Hl as (l' & Heq & Hl').
    injection Heq as -> ->. by apply Hin in Hl' as [_ Hl'].
  - rewrite Htexts. done.
Qed.

(** C11: the knowledge base the ETL writes has distinct labels and no
    empty label group, the invariant the spec requires of the file
    [rag_utils.py] loads. *)
Theorem build_knowledge_wf rows knowledge :
  build_knowledge rows = Ok knowledge ->
  NoDup (dict_keys knowledge) /\ Forall (fun e : string * list string => e.2 <> []) knowledge.
Proof.
  destruct (build_knowledge_shape rows) as (kb & -> & Hnd & Hne & _).
  by intros [= <-].
Qed.

(** C12: no row is lost or duplicated: the texts of all groups are a
    permutation of the texts of the rows. *)
Theorem build_knowledge_keeps_texts rows knowledge :
  build_knowledge rows = Ok knowledge ->
  concat (snd <$> knowledge) ≡ₚ snd <$> rows.
Proof.
  destruct (build_knowledge_shape rows) as (kb & -> & _ & _ & _ & Ht).
  by intros [= <-].
Qed.

(** The two rows of the spec's scenario A. *)
Definition scenario_rows : list row :=
  [("dowry_demand", "He demanded gold from her family.");
   ("physical_abuse", "He hit her repeatedly.")].

Definition scenario_knowledge : knowledge_base :=
  [("dowry_demand", ["He demanded gold from her family."]);
   ("physical_abuse", ["He hit her repeatedly."])].

Lemma build_knowledge_wf_witness :
  build_knowledge scenario_rows = Ok scenario_knowledge /\
  NoDup (dict_keys scenario_knowledge) /\
  Forall (fun e : string * list string => e.2 <> []) scenario_knowledge.
Proof.
  split; [reflexivity|].
  apply (build_knowledge_wf scenario_rows). reflexivity.
Defined.

Lemma build_knowledge_keeps_texts_witness :
  build_knowledge scenario_rows = Ok scenario_knowledge /\
  concat (snd <$> scenario_knowledge) ≡ₚ snd <$> scenario_rows.
Proof.
  split; [reflexivity|].
  apply (build_knowledge_keeps_texts scenario_rows). reflexivity.
Defined.
