(* ===== verification/TextFile.v ===== *)
(** * Text files: [open(path, mode, encoding="utf-8")]

    Both scripts exchange the knowledge base through a text file:
    [convert_to_json.py] writes it through [open("legal_knowledge.json",
    "w", encoding="utf-8")] (lines 18-19) and [rag_utils.py] reads it back
    through [open(..., "r", encoding="utf-8")] and [f.read()] inside
    [json.load] (lines 10-11).  A Python [str] is represented by the
    bytes of its UTF-8 encoding (a lone surrogate, which a [str] may hold
    after a [\uXXXX] escape, by its three-byte generalised form, as
    [utf8_encode] writes it).  Reading decodes strictly ([utf8_valid], the
    byte sequences CPython's UTF-8 codec accepts) and applies the
    universal-newline translation of text mode ([translate_newlines]);
    writing encodes strictly, which fails exactly on a lone surrogate, and
    writes ["\n"] unchanged (POSIX, where [os.linesep] is ["\n"]).
    The page decodes an uploaded file with [errors="ignore"]
    ([decode_ignore]: what CPython's decoder skips on each error), and
    slices [str]s by code points ([utf8_take], [str_take]). *)

From S2P Require Import Prelude.
From Stdlib Require Import Ascii.

Abbreviation bytes := (list Ascii.ascii).

Definition bval (c : Ascii.ascii) : nat := Ascii.nat_of_ascii c.

Definition in_range (lo hi : nat) (c : Ascii.ascii) : bool :=
  (lo <=? bval c) && (bval c <=? hi).

(** A continuation byte [10xxxxxx]. *)
Definition cont (c : Ascii.ascii) : bool := in_range 128 191 c.

(** The range of the second byte after the lead byte [n] of a three- or
    four-byte sequence: it excludes overlong forms ([E0], [F0]), the
    surrogates ([ED]) and the code points above U+10FFFF ([F4]). *)
Definition second_range (n : nat) : nat * nat :=
  if n =? 224 then (160, 191)
  else if n =? 237 then (128, 159)
  else if n =? 240 then (144, 191)
  else if n =? 244 then (128, 143)
  else (128, 191).

(** The byte strings CPython's strict UTF-8 decoder accepts. *)
Fixpoint utf8_valid (bs : bytes) : bool :=
  match bs with
  | [] => true
  | b :: r =>
      let n := bval b in
      let '(lo, hi) := second_range n in
      if n <? 128 then utf8_valid r
      else if (194 <=? n) && (n <=? 223) then
        match r with
        | c1 :: r' => cont c1 && utf8_valid r'
        | [] => false
        end
      else if (224 <=? n) && (n <=? 239) then
        match r with
        | c1 :: c2 :: r' => in_range lo hi c1 && cont c2 && utf8_valid r'
        | _ => false
        end
      else if (240 <=? n) && (n <=? 244) then
        match r with
        | c1 :: c2 :: c3 :: r' =>
            in_range lo hi c1 && cont c2 && cont c3 && utf8_valid r'
        | _ => false
        end
      else false
  end.

Definition byte_of_Z (z : Z) : Ascii.ascii := Ascii.ascii_of_N (Z.to_N z).

(** The bytes of the code point [u] (one to four bytes; a surrogate
    U+D800-U+DFFF takes the three-byte form). *)
Definition utf8_encode (u : Z) : bytes :=
  if (u <? 128)%Z then [byte_of_Z u]
  else if (u <? 2048)%Z then
    [byte_of_Z (Z.lor 192 (Z.shiftr u 6)); byte_of_Z (Z.lor 128 (Z.land u 63))]
  else if (u <? 65536)%Z then
    [byte_of_Z (Z.lor 224 (Z.shiftr u 12));
     byte_of_Z (Z.lor 128 (Z.land (Z.shiftr u 6) 63));
     byte_of_Z (Z.lor 128 (Z.land u 63))]
  else
    [byte_of_Z (Z.lor 240 (Z.shiftr u 18));
     byte_of_Z (Z.lor 128 (Z.land (Z.shiftr u 12) 63));
     byte_of_Z (Z.lor 128 (Z.land (Z.shiftr u 6) 63));
     byte_of_Z (Z.lor 128 (Z.land u 63))].

Definition CR : Ascii.ascii := Ascii.ascii_of_nat 13.
Definition LF : Ascii.ascii := Ascii.ascii_of_nat 10.

(** Universal newlines: ["\r\n"] and a lone ["\r"] are read as ["\n"]. *)
Fixpoint translate_newlines (bs : bytes) : bytes :=
  match bs with
  | [] => []
  | c :: r =>
      if decide (c = CR) then
        LF :: match r with
              | c' :: r' => if decide (c' = LF) then translate_newlines r'
                            else translate_newlines r
              | [] => []
              end
      else c :: translate_newlines r
  end.

(** [f.read()] on a file opened with [encoding="utf-8"] in text mode. *)
Definition read_text (raw : bytes) : result bytes :=
  if utf8_valid raw then Ok (translate_newlines raw) else raise UnicodeDecodeError.

(** The bytes [f.write(s)] puts in a file opened with [encoding="utf-8"]
    in text mode. *)
Definition write_text (s : bytes) : result bytes :=
  if utf8_valid s then Ok s else raise UnicodeEncodeError.

(** ** Lemmas *)

Lemma utf8_valid_app_strong n a b :
  length a <= n -> utf8_valid a = true -> utf8_valid b = true ->
  utf8_valid (a ++ b) = true.
Proof.
  revert a; induction n as [|n IH]; intros [|x a] Hlen Ha Hb; simpl in Hlen;
    [done|lia|done|].
  cbn [app utf8_valid] in *. destruct (second_range (bval x)) as [lo hi].
  destruct (bval x <? 128); [apply IH; [lia|done..]|].
  destruct ((194 <=? bval x) && (bval x <=? 223)).
  { destruct a as [|c1 a]; [done|]; cbn [app]. apply andb_prop in Ha as [-> Ha].
    apply IH; [simpl in *; lia|done..]. }
  destruct ((224 <=? bval x) && (bval x <=? 239)).
  { destruct a as [|c1 [|c2 a]]; [done..|]; cbn [app]. apply andb_prop in Ha as [Ha Ha'].
    rewrite Ha. apply IH; [simpl in *; lia|done..]. }
  destruct ((240 <=? bval x) && (bval x <=? 244)); [|done].
  destruct a as [|c1 [|c2 [|c3 a]]]; [done..|]; cbn [app]. apply andb_prop in Ha as [Ha Ha'].
  rewrite Ha. apply IH; [simpl in *; lia|done..].
Qed.

Lemma utf8_valid_app a b :
  utf8_valid a = true -> utf8_valid b = true -> utf8_valid (a ++ b) = true.
Proof. apply (utf8_valid_app_strong (length a)). done. Qed.

Lemma utf8_valid_ascii c : bval c < 128 -> utf8_valid [c] = true.
Proof.
  intros Hc. simpl. destruct (second_range (bval c)).
  by rewrite (proj2 (Nat.ltb_lt _ _) Hc).
Qed.

Lemma translate_newlines_no_cr bs :
  CR ∉ bs -> translate_newlines bs = bs.
Proof.
  induction bs as [|c bs IH]; intros Hcr; simpl; [done|].
  rewrite decide_False by set_solver. f_equal. apply IH. set_solver.
Qed.

Lemma read_write_text s raw :
  write_text s = Ok raw -> CR ∉ s -> read_text raw = Ok s.
Proof.
  unfold write_text, read_text. destruct (utf8_valid s) eqn:E; [|done].
  intros [= <-] Hcr. rewrite E. by rewrite translate_newlines_no_cr.
Qed.

#[export] Hint Resolve utf8_valid_app utf8_valid_ascii : legalbot.

Lemma utf8_valid_ascii_app a b :
  Forall (fun c => bval c < 128) a -> utf8_valid (a ++ b) = utf8_valid b.
Proof.
  induction 1 as [|c a Hc _ IH]; [done|]. simpl.
  destruct (second_range (bval c)). by rewrite (proj2 (Nat.ltb_lt _ _) Hc).
Qed.

Lemma second_range_lo n : 128 <= (second_range n).1.
Proof. unfold second_range. repeat case_match; simpl; lia. Qed.

Lemma in_range_ascii lo hi c : 128 <= lo -> bval c < 128 -> in_range lo hi c = false.
Proof. intros Hlo Hc. unfold in_range. apply andb_false_intro1, Nat.leb_gt. lia. Qed.

(** ** Decoding with [errors="ignore"]

    [bytes.decode("utf-8", errors="ignore")] (app.py, line 24) runs
    CPython's decoder ([Objects/stringlib/codecs.h], [utf8_decode]) and
    drops what each error covers: an invalid start byte alone; a lead byte
    with the continuation bytes that were valid before the first invalid
    one; at the end of the data, an incomplete sequence whose bytes so far
    are valid, up to the end. *)
Fixpoint decode_ignore (bs : bytes) : bytes :=
  match bs with
  | [] => []
  | b :: r =>
      let n := bval b in
      let '(lo, hi) := second_range n in
      if n <? 128 then b :: decode_ignore r
      else if (194 <=? n) && (n <=? 223) then
        match r with
        | [] => []
        | c1 :: r1 => if cont c1 then b :: c1 :: decode_ignore r1 else decode_ignore r
        end
      else if (224 <=? n) && (n <=? 239) then
        match r with
        | [] => []
        | c1 :: r1 =>
            if in_range lo hi c1 then
              match r1 with
              | [] => []
              | c2 :: r2 => if cont c2 then b :: c1 :: c2 :: decode_ignore r2
                            else decode_ignore r1
              end
            else decode_ignore r
        end
      else if (240 <=? n) && (n <=? 244) then
        match r with
        | [] => []
        | c1 :: r1 =>
            if in_range lo hi c1 then
              match r1 with
              | [] => []
              | c2 :: r2 =>
                  if cont c2 then
                    match r2 with
                    | [] => []
                    | c3 :: r3 => if cont c3 then b :: c1 :: c2 :: c3 :: decode_ignore r3
                                  else decode_ignore r2
                    end
                  else decode_ignore r1
              end
            else decode_ignore r
        end
      else decode_ignore r
  end.

(** Rewrite the goal with every equation of the context whose left side
    occurs in it: the branch conditions [case_match] recorded. *)
Ltac rewrite_conds :=
  repeat match goal with H : ?c = ?v |- context [?c] => progress rewrite H end.

Lemma decode_ignore_valid_strong n bs :
  length bs <= n -> utf8_valid (decode_ignore bs) = true.
Proof.
  revert bs; induction n as [|n IH]; intros [|b r] Hlen; simpl in Hlen; try done; try lia.
  cbn [decode_ignore]. destruct (second_range (bval b)) as [lo hi] eqn:Hr.
  repeat case_match; subst; try done; cbn [utf8_valid]; rewrite_conds;
    repeat (apply andb_true_intro; split; [done|]); apply IH; simpl in *; lia.
Qed.

Lemma decode_ignore_id_strong n bs :
  length bs <= n -> utf8_valid bs = true -> decode_ignore bs = bs.
Proof.
  revert bs; induction n as [|n IH]; intros [|b r] Hlen Hv; simpl in Hlen; try done; try lia.
  cbn [decode_ignore utf8_valid] in *. destruct (second_range (bval b)) as [lo hi] eqn:Hr.
  repeat case_match; subst; simpl in *; try done;
    repeat f_equal; apply IH; simpl in *; try lia;
    repeat match goal with H : _ && _ = true |- _ => apply andb_prop in H as [? ?] end; done.
Qed.

(** ** Slicing a [str]: [s[:n]] *)

(** A Python [str] is sliced by code points.  In its UTF-8 bytes each code
    point starts with the one byte that is not a continuation byte, so
    [s[:n]] is the bytes before the [n+1]-th such byte. *)
Fixpoint utf8_take (n : nat) (bs : bytes) : bytes :=
  match bs with
  | [] => []
  | c :: r =>
      if cont c then c :: utf8_take n r
      else match n with 0 => [] | S n' => c :: utf8_take n' r end
  end.

(** [len(s)]: the number of code points. *)
Definition code_points (bs : bytes) : nat := length (List.filter (fun c => negb (cont c)) bs).

(** [s[:n]] for [n >= 0]. *)
Definition str_take (n : nat) (s : string) : string :=
  String.string_of_list_ascii (utf8_take n (String.list_ascii_of_string s)).

Lemma utf8_valid_lead b r : utf8_valid (b :: r) = true -> cont b = false.
Proof.
  cbn [utf8_valid]. unfold cont, in_range. destruct (second_range (bval b)).
  repeat case_match; try done; intros _;
    repeat match goal with
           | H : (_ <? _) = _ |- _ => apply Nat.ltb_lt in H || apply Nat.ltb_ge in H
           | H : (_ && _) = true |- _ => apply andb_prop in H as [? ?]
           | H : (_ <=? _) = true |- _ => apply Nat.leb_le in H
           end;
    apply andb_false_iff; first [left; apply Nat.leb_gt; lia | right; apply Nat.leb_gt; lia].
Qed.

Lemma in_range_cont n lo hi c :
  second_range n = (lo, hi) -> in_range lo hi c = true -> cont c = true.
Proof.
  unfold cont, in_range, second_range. intros Hr.
  repeat case_match; simplify_eq; intros Hc; apply andb_prop in Hc as [Hlo Hhi];
    apply Nat.leb_le in Hlo, Hhi; apply andb_true_intro; split; apply Nat.leb_le; lia.
Qed.

(** Split a validity hypothesis into its byte tests and the validity of
    the rest, leaving the branch conditions whole. *)
Ltac split_valid :=
  repeat match goal with
         | H : _ && utf8_valid _ = true |- _ => apply andb_prop in H as [? ?]
         | H : in_range _ _ _ && _ = true |- _ => apply andb_prop in H as [? ?]
         | H : cont _ && _ = true |- _ => apply andb_prop in H as [? ?]
         | H : _ && cont _ = true |- _ => apply andb_prop in H as [? ?]
         end.

Lemma utf8_take_cont n c r : cont c = true -> utf8_take n (c :: r) = c :: utf8_take n r.
Proof. intros Hc. simpl. by rewrite Hc. Qed.

(** Slicing a valid [str] cuts it between two code points. *)
Lemma utf8_take_valid_strong m n bs :
  length bs <= m -> utf8_valid bs = true -> utf8_valid (utf8_take n bs) = true.
Proof.
  revert n bs; induction m as [|m IH]; intros n [|b r] Hlen Hv; simpl in Hlen; try done; try lia.
  cbn [utf8_take]. rewrite (utf8_valid_lead b r Hv). destruct n as [|n]; [done|].
  cbn [utf8_valid] in Hv. destruct (second_range (bval b)) as [lo hi] eqn:Hr.
  repeat case_match; subst; try done;
    split_valid;
    repeat match goal with
           | H : in_range lo hi ?c = true |- _ =>
               let Hc := fresh "Hc" in
               assert (Hc := in_range_cont _ _ _ c Hr H); revert H
           end; intros;
    repeat match goal with
           | H : cont ?c = true |- context [utf8_take ?k (?c :: ?t)] =>
               rewrite (utf8_take_cont k c t H)
           end;
    cbn [utf8_valid]; rewrite Hr; rewrite_conds;
    repeat (apply andb_true_intro; split; [done|]); apply IH; simpl in *; try lia; done.
Qed.

Lemma utf8_take_code_points n bs : code_points (utf8_take n bs) = n `min` code_points bs.
Proof.
  unfold code_points. revert n; induction bs as [|c bs IH]; intros n; simpl; [lia|].
  destruct (cont c) eqn:Ec; simpl; rewrite ?Ec; simpl; [apply IH|].
  destruct n as [|n]; simpl; rewrite ?Ec; simpl; [done|]. f_equal. apply IH.
Qed.

Lemma utf8_take_prefix n bs : utf8_take n bs `prefix_of` bs.
Proof.
  revert n; induction bs as [|c bs IH]; intros n; simpl; [done|].
  destruct (cont c); [by apply prefix_cons|]. destruct n; [apply prefix_nil|by apply prefix_cons].
Qed.

Lemma utf8_take_all n bs : code_points bs <= n -> utf8_take n bs = bs.
Proof.
  unfold code_points. revert n; induction bs as [|c bs IH]; intros n Hn; simpl in *; [done|].
  destruct (cont c) eqn:Ec; simpl in *; rewrite ?Ec in Hn; simpl in Hn; [by rewrite IH|].
  destruct n as [|n]; [lia|]. rewrite IH; [done|lia].
Qed.

Lemma decode_ignore_valid bs : utf8_valid (decode_ignore bs) = true.
Proof. by apply (decode_ignore_valid_strong (length bs)). Qed.

Lemma decode_ignore_id bs : utf8_valid bs = true -> decode_ignore bs = bs.
Proof. by apply (decode_ignore_id_strong (length bs)). Qed.

Lemma utf8_take_valid n bs : utf8_valid bs = true -> utf8_valid (utf8_take n bs) = true.
Proof. by apply (utf8_take_valid_strong (length bs)). Qed.

#[export] Hint Resolve decode_ignore_valid utf8_take_valid utf8_take_prefix : legalbot.

(** C31: [errors="ignore"] decoding always yields a valid [str], and it
    leaves a byte string unchanged exactly when the bytes are already
    valid UTF-8: a file that decodes strictly loses nothing. *)
Theorem decode_ignore_spec bs :
  utf8_valid (decode_ignore bs) = true /\ (decode_ignore bs = bs <-> utf8_valid bs = true).
Proof.
  split; [apply decode_ignore_valid|]. split; [|apply decode_ignore_id].
  intros Heq. rewrite <- Heq. apply decode_ignore_valid.
Qed.

(** C32: [s[:n]] keeps [min(n, len(s))] code points, is a prefix of [s],
    and cuts a valid [str] between two code points. *)
Theorem utf8_take_spec n bs :
  code_points (utf8_take n bs) = n `min` code_points bs /\ utf8_take n bs `prefix_of` bs /\
  (utf8_valid bs = true -> utf8_valid (utf8_take n bs) = true).
Proof. split_and!; [apply utf8_take_code_points|apply utf8_take_prefix|apply utf8_take_valid]. Qed.

(** ** Witnesses *)

(** ["caf\xe9 \xe2\x82\xac"]: a Latin-1 byte, dropped, and a euro sign, kept. *)
Definition latin1_cafe : bytes :=
  ["c"; "a"; "f"; Ascii.ascii_of_nat 233; " ";
   Ascii.ascii_of_nat 226; Ascii.ascii_of_nat 130; Ascii.ascii_of_nat 172]%char.

Lemma decode_ignore_spec_witness :
  decode_ignore latin1_cafe =
    ["c"; "a"; "f"; " "; Ascii.ascii_of_nat 226; Ascii.ascii_of_nat 130;
     Ascii.ascii_of_nat 172]%char /\
  utf8_valid (decode_ignore latin1_cafe) = true /\
  (decode_ignore latin1_cafe = latin1_cafe <-> utf8_valid latin1_cafe = true).
Proof. split; [reflexivity|exact (decode_ignore_spec latin1_cafe)]. Defined.

Lemma utf8_take_spec_witness :
  utf8_valid (decode_ignore latin1_cafe) = true /\
  utf8_take 4 (decode_ignore latin1_cafe) = ["c"; "a"; "f"; " "]%char /\
  code_points (utf8_take 4 (decode_ignore latin1_cafe)) =
    4 `min` code_points (decode_ignore latin1_cafe) /\
  utf8_take 4 (decode_ignore latin1_cafe) `prefix_of` decode_ignore latin1_cafe /\
  (utf8_valid (decode_ignore latin1_cafe) = true ->
   utf8_valid (utf8_take 4 (decode_ignore latin1_cafe)) = true).
Proof.
  assert (Hv : utf8_valid (decode_ignore latin1_cafe) = true) by reflexivity.
  split; [exact Hv|split; [reflexivity|exact (utf8_take_spec 4 (decode_ignore latin1_cafe))]].
Defined.
