(* ===== verification/PyStr.v ===== *)
(** * Python [str] as code points: decoding UTF-8 and [str.strip]

    A [str] is held as the bytes of its UTF-8 encoding ([TextFile]).  The
    operations that look at characters see its code points: [utf8_decode]
    computes them the way CPython's decoder does
    ([Objects/stringlib/codecs.h], [utf8_decode]: for a sequence of two,
    three or four bytes it shifts the lead byte and adds the continuation
    bytes, then subtracts the marker bits), and [utf8_encode] of
    [TextFile] gives each code point back its bytes.  [str.strip()] with
    no argument ([app.py], line 35) removes at both ends the code points
    for which [Py_UNICODE_ISSPACE] holds ([is_space_cp]): the ASCII
    whitespace and the separators, and also U+0085, U+00A0, U+1680,
    U+2000-U+200A, U+2028, U+2029, U+202F, U+205F and U+3000.  The
    theorems: the stripped string is empty exactly when every code point
    is whitespace; it is the decoded string without its leading and
    trailing runs of whitespace, starting and ending with a code point
    that is not; and, on the bytes, the original string is a run of
    whitespace, the stripped string, and a run of whitespace. *)

From S2P Require Import Prelude TextFile.
From Stdlib Require Import Ascii.

(** The code points of a valid UTF-8 byte string, as CPython's decoder
    computes them. *)
Fixpoint utf8_decode (bs : bytes) : list Z :=
  match bs with
  | [] => []
  | b :: r =>
      let ch := Z.of_nat (bval b) in
      if bval b <? 128 then ch :: utf8_decode r
      else if bval b <? 224 then
        match r with
        | c1 :: r1 =>
            (Z.shiftl ch 6 + Z.of_nat (bval c1) - (Z.shiftl 192 6 + 128))%Z :: utf8_decode r1
        | [] => []
        end
      else if bval b <? 240 then
        match r with
        | c1 :: c2 :: r2 =>
            (Z.shiftl ch 12 + Z.shiftl (Z.of_nat (bval c1)) 6 + Z.of_nat (bval c2)
             - (Z.shiftl 224 12 + Z.shiftl 128 6 + 128))%Z :: utf8_decode r2
        | _ => []
        end
      else
        match r with
        | c1 :: c2 :: c3 :: r3 =>
            (Z.shiftl ch 18 + Z.shiftl (Z.of_nat (bval c1)) 12 + Z.shiftl (Z.of_nat (bval c2)) 6
             + Z.of_nat (bval c3)
             - (Z.shiftl 240 18 + Z.shiftl 128 12 + Z.shiftl 128 6 + 128))%Z :: utf8_decode r3
        | _ => []
        end
  end.

(** The bytes of a list of code points: [str.encode("utf-8")]. *)
Definition utf8_encode_all (us : list Z) : bytes := concat (utf8_encode <$> us).

(** [Py_UNICODE_ISSPACE]. *)
Definition is_space_cp (u : Z) : bool :=
  ((9 <=? u) && (u <=? 13))%Z || ((28 <=? u) && (u <=? 32))%Z ||
  (u =? 133)%Z || (u =? 160)%Z || (u =? 5760)%Z ||
  ((8192 <=? u) && (u <=? 8202))%Z || (u =? 8232)%Z || (u =? 8233)%Z ||
  (u =? 8239)%Z || (u =? 8287)%Z || (u =? 12288)%Z.

(** Leading whitespace removed ([_PyUnicode_XStrip], the left loop). *)
Fixpoint lstrip_cps (us : list Z) : list Z :=
  match us with
  | [] => []
  | u :: us' => if is_space_cp u then lstrip_cps us' else us
  end.

(** [s.strip()]: both ends, on the code points of [s]. *)
Definition py_strip (s : string) : string :=
  let us := lstrip_cps (utf8_decode (String.list_ascii_of_string s)) in
  String.string_of_list_ascii (utf8_encode_all (rev (lstrip_cps (rev us)))).

(** ** Arithmetic of the byte fields *)







Lemma bval_lt_256 b : bval b < 256.
Proof. unfold bval. apply (Ascii.nat_ascii_bounded b). Qed.










Lemma utf8_encode_nonempty u : utf8_encode u <> [].
Proof. unfold utf8_encode. by repeat case_match. Qed.

Lemma utf8_encode_all_nil us : utf8_encode_all us = [] <-> us = [].
Proof.
  unfold utf8_encode_all. destruct us as [|u us]; [done|].
  rewrite fmap_cons, concat_cons. split; [|done]. intros Happ.
  apply app_eq_nil in Happ as [Hu _]. by apply utf8_encode_nonempty in Hu.
Qed.

Lemma string_of_list_ascii_nil l : String.string_of_list_ascii l = EmptyString <-> l = [].
Proof. destruct l; simpl; split; done. Qed.

(** ** Stripping *)

Section Strip.
Implicit Types us : list Z.

Lemma lstrip_cps_nil us : lstrip_cps us = [] <-> Forall (fun u => is_space_cp u = true) us.
Proof.
  induction us as [|u us IH]; simpl; [split; constructor|].
  destruct (is_space_cp u) eqn:E.
  - rewrite IH, Forall_cons. tauto.
  - split; [done|]. intros Hall. inversion Hall; congruence.
Qed.

(** [lstrip_cps] removes a prefix of whitespace and stops at a code point
    that is not whitespace. *)
Lemma lstrip_cps_spec us :
  exists pre, us = pre ++ lstrip_cps us /\ Forall (fun u => is_space_cp u = true) pre /\
    match lstrip_cps us with [] => True | u :: _ => is_space_cp u = false end.
Proof.
  induction us as [|u us (pre & Hus & Hpre & Hhd)]; [by exists []|]. simpl.
  destruct (is_space_cp u) eqn:E.
  - exists (u :: pre). split_and!; [by rewrite Hus at 1|by constructor|done].
  - by exists [].
Qed.

Lemma lstrip_cps_all_space us :
  Forall (fun u => is_space_cp u = true) (lstrip_cps us) -> lstrip_cps us = [].
Proof.
  destruct (lstrip_cps_spec us) as (_ & _ & _ & Hhd).
  destruct (lstrip_cps us) as [|u us']; [done|]. intros Hall. inversion Hall; congruence.
Qed.

Lemma py_strip_nil_iff s :
  py_strip s = EmptyString <->
  Forall (fun u => is_space_cp u = true) (utf8_decode (String.list_ascii_of_string s)).
Proof.
  unfold py_strip. rewrite string_of_list_ascii_nil, utf8_encode_all_nil, <- lstrip_cps_nil.
  set (us := lstrip_cps (utf8_decode (String.list_ascii_of_string s))). split.
  - intros Hrev. apply (f_equal (@rev _)) in Hrev. rewrite rev_involutive in Hrev.
    simpl in Hrev. apply lstrip_cps_nil in Hrev.
    apply Forall_rev in Hrev. rewrite rev_involutive in Hrev.
    by apply lstrip_cps_all_space.
  - intros Hcs. rewrite Hcs. done.
Qed.
End Strip.

Lemma py_strip_decomp s :
  exists pre mid suf,
    utf8_decode (String.list_ascii_of_string s) = pre ++ mid ++ suf /\
    Forall (fun u => is_space_cp u = true) pre /\
    Forall (fun u => is_space_cp u = true) suf /\
    String.list_ascii_of_string (py_strip s) = utf8_encode_all mid /\
    match mid with [] => True | u :: _ => is_space_cp u = false end /\
    match rev mid with [] => True | u :: _ => is_space_cp u = false end.
Proof.
  set (us := utf8_decode (String.list_ascii_of_string s)).
  destruct (lstrip_cps_spec us) as (pre & Hus & Hpre & Hhd).
  set (L := lstrip_cps us) in *.
  destruct (lstrip_cps_spec (rev L)) as (pre' & HL & Hpre' & Hhd').
  exists pre, (rev (lstrip_cps (rev L))), (rev pre').
  assert (HLmid : L = rev (lstrip_cps (rev L)) ++ rev pre').
  { rewrite <- rev_app_distr, <- HL. by rewrite rev_involutive. }
  split_and!.
  - rewrite Hus at 1. rewrite HLmid at 1. done.
  - done.
  - by apply Forall_rev.
  - unfold py_strip. by rewrite String.list_ascii_of_string_of_list_ascii.
  - destruct (rev (lstrip_cps (rev L))) as [|u mid] eqn:E; [done|].
    rewrite HLmid in Hhd. by simpl in Hhd.
  - by rewrite rev_involutive.
Qed.

(** ** Theorems *)

(** C21: [s.strip()] is the empty string exactly when every code point of
    [s] is whitespace for Python (U+00A0 and U+3000 included). *)
Theorem py_strip_empty_iff s :
  py_strip s = EmptyString <->
  Forall (fun u => is_space_cp u = true) (utf8_decode (String.list_ascii_of_string s)).
Proof. apply py_strip_nil_iff. Qed.

(** C37: [s.strip()] is the middle of [s]: the code points of [s] are a
    run of whitespace, the result, and a run of whitespace, and the
    result neither starts nor ends with whitespace. *)
Theorem py_strip_spec s :
  exists pre mid suf,
    utf8_decode (String.list_ascii_of_string s) = pre ++ mid ++ suf /\
    Forall (fun u => is_space_cp u = true) pre /\
    Forall (fun u => is_space_cp u = true) suf /\
    String.list_ascii_of_string (py_strip s) = utf8_encode_all mid /\
    match mid with [] => True | u :: _ => is_space_cp u = false end /\
    match rev mid with [] => True | u :: _ => is_space_cp u = false end.
Proof. apply py_strip_decomp. Qed.



(** ** Witnesses *)

(** An ideographic space (U+3000, bytes E3 80 80), a question mark, a
    no-break space (U+00A0, bytes C2 A0). *)
Definition wide_spaced : bytes :=
  [Ascii.ascii_of_nat 227; Ascii.ascii_of_nat 128; Ascii.ascii_of_nat 128; "?"%char;
   Ascii.ascii_of_nat 194; Ascii.ascii_of_nat 160].


Lemma py_strip_spec_witness :
  py_strip (String.string_of_list_ascii wide_spaced) = "?" /\
  exists pre mid suf,
    utf8_decode (String.list_ascii_of_string (String.string_of_list_ascii wide_spaced))
      = pre ++ mid ++ suf /\
    Forall (fun u => is_space_cp u = true) pre /\
    Forall (fun u => is_space_cp u = true) suf /\
    String.list_ascii_of_string (py_strip (String.string_of_list_ascii wide_spaced))
      = utf8_encode_all mid /\
    match mid with [] => True | u :: _ => is_space_cp u = false end /\
    match rev mid with [] => True | u :: _ => is_space_cp u = false end.
Proof. split; [reflexivity|exact (py_strip_spec _)]. Defined.
