(* ===== verification/Format.v ===== *)
(** * The caption of an answer: [f"{label}"] and [f"{score:.2f}"]

    [app.py] (line 69) renders
    [st.caption(f"**Predicted Label:** {label} | **Relevance Score:** {score:.2f}")].
    [{label}] is [str(label)]: the label itself, or ["None"] when no label
    matched.  [{score:.2f}] formats the score with two decimals: Python's
    [float.__format__] (numpy's scalars defer to it) rounds the value to
    the nearest multiple of 0.01, a tie to the even multiple, and writes a
    minus sign for a negative value (so a small negative value is
    ["-0.00"]).  Scores are exact rationals in this development, so the
    rounding is that of the exact value ([round_half_even]); Python rounds
    the binary float nearest to it, which can only differ on an exact tie
    such as [1/200].  [read_2f], written independently of [format_2f],
    reads such a rendering back to a rational, so that the theorem pins
    the text [format_2f] writes and not only the rounded value.  The page reads the rendering of a score through the
    class [ScoreFormat]; its instance on [Q] is [format_2f]. *)

From S2P Require Import Prelude.
From Stdlib Require Import QArith Qabs DecimalString DecimalN Ascii.

(** [n / d] rounded to the nearest integer, a tie to the even one
    ([d > 0]). *)
Definition round_half_even (n d : Z) : Z :=
  let q := (n / d)%Z in
  let r := (n mod d)%Z in
  if (2 * r <? d)%Z then q
  else if (d <? 2 * r)%Z then (q + 1)%Z
  else if Z.even q then q else (q + 1)%Z.

(** [str(n)] for [n >= 0]. *)
Definition string_of_N (n : N) : string := NilEmpty.string_of_uint (N.to_uint n).

(** A decimal digit [0 <= d <= 9]. *)
Definition digit (d : Z) : string := String (Ascii.ascii_of_nat (48 + Z.to_nat d)) EmptyString.

(** The number of hundredths [format(x, '.2f')] writes for [|x|]. *)
Definition cents (x : Q) : Z := round_half_even (Z.abs (Qnum x) * 100) (Zpos (Qden x)).

(** [format(x, '.2f')]. *)
Definition format_2f (x : Q) : string :=
  let c := cents x in
  (if (Qnum x <? 0)%Z then "-" else EmptyString) ++
  string_of_N (Z.to_N (c / 100)) ++ "." ++ digit (c mod 100 / 10) ++ digit (c mod 10).

(** What the page needs of a score: its rendering by [{score:.2f}]. *)
Class ScoreFormat (Sc : Type) := score_2f : Sc -> string.

#[export] Instance Q_score_format : ScoreFormat Q := format_2f.

(** [str(label)] of an [Optional[str]]. *)
Definition label_str (label : option string) : string :=
  match label with Some l => l | None => "None" end.

(** Line 69: the caption's text. *)
Definition caption_text `{ScoreFormat Sc} (label : option string) (score : Sc) : string :=
  "**Predicted Label:** " ++ label_str label ++ " | **Relevance Score:** " ++ score_2f score.

(** ** Rounding *)

Lemma round_half_even_spec n d :
  (0 < d)%Z ->
  (Z.abs (2 * (round_half_even n d * d - n)) <= d)%Z /\
  (Z.abs (2 * (round_half_even n d * d - n)) = d -> Z.even (round_half_even n d) = true)%Z.
Proof.
  intros Hd. unfold round_half_even.
  pose proof (Z.div_mod n d ltac:(lia)) as Hn. pose proof (Z.mod_pos_bound n d Hd) as Hr.
  set (q := (n / d)%Z) in *. set (r := (n mod d)%Z) in *.
  destruct (2 * r <? d)%Z eqn:E1; [apply Z.ltb_lt in E1|apply Z.ltb_ge in E1].
  { split; intros; lia. }
  destruct (d <? 2 * r)%Z eqn:E2; [apply Z.ltb_lt in E2|apply Z.ltb_ge in E2].
  { split; intros; lia. }
  destruct (Z.even q) eqn:Ev.
  - split; [lia|done].
  - rewrite Z.even_add, Ev. split; [lia|done].
Qed.

(** The hundredths written for [x] are within half a hundredth of [|x|],
    in the arithmetic of [Q]; on a tie they are even. *)
Lemma cents_close x :
  Qabs (Qmake (cents x) 100 - Qabs x) <= (1 # 200) /\
  (Qabs (Qmake (cents x) 100 - Qabs x) == (1 # 200) -> Z.even (cents x) = true).
Proof.
  destruct x as [n d]. unfold cents. cbn [Qnum Qden].
  destruct (round_half_even_spec (Z.abs n * 100) (Zpos d) ltac:(lia)) as [Hle Htie].
  set (c := round_half_even (Z.abs n * 100) (Zpos d)) in *.
  unfold Qle, Qeq, Qabs, Qminus, Qplus, Qopp. cbn [Qnum Qden].
  rewrite !Pos2Z.inj_mul. split; [nia|]. intros Heq. apply Htie. nia.
Qed.

Lemma round_half_even_nonneg n d : (0 <= n)%Z -> (0 < d)%Z -> (0 <= round_half_even n d)%Z.
Proof.
  intros Hn Hd. pose proof (Z.div_pos n d Hn Hd).
  unfold round_half_even. repeat case_match; lia.
Qed.

(** ** Reading the rendering back

    A reader of the number a caption shows, written independently of
    [format_2f]: an optional minus sign, decimal digits read by the
    standard library's [NilEmpty.uint_of_string], a dot, two digits. *)

Definition digit_val (c : Ascii.ascii) : option Z :=
  let n := Ascii.nat_of_ascii c in
  if (48 <=? n) && (n <=? 57) then Some (Z.of_nat (n - 48)) else None.

Fixpoint split_dot (s : string) : option (string * string) :=
  match s with
  | EmptyString => None
  | String c t =>
      if Ascii.eqb c "."%char then Some (EmptyString, t)
      else match split_dot t with Some (a, b) => Some (String c a, b) | None => None end
  end.

(** The leading minus sign, if any, and the rest. *)
Definition split_sign (s : string) : bool * string :=
  match s with
  | String c t => if Ascii.eqb c "-"%char then (true, t) else (false, s)
  | EmptyString => (false, s)
  end.

Definition read_2f (s : string) : option Q :=
  let '(neg, body) := split_sign s in
  match split_dot body with
  | Some (ip, String d1 (String d2 EmptyString)) =>
      match NilEmpty.uint_of_string ip, digit_val d1, digit_val d2 with
      | Some n, Some a, Some b =>
          let c := (Z.of_N (N.of_uint n) * 100 + 10 * a + b)%Z in
          Some (Qmake (if neg then - c else c) 100)
      | _, _, _ => None
      end
  | _ => None
  end.

Lemma split_dot_uint d t :
  split_dot (NilEmpty.string_of_uint d ++ String "."%char t) = Some (NilEmpty.string_of_uint d, t).
Proof. induction d; simpl; rewrite ?IHd; reflexivity. Qed.

Lemma split_sign_uint d t :
  split_sign (NilEmpty.string_of_uint d ++ String "."%char t) =
  (false, (NilEmpty.string_of_uint d ++ String "."%char t)%string).
Proof. by destruct d. Qed.

Lemma digit_val_digit d : (0 <= d <= 9)%Z -> digit_val (Ascii.ascii_of_nat (48 + Z.to_nat d)) = Some d.
Proof.
  intros Hd. assert (d = 0 \/ d = 1 \/ d = 2 \/ d = 3 \/ d = 4 \/ d = 5 \/ d = 6 \/
    d = 7 \/ d = 8 \/ d = 9)%Z as Hcases by lia.
  by repeat destruct Hcases as [->|Hcases]; [..|subst].
Qed.

(** Reading back a rendering built from a sign, an integer part and two
    digits. *)
Lemma read_2f_parts (neg : bool) u a b :
  (0 <= a <= 9)%Z -> (0 <= b <= 9)%Z ->
  read_2f ((if neg then "-" else EmptyString) ++ NilEmpty.string_of_uint u ++ "." ++ digit a ++ digit b) =
  let c := (Z.of_N (N.of_uint u) * 100 + 10 * a + b)%Z in Some (Qmake (if neg then - c else c) 100).
Proof.
  intros Ha Hb.
  assert (Hs : forall s, ((if neg then "-" else EmptyString) ++ s =
                          if neg then String "-" s else s)%string) by (by destruct neg).
  rewrite Hs. change ("." ++ digit a ++ digit b)%string with
    (String "." (String (Ascii.ascii_of_nat (48 + Z.to_nat a))
                  (String (Ascii.ascii_of_nat (48 + Z.to_nat b)) EmptyString))).
  unfold read_2f. destruct neg;
    [cbv beta iota delta [split_sign]; rewrite Ascii.eqb_refl|rewrite split_sign_uint];
    cbv beta iota;
    rewrite split_dot_uint, NilEmpty.usu, !digit_val_digit by done; reflexivity.
Qed.

(** The integer part and the two digits [format_2f] writes for [c >= 0]
    hundredths make [c] again. *)
Lemma cents_digits c :
  (0 <= c)%Z ->
  (Z.of_N (N.of_uint (N.to_uint (Z.to_N (c / 100)))) * 100 + 10 * (c mod 100 / 10) + c mod 10 = c /\
   0 <= c mod 100 / 10 <= 9 /\ 0 <= c mod 10 <= 9)%Z.
Proof.
  intros Hc. rewrite DecimalN.Unsigned.of_to, Z2N.id by (apply Z.div_pos; lia).
  pose proof (Z.div_mod c 100 ltac:(lia)). pose proof (Z.mod_pos_bound c 100 ltac:(lia)).
  set (r := (c mod 100)%Z) in *.
  pose proof (Z.div_mod r 10 ltac:(lia)). pose proof (Z.mod_pos_bound r 10 ltac:(lia)).
  assert (c mod 10 = r mod 10)%Z as ->.
  { symmetry. apply (Z.mod_unique c 10 (10 * (c / 100) + r / 10)); lia. }
  lia.
Qed.

(** ** Theorems *)

(** C38: [{score:.2f}] writes the hundredths of the score rounded to the
    nearest: read back by [read_2f] (sign, decimal digits, dot, two
    digits), the text is [cents x] hundredths with the sign of [x];
    [cents x] is within half a hundredth of [|x|], and a tie goes to the
    even number of hundredths. *)
Theorem format_2f_rounds x :
  read_2f (format_2f x) = Some (Qmake (if (Qnum x <? 0)%Z then - cents x else cents x) 100) /\
  (0 <= cents x)%Z /\
  Qabs (Qmake (cents x) 100 - Qabs x) <= (1 # 200) /\
  (Qabs (Qmake (cents x) 100 - Qabs x) == (1 # 200) -> Z.even (cents x) = true).
Proof.
  assert (Hc : (0 <= cents x)%Z) by (apply round_half_even_nonneg; lia).
  split_and!; [|done|apply cents_close..].
  destruct (cents_digits (cents x) Hc) as (Heq & Ha & Hb).
  unfold format_2f, string_of_N. rewrite read_2f_parts by done. cbv zeta. by rewrite Heq.
Qed.

(** ** Witnesses *)

Lemma format_2f_rounds_witness :
  format_2f (-1 # 8) = "-0.12" /\ read_2f "-0.12" = Some (-12 # 100) /\
  read_2f (format_2f (-1 # 8)) =
    Some (Qmake (if (Qnum (-1 # 8) <? 0)%Z then - cents (-1 # 8) else cents (-1 # 8)) 100) /\
  (0 <= cents (-1 # 8))%Z /\
  Qabs (Qmake (cents (-1 # 8)) 100 - Qabs (-1 # 8)) <= (1 # 200) /\
  (Qabs (Qmake (cents (-1 # 8)) 100 - Qabs (-1 # 8)) == (1 # 200) ->
   Z.even (cents (-1 # 8)) = true).
Proof. split; [reflexivity|split; [reflexivity|exact (format_2f_rounds (-1 # 8))]]. Defined.
