(* ===== verification/JsonDump.v ===== *)
(** * [json.dump(knowledge, f, indent=2, ensure_ascii=False)]

    [convert_to_json.py] (lines 18-19) writes the knowledge base with
    CPython's pure-Python encoder, the one [json.dump] uses whenever an
    [indent] is given ([json/encoder.py], [_make_iterencode]).  The values
    it can meet are the type [pyval]: [None], booleans, [str], lists and
    dicts with [str] keys, which covers the dict of lists of strings the ETL
    builds ([kb_to_py]).  With [ensure_ascii=False] a string is written by
    [encode_basestring]: the characters of [ESCAPE_DCT] (backslash, quote,
    the five named controls, the other controls as [\u00XX]) are escaped,
    every other byte is written as is.  With [indent=2] a non-empty list or
    dict opens a new line indented by two spaces per level, separates its
    items by [","] and a new line, and closes on a line of the enclosing
    level; an empty one is ["[]"] or ["{}"].  Integers and floats are not
    in [pyval]: the ETL writes none. *)

From S2P Require Import Prelude TextFile KnowledgeBase.
From Stdlib Require Import Ascii.

Inductive pyval :=
| PyNone
| PyBool (b : bool)
| PyStr (s : string)
| PyList (l : list pyval)
| PyDict (d : list (string * pyval)).

(** Induction over the nested lists of [pyval]. *)
Section pyval_ind.
Variable P : pyval -> Prop.
Hypothesis HNone : P PyNone.
Hypothesis HBool : forall b, P (PyBool b).
Hypothesis HStr : forall s, P (PyStr s).
Hypothesis HList : forall l, Forall P l -> P (PyList l).
Hypothesis HDict : forall d, Forall (fun e => P e.2) d -> P (PyDict d).

Fixpoint pyval_ind' (v : pyval) : P v :=
  match v with
  | PyNone => HNone
  | PyBool b => HBool b
  | PyStr s => HStr s
  | PyList l =>
      HList l ((fix go l : Forall P l :=
                  match l with
                  | [] => Forall_nil_2 _
                  | x :: l' => Forall_cons_2 _ _ _ (pyval_ind' x) (go l')
                  end) l)
  | PyDict d =>
      HDict d ((fix go (d : list (string * pyval))
                    : Forall (fun e : string * pyval => P e.2) d :=
                  match d with
                  | [] => Forall_nil_2 _
                  | (k, x) :: d' =>
                      Forall_cons_2 (fun e : string * pyval => P e.2) (k, x) d'
                        (pyval_ind' x) (go d')
                  end) d)
  end.
End pyval_ind.

Definition DQ : Ascii.ascii := Ascii.ascii_of_nat 34.
Definition BSL : Ascii.ascii := Ascii.ascii_of_nat 92.

Definition bytes_of (s : string) : bytes := String.list_ascii_of_string s.

(** A lowercase hexadecimal digit, as ['{0:04x}'.format(i)] writes it. *)
Definition hexdig (n : nat) : Ascii.ascii :=
  if n <? 10 then Ascii.ascii_of_nat (48 + n) else Ascii.ascii_of_nat (87 + n).

(** [ESCAPE_DCT], and the identity on the characters [ESCAPE] does not
    match. *)
Definition escape_char (c : Ascii.ascii) : bytes :=
  let n := bval c in
  if n =? 92 then [BSL; BSL]
  else if n =? 34 then [BSL; DQ]
  else if n =? 8 then [BSL; "b"%char]
  else if n =? 12 then [BSL; "f"%char]
  else if n =? 10 then [BSL; "n"%char]
  else if n =? 13 then [BSL; "r"%char]
  else if n =? 9 then [BSL; "t"%char]
  else if n <? 32 then [BSL; "u"%char; "0"%char; "0"%char; hexdig (n / 16); hexdig (n mod 16)]
  else [c].

(** [encode_basestring(s)]: ['"' + ESCAPE.sub(replace, s) + '"']. *)
Definition encode_basestring (s : string) : bytes :=
  DQ :: concat (escape_char <$> bytes_of s) ++ [DQ].

(** ['\n' + _indent * level] with [_indent = '  ']. *)
Definition newline_indent (level : nat) : bytes := LF :: replicate (2 * level) " "%char.
Arguments newline_indent : simpl never.

(** [_iterencode(o, level)], with [_iterencode_list] and
    [_iterencode_dict] inlined; the chunks it yields, concatenated. *)
Fixpoint iterencode (level : nat) (v : pyval) : bytes :=
  match v with
  | PyNone => bytes_of "null"
  | PyBool true => bytes_of "true"
  | PyBool false => bytes_of "false"
  | PyStr s => encode_basestring s
  | PyList [] => bytes_of "[]"
  | PyList (x :: xs) =>
      "["%char :: newline_indent (S level) ++ iterencode (S level) x ++
      concat ((fun y => ","%char :: newline_indent (S level) ++ iterencode (S level) y) <$> xs) ++
      newline_indent level ++ ["]"%char]
  | PyDict [] => bytes_of "{}"
  | PyDict ((k, x) :: kvs) =>
      "{"%char :: newline_indent (S level) ++
      encode_basestring k ++ bytes_of ": " ++ iterencode (S level) x ++
      concat ((fun e : string * pyval =>
                 ","%char :: newline_indent (S level) ++
                 encode_basestring e.1 ++ bytes_of ": " ++ iterencode (S level) e.2) <$> kvs) ++
      newline_indent level ++ ["}"%char]
  end.

(** [json.dump(obj, f, indent=2, ensure_ascii=False)]: the bytes the file
    holds afterwards. *)
Definition json_dump (v : pyval) : result bytes := write_text (iterencode 0 v).

(** The ETL's dict [knowledge] as a Python value. *)
Definition kb_to_py (kb : knowledge_base) : pyval :=
  PyDict ((fun e : string * list string => (e.1, PyList (PyStr <$> e.2))) <$> kb).
