(* ===== verification/JsonLoad.v ===== *)
(** * [json.load(f)]: CPython's JSON decoder

    [rag_utils.py] (lines 10-11) reads the knowledge base with
    [json.load(f)], that is [json.loads(f.read())].  [loads] refuses a
    leading byte-order mark, then [JSONDecoder.decode] skips whitespace,
    scans one value with the C scanner of [_json] ([scan_once_unicode],
    [_parse_object_unicode], [_parse_array_unicode],
    [scanstring_unicode], [_match_number_unicode]), skips whitespace
    again and raises ["Extra data"] if anything is left.  Every error is a
    [JSONDecodeError(msg, doc, pos)] with the message and the position the
    C code gives (a position here counts bytes of the UTF-8 text, where
    Python counts characters; they agree on an ASCII prefix).

    The scanner works on the suffix of the document still to be read; the
    length [doc_len] of the whole document, a section variable, turns a
    suffix into the position Python reports ([pos]).  The mutual recursion
    of the scanner over nested arrays and objects is bounded by [fuel];
    [json_loads] gives it [2 * length + 1]; the theorems at the end of
    the file show that it is always enough, so the fuel never runs out
    ([json_scan_total]), and give the errors on a blank document and on a
    byte-order mark.

    Values are the type [json]: a number is kept as [JInt] of its value
    when the lexeme has no fraction and no exponent ([int(integer)]), and
    as [JFloat] of its lexeme otherwise ([float(...)], as [NaN],
    [Infinity] and [-Infinity] are; the binary float is not computed).  An
    object is a dict built key by key with [dict_set], so a repeated key
    keeps its first position and its last value, as [PyDict_SetItem]
    does. *)

From S2P Require Import Prelude TextFile JsonDump.
From Stdlib Require Import Ascii.

Inductive json :=
| JNull
| JBool (b : bool)
| JInt (z : Z)
| JFloat (lexeme : string)
| JStr (s : string)
| JArr (l : list json)
| JObj (d : list (string * json)).

(** [IS_WHITESPACE]: space, tab, line feed, carriage return. *)
Definition is_ws (c : ascii) : bool :=
  let n := bval c in (n =? 32) || (n =? 9) || (n =? 10) || (n =? 13).

(** [WHITESPACE.match(s, end).end()] *)
Fixpoint skip_ws (s : bytes) : bytes :=
  match s with
  | c :: r => if is_ws c then skip_ws r else s
  | [] => []
  end.

(** The value of a hexadecimal digit of a [\uXXXX] escape. *)
Definition hex_val (c : ascii) : option Z :=
  let n := bval c in
  if (48 <=? n) && (n <=? 57) then Some (Z.of_nat n - 48)%Z
  else if (97 <=? n) && (n <=? 102) then Some (Z.of_nat n - 87)%Z
  else if (65 <=? n) && (n <=? 70) then Some (Z.of_nat n - 55)%Z
  else None.

(** [c <<= 4; c |= digit] over four digits. *)
Definition hex4 (a b c d : ascii) : option Z :=
  x1 ← hex_val a; x2 ← hex_val b; x3 ← hex_val c; x4 ← hex_val d;
  Some (Z.lor (Z.shiftl (Z.lor (Z.shiftl (Z.lor (Z.shiftl x1 4) x2) 4) x3) 4) x4).

Definition is_high_surrogate (u : Z) : bool := (55296 <=? u)%Z && (u <=? 56319)%Z.
Definition is_low_surrogate (u : Z) : bool := (56320 <=? u)%Z && (u <=? 57343)%Z.

(** [Py_UNICODE_JOIN_SURROGATES] *)
Definition join_surrogates (hi lo : Z) : Z :=
  (65536 + Z.lor (Z.shiftl (Z.land hi 1023) 10) (Z.land lo 1023))%Z.

(** The one-character escapes: a backslash followed by a quote, a
    backslash, a slash, or one of [b], [f], [n], [r], [t]. *)
Definition simple_escape (e : ascii) : option ascii :=
  let n := bval e in
  if (n =? 34) || (n =? 92) || (n =? 47) then Some e
  else if n =? 98 then Some (ascii_of_nat 8)
  else if n =? 102 then Some (ascii_of_nat 12)
  else if n =? 110 then Some LF
  else if n =? 114 then Some CR
  else if n =? 116 then Some (ascii_of_nat 9)
  else None.

Definition is_digit (c : ascii) : bool := (48 <=? bval c) && (bval c <=? 57).

(** The longest prefix of digits, and what follows it. *)
Fixpoint span_digits (s : bytes) : bytes * bytes :=
  match s with
  | c :: r => if is_digit c then let '(ds, r') := span_digits r in (c :: ds, r') else ([], s)
  | [] => ([], [])
  end.

(** [int()] of a string of decimal digits. *)
Definition digits_value (ds : bytes) : Z :=
  fold_left (fun acc d => 10 * acc + (Z.of_nat (bval d) - 48))%Z ds 0%Z.

Definition prepend {A} (p : bytes) (r : result (bytes * A)) : result (bytes * A) :=
  '(t, rest) ← r; mret (p ++ t, rest).

(** Bind for a computation that may run out of fuel ([None]). *)
Definition fbind {A B} (m : option (result A)) (k : A -> option (result B))
  : option (result B) :=
  match m with
  | None => None
  | Some (Err e) => Some (Err e)
  | Some (Ok a) => k a
  end.

Notation "x ←? m ; k" := (fbind m (fun x => k))
  (at level 20, m at level 100, k at level 200, right associativity) : legalbot_scope.

Section Scanner.
Variable doc_len : nat.

(** The index in the document of the suffix [rest]. *)
Definition pos (rest : bytes) : nat := doc_len - length rest.

Definition decode_error {A} (msg : string) (rest : bytes) : result A :=
  raise (JSONDecodeError msg (pos rest)).

(** [scanstring_unicode(pystr, end, strict=1)]: [begin] is the index of the
    opening quote, [s] the text after it.  The decoded bytes and the text
    after the closing quote. *)
Fixpoint scan_str (begin : nat) (s : bytes) : result (bytes * bytes) :=
  match s with
  | [] => raise (JSONDecodeError "Unterminated string starting at" begin)
  | c :: s1 =>
      if decide (c = DQ) then mret ([], s1)
      else if decide (c = BSL) then
        match s1 with
        | [] => raise (JSONDecodeError "Unterminated string starting at" begin)
        | e :: s2 =>
            if decide (e = "u"%char) then
              match s2 with
              | h1 :: h2 :: h3 :: h4 :: s3 =>
                  match s3, hex4 h1 h2 h3 h4 with
                  | _ :: _, Some u =>
                      if is_high_surrogate u && (6 <? length s3) then
                        match s3 with
                        | b1 :: b2 :: g1 :: g2 :: g3 :: g4 :: s4 =>
                            if decide (b1 = BSL /\ b2 = "u"%char) then
                              match hex4 g1 g2 g3 g4 with
                              | None => decode_error "Invalid \uXXXX escape" (b2 :: g1 :: g2 :: g3 :: g4 :: s4)
                              | Some u2 =>
                                  if is_low_surrogate u2
                                  then prepend (utf8_encode (join_surrogates u u2)) (scan_str begin s4)
                                  else prepend (utf8_encode u) (scan_str begin s3)
                              end
                            else prepend (utf8_encode u) (scan_str begin s3)
                        | _ => prepend (utf8_encode u) (scan_str begin s3)
                        end
                      else prepend (utf8_encode u) (scan_str begin s3)
                  | _, _ => decode_error "Invalid \uXXXX escape" s1
                  end
              | _ => decode_error "Invalid \uXXXX escape" s1
              end
            else
              match simple_escape e with
              | Some ch => prepend [ch] (scan_str begin s2)
              | None => decode_error "Invalid \escape" s
              end
        end
      else if bval c <=? 31 then decode_error "Invalid control character at" s
      else prepend [c] (scan_str begin s1)
  end.

(** [_match_number_unicode], the longest match of [NUMBER_RE]: an optional
    minus, [0] or a non-zero digit and more digits, then optionally a dot
    and at least one digit, then optionally [e] or [E], a sign and at least
    one digit (backtracking before the [e] when no digit follows); or
    [StopIteration] ([None]) when no integer part follows the sign. *)
Definition match_sign (s : bytes) : bytes * bytes :=
  match s with
  | c :: r => if decide (c = "-"%char) then ([c], r) else ([], s)
  | [] => ([], [])
  end.

Definition match_int (s : bytes) : option (bytes * bytes) :=
  match s with
  | c :: r =>
      if decide (c = "0"%char) then Some ([c], r)
      else if is_digit c then let '(ds, r') := span_digits r in Some (c :: ds, r')
      else None
  | [] => None
  end.

Definition match_frac (s : bytes) : bytes * bytes :=
  match s with
  | dot :: d :: r =>
      if bool_decide (dot = "."%char) && is_digit d then
        let '(ds, r') := span_digits r in (dot :: d :: ds, r')
      else ([], s)
  | _ => ([], s)
  end.

Definition match_exp (s : bytes) : bytes * bytes :=
  match s with
  | e :: r =>
      if decide (e = "e"%char \/ e = "E"%char) then
        let '(sg, r') :=
          match r with
          | c :: r'' => if decide (c = "+"%char \/ c = "-"%char) then ([c], r'') else ([], r)
          | [] => ([], [])
          end in
        match span_digits r' with
        | ([], _) => ([], s)
        | (ds, r'') => (e :: sg ++ ds, r'')
        end
      else ([], s)
  | [] => ([], [])
  end.

Definition match_number (s : bytes) : option (json * bytes) :=
  let '(sign, s1) := match_sign s in
  '(int, r1) ← match_int s1;
  let '(frac, r2) := match_frac r1 in
  let '(exp, r3) := match_exp r2 in
  match frac, exp with
  | [], [] =>
      let v := digits_value int in
      Some (JInt (if decide (sign = []) then v else (- v)%Z), r3)
  | _, _ => Some (JFloat (String.string_of_list_ascii (sign ++ int ++ frac ++ exp)), r3)
  end.

(** The literal [word] at the front of [s], and what follows it. *)
Definition strip_word (word : string) (s : bytes) : option bytes :=
  let w := bytes_of word in
  if decide (take (length w) s = w) then Some (drop (length w) s) else None.

(** The cases of [scan_once_unicode] that do not recurse: the named
    constants, then a number, else [StopIteration], which every caller
    reports as ["Expecting value"] at the index it was raised. *)
Definition scan_atom (s : bytes) : result (json * bytes) :=
  match strip_word "null" s, strip_word "true" s, strip_word "false" s,
        strip_word "NaN" s, strip_word "Infinity" s, strip_word "-Infinity" s with
  | Some r, _, _, _, _, _ => mret (JNull, r)
  | _, Some r, _, _, _, _ => mret (JBool true, r)
  | _, _, Some r, _, _, _ => mret (JBool false, r)
  | _, _, _, Some r, _, _ => mret (JFloat "NaN", r)
  | _, _, _, _, Some r, _ => mret (JFloat "Infinity", r)
  | _, _, _, _, _, Some r => mret (JFloat "-Infinity", r)
  | None, None, None, None, None, None =>
      match match_number s with
      | Some (v, r) => mret (v, r)
      | None => decode_error "Expecting value" s
      end
  end.

(** [scan_once_unicode], [_parse_array_unicode] (the loop after the first
    element's index) and [_parse_object_unicode] (the loop from the index
    of a key's opening quote). *)
Fixpoint scan_once (fuel : nat) (s : bytes) : option (result (json * bytes)) :=
  match fuel with
  | O => None
  | S fuel =>
      match s with
      | [] => Some (decode_error "Expecting value" s)
      | c :: s1 =>
          if decide (c = DQ) then
            Some ('(t, r) ← scan_str (pos s) s1; mret (JStr (String.string_of_list_ascii t), r))
          else if decide (c = "{"%char) then
            match skip_ws s1 with
            | c' :: r => if decide (c' = "}"%char) then Some (mret (JObj [], r))
                         else parse_object fuel [] (c' :: r)
            | [] => parse_object fuel [] []
            end
          else if decide (c = "["%char) then
            match skip_ws s1 with
            | c' :: r => if decide (c' = "]"%char) then Some (mret (JArr [], r))
                         else parse_array fuel [] (c' :: r)
            | [] => parse_array fuel [] []
            end
          else Some (scan_atom s)
      end
  end
with parse_array (fuel : nat) (acc : list json) (s : bytes)
  : option (result (json * bytes)) :=
  match fuel with
  | O => None
  | S fuel =>
      vr ←? scan_once fuel s;
      let '(v, r) := vr in
      match skip_ws r with
      | c :: r' =>
          if decide (c = "]"%char) then Some (mret (JArr (rev (v :: acc)), r'))
          else if decide (c = ","%char) then parse_array fuel (v :: acc) (skip_ws r')
          else Some (decode_error "Expecting ',' delimiter" (c :: r'))
      | [] => Some (decode_error "Expecting ',' delimiter" [])
      end
  end
with parse_object (fuel : nat) (d : list (string * json)) (s : bytes)
  : option (result (json * bytes)) :=
  match fuel with
  | O => None
  | S fuel =>
      match s with
      | c :: s1 =>
          if decide (c = DQ) then
            match scan_str (pos s) s1 with
            | Err e => Some (Err e)
            | Ok (k, r) =>
                match skip_ws r with
                | c2 :: r2 =>
                    if decide (c2 = ":"%char) then
                      vr ←? scan_once fuel (skip_ws r2);
                      let '(v, r3) := vr in
                      let d' := dict_set (String.string_of_list_ascii k) v d in
                      match skip_ws r3 with
                      | c3 :: r4 =>
                          if decide (c3 = "}"%char) then Some (mret (JObj d', r4))
                          else if decide (c3 = ","%char) then parse_object fuel d' (skip_ws r4)
                          else Some (decode_error "Expecting ',' delimiter" (c3 :: r4))
                      | [] => Some (decode_error "Expecting ',' delimiter" [])
                      end
                    else Some (decode_error "Expecting ':' delimiter" (c2 :: r2))
                | [] => Some (decode_error "Expecting ':' delimiter" [])
                end
            end
          else Some (decode_error "Expecting property name enclosed in double quotes" s)
      | [] => Some (decode_error "Expecting property name enclosed in double quotes" s)
      end
  end.
End Scanner.

Definition BOM : bytes := [ascii_of_nat 239; ascii_of_nat 187; ascii_of_nat 191].

Definition decode_fuel (s : bytes) : nat := S (2 * length s).

(** [json.loads(s)]: the BOM check of [loads], then [JSONDecoder.decode].
    The last branch is never taken ([decode_fuel] suffices). *)
Definition json_loads (s : bytes) : result json :=
  if decide (take 3 s = BOM) then
    raise (JSONDecodeError "Unexpected UTF-8 BOM (decode using utf-8-sig)" 0)
  else
    let n := length s in
    match scan_once n (decode_fuel s) (skip_ws s) with
    | Some r =>
        '(v, rest) ← r;
        match skip_ws rest with
        | [] => mret v
        | rest' => decode_error n "Extra data" rest'
        end
    | None => raise (ValueError "decoder fuel exhausted")
    end.

(** [json.load(f)] on a file opened with [encoding="utf-8"]. *)
Definition json_load (raw : bytes) : result json :=
  s ← read_text raw; json_loads s.

(** The Python value a [pyval] becomes when loaded back. *)
Fixpoint to_json (v : pyval) : json :=
  match v with
  | PyNone => JNull
  | PyBool b => JBool b
  | PyStr s => JStr s
  | PyList l => JArr (to_json <$> l)
  | PyDict d => JObj ((fun e : string * pyval => (e.1, to_json e.2)) <$> d)
  end.

(** The knowledge base when the loaded value is a dict of lists of
    strings, the shape [convert_to_json.py] writes; [None] otherwise. *)
Definition json_to_kb (v : json) : option (list (string * list string)) :=
  match v with
  | JObj d =>
      mapM (fun e : string * json =>
              match e.2 with
              | JArr l =>
                  ts ← mapM (fun x => match x with JStr t => Some t | _ => None end) l;
                  Some (e.1, ts)
              | _ => None
              end) d
  | _ => None
  end.

(** ** The scanner consumes input *)

Lemma skip_ws_length s : length (skip_ws s) <= length s.
Proof. induction s as [|c s IH]; simpl; [done|]. case_match; simpl; lia. Qed.

Lemma skip_ws_app_ws ws s :
  Forall (fun c => is_ws c = true) ws -> skip_ws (ws ++ s) = skip_ws s.
Proof. induction 1 as [|c ws Hc _ IH]; simpl; [done|]. by rewrite Hc. Qed.

Lemma skip_ws_nonws c s : is_ws c = false -> skip_ws (c :: s) = c :: s.
Proof. simpl. by intros ->. Qed.

Lemma prepend_Ok {A} p (r : result (bytes * A)) t rest :
  prepend p r = Ok (t, rest) -> exists t', r = Ok (t', rest) /\ t = p ++ t'.
Proof. unfold prepend. destruct r as [[t' rest']|]; simpl; [|done]. intros [= <- <-]. eauto. Qed.

(** One step of a proof by induction over the scanner's branches: an
    error branch is absurd, a branch that recurses on a suffix uses the
    induction hypothesis [IH], a test is split. *)
Ltac scan_branch IH :=
  match goal with
  | H : prepend _ _ = Ok _ |- _ =>
      apply prepend_Ok in H as (? & H & ?); apply IH in H; simpl in *; lia
  | H : decode_error _ _ _ = Ok _ |- _ => discriminate H
  | H : Err _ = Ok _ |- _ => discriminate H
  | H : mret _ = Ok _ |- _ => unfold mret, result_ret in H; simplify_eq/=; lia
  | H : context [if decide ?P then _ else _] |- _ => destruct (decide P)
  | H : context [if ?b then _ else _] |- _ => destruct b
  | H : context [match ?l with _ => _ end] |- _ => destruct l
  end.

Lemma scan_str_length_strong n doc_len begin s t r :
  length s <= n -> scan_str doc_len begin s = Ok (t, r) -> length r < length s.
Proof.
  revert s t; induction n as [|n IH]; intros s t Hlen Hs; [destruct s; simpl in *; [done|lia]|].
  assert (IH' : forall s' t', length s' < length s ->
            scan_str doc_len begin s' = Ok (t', r) -> length r < length s').
  { intros s' t' ?. apply IH. lia. }
  clear IH. destruct s as [|c s1]; simpl in Hs; [done|].
  repeat scan_branch IH'.
Qed.

Lemma scan_str_length doc_len begin s t r :
  scan_str doc_len begin s = Ok (t, r) -> length r < length s.
Proof. apply scan_str_length_strong with (n := length s). done. Qed.

Lemma span_digits_app s ds r : span_digits s = (ds, r) -> s = ds ++ r.
Proof.
  revert ds r; induction s as [|c s IH]; intros ds r Hs; simpl in Hs; [by simplify_eq|].
  destruct (is_digit c); [|by simplify_eq].
  destruct (span_digits s) as [ds' r'] eqn:E. simplify_eq/=. by rewrite (IH ds' r).
Qed.

Ltac split_app :=
  repeat match goal with
  | H : span_digits _ = (_, _) |- _ => apply span_digits_app in H; subst
  | H : context [match ?l with _ => _ end] |- _ => destruct l eqn:?
  | H : context [if ?b then _ else _] |- _ => destruct b eqn:?
  end; simplify_eq/=; eauto.

Lemma match_sign_app s p r : match_sign s = (p, r) -> s = p ++ r.
Proof. unfold match_sign. intros H. split_app. Qed.

Lemma match_int_app s p r : match_int s = Some (p, r) -> s = p ++ r /\ p <> [].
Proof. unfold match_int. intros H. split_app. Qed.

Lemma match_frac_app s p r : match_frac s = (p, r) -> s = p ++ r.
Proof. unfold match_frac. intros H. split_app. Qed.

Lemma match_exp_app s p r : match_exp s = (p, r) -> s = p ++ r.
Proof.
  unfold match_exp. intros H. split_app.
  all: try (rewrite <- app_assoc; simpl; done).
Qed.

Lemma match_number_length s v r :
  match_number s = Some (v, r) -> length r < length s.
Proof.
  unfold match_number.
  destruct (match_sign s) as [sg s1] eqn:E1. apply match_sign_app in E1 as ->.
  destruct (match_int s1) as [[int r1]|] eqn:E2; simpl; [|done].
  apply match_int_app in E2 as [-> Hne].
  destruct (match_frac r1) as [fr r2] eqn:E3. apply match_frac_app in E3 as ->.
  destruct (match_exp r2) as [ex r3] eqn:E4. apply match_exp_app in E4 as ->.
  destruct int; [done|].
  intros H; repeat case_match; simplify_eq; rewrite !length_app; simpl; lia.
Qed.

Lemma strip_word_length w s r :
  w <> EmptyString -> strip_word w s = Some r -> length r < length s.
Proof.
  unfold strip_word. case_decide as Ht; [|done]. intros Hw [= <-].
  rewrite length_drop. assert (0 < length (bytes_of w)) by (destruct w; simpl; [done|lia]).
  assert (length (bytes_of w) <= length s); [|lia].
  rewrite <- Ht, length_take. lia.
Qed.

Lemma scan_atom_length doc_len s v r :
  scan_atom doc_len s = Ok (v, r) -> length r < length s.
Proof.
  unfold scan_atom.
  repeat match goal with
  | |- context [strip_word ?w s] => destruct (strip_word w s) eqn:?
  end; unfold mret, result_ret; intros H; simplify_eq;
  try (eapply strip_word_length; [|eassumption]; done).
  destruct (match_number s) as [[v' r']|] eqn:E; [|done].
  simplify_eq. by apply match_number_length in E.
Qed.

Lemma fbind_Ok {A B} (m : option (result A)) (k : A -> option (result B)) b :
  fbind m k = Some (Ok b) -> exists a, m = Some (Ok a) /\ k a = Some (Ok b).
Proof. destruct m as [[a|e]|]; simpl; [eauto|done|done]. Qed.

Section Progress.
Variable doc_len : nat.

(** Every value the scanner returns is followed by a strict suffix of its
    input. *)
Lemma scan_progress fuel :
  (forall s v r, scan_once doc_len fuel s = Some (Ok (v, r)) -> length r < length s) /\
  (forall acc s v r, parse_array doc_len fuel acc s = Some (Ok (v, r)) -> length r < length s) /\
  (forall d s v r, parse_object doc_len fuel d s = Some (Ok (v, r)) -> length r < length s).
Proof.
  induction fuel as [|fuel (IHs & IHa & IHo)]; [done|]. split_and!.
  - intros [|c s1] v r H; simpl in H; [done|].
    pose proof (skip_ws_length s1).
    repeat case_decide; repeat case_match; simplify_eq/=;
      try (apply IHo in H || apply IHa in H; simpl in *; lia).
    + destruct (scan_str _ _ _) as [[t r']|] eqn:E; simpl in H;
        unfold mret, result_ret in H; simplify_eq.
      apply scan_str_length in E. lia.
    + unfold mret, result_ret in H; simplify_eq. simpl in *. lia.
    + unfold mret, result_ret in H; simplify_eq. simpl in *. lia.
    + apply scan_atom_length in H. simpl in *. lia.
  - intros acc s v r H. simpl in H.
    apply fbind_Ok in H as ([v1 r1] & H1 & H). apply IHs in H1.
    pose proof (skip_ws_length r1).
    destruct (skip_ws r1) as [|c r'] eqn:E; [done|].
    pose proof (skip_ws_length r').
    repeat case_decide; simplify_eq/=;
      [unfold mret, result_ret in H; simplify_eq; simpl in *; lia|
       apply IHa in H; lia].
  - intros d [|c s1] v r H; simpl in H; [done|].
    case_decide; [|done].
    destruct (scan_str _ _ _) as [[k r1]|] eqn:E; [|done]. apply scan_str_length in E.
    pose proof (skip_ws_length r1).
    destruct (skip_ws r1) as [|c2 r2] eqn:E2; [done|]. simpl in *.
    case_decide; [|done].
    apply fbind_Ok in H as ([v1 r3] & Hv & H). apply IHs in Hv.
    pose proof (skip_ws_length r2). pose proof (skip_ws_length r3).
    destruct (skip_ws r3) as [|c3 r4] eqn:E3; [done|]. simpl in *.
    pose proof (skip_ws_length r4).
    repeat case_decide; simplify_eq/=;
      [unfold mret, result_ret in H; simplify_eq; lia|apply IHo in H; lia].
Qed.
(** Fuel [2 * length s + 1] suffices: the scanner never runs out. *)
Lemma scan_total fuel :
  (forall s, 2 * length s < fuel -> scan_once doc_len fuel s <> None) /\
  (forall acc s, 2 * length s + 1 < fuel -> parse_array doc_len fuel acc s <> None) /\
  (forall d s, 2 * length s + 1 < fuel -> parse_object doc_len fuel d s <> None).
Proof.
  induction fuel as [|fuel (IHs & IHa & IHo)]; [split_and!; intros; lia|].
  destruct (scan_progress fuel) as (Ps & Pa & Po). split_and!.
  - intros [|c s1] Hf; simpl; [done|]. pose proof (skip_ws_length s1). simpl in Hf.
    repeat case_decide; repeat case_match; try done;
      [apply IHo|apply IHo|apply IHa|apply IHa]; simpl in *; lia.
  - intros acc s Hf. simpl.
    destruct (scan_once doc_len fuel s) as [[[v r]|e]|] eqn:E; simpl; [|done|by apply IHs in E; lia].
    apply Ps in E. pose proof (skip_ws_length r).
    destruct (skip_ws r) as [|c r'] eqn:Er; [done|]. pose proof (skip_ws_length r').
    repeat case_decide; try done. apply IHa. simpl in *. lia.
  - intros d [|c s1] Hf; simpl; [done|]. case_decide; [|done].
    destruct (scan_str _ _ _) as [[k r1]|] eqn:E; [|done]. apply scan_str_length in E.
    pose proof (skip_ws_length r1).
    destruct (skip_ws r1) as [|c2 r2] eqn:E2; [done|]. simpl in *. case_decide; [|done].
    pose proof (skip_ws_length r2).
    destruct (scan_once doc_len fuel (skip_ws r2)) as [[[v r3]|e]|] eqn:Ev; simpl;
      [|done|by apply IHs in Ev; lia].
    apply Ps in Ev. pose proof (skip_ws_length r3).
    destruct (skip_ws r3) as [|c3 r4] eqn:E3; [done|]. pose proof (skip_ws_length r4).
    repeat case_decide; try done. apply IHo. simpl in *. lia.
Qed.

(** More fuel does not change a result. *)
Lemma scan_mono fuel :
  (forall fuel' s x, fuel <= fuel' ->
     scan_once doc_len fuel s = Some x -> scan_once doc_len fuel' s = Some x) /\
  (forall fuel' acc s x, fuel <= fuel' ->
     parse_array doc_len fuel acc s = Some x -> parse_array doc_len fuel' acc s = Some x) /\
  (forall fuel' d s x, fuel <= fuel' ->
     parse_object doc_len fuel d s = Some x -> parse_object doc_len fuel' d s = Some x).
Proof.
  induction fuel as [|fuel (IHs & IHa & IHo)]; [done|].
  split_and!.
  - intros [|fuel'] s x Hle H; [lia|]. simpl in *.
    repeat case_decide; repeat case_match; try done; [apply IHo|apply IHo|apply IHa|apply IHa]; done || lia.
  - intros [|fuel'] acc s x Hle H; [lia|]. simpl in *.
    destruct (scan_once doc_len fuel s) as [y|] eqn:E; [|done].
    rewrite (IHs fuel' s y) by (done || lia). simpl in *.
    destruct y as [[v r]|e]; [|done].
    repeat case_match; repeat case_decide; try done. apply IHa; [lia|done].
  - intros [|fuel'] d s x Hle H; [lia|]. simpl in *.
    repeat case_decide; repeat case_match; try done.
    all: destruct (scan_once doc_len fuel _) as [y|] eqn:E; [|done].
    all: rewrite (IHs fuel' _ y) by (done || lia); simpl in *.
    all: destruct y as [[v r]|err]; [|done].
    all: repeat case_match; repeat case_decide; try done; apply IHo; [lia|done].
Qed.
End Progress.

(** ** Fuel *)

Lemma scan_once_lift n f f' s x :
  f <= f' -> scan_once n f s = Some x -> scan_once n f' s = Some x.
Proof. intros. by apply (proj1 (scan_mono n f)). Qed.

Lemma parse_array_lift n f f' acc s x :
  f <= f' -> parse_array n f acc s = Some x -> parse_array n f' acc s = Some x.
Proof. intros. by apply (proj1 (proj2 (scan_mono n f))). Qed.

Lemma parse_object_lift n f f' d s x :
  f <= f' -> parse_object n f d s = Some x -> parse_object n f' d s = Some x.
Proof. intros. by apply (proj2 (proj2 (scan_mono n f))). Qed.

Lemma scan_once_agree n f1 f2 s x y :
  scan_once n f1 s = Some x -> scan_once n f2 s = Some y -> x = y.
Proof.
  intros H1 H2.
  pose proof (scan_once_lift n f1 (f1 `max` f2) s x ltac:(lia) H1) as E1.
  pose proof (scan_once_lift n f2 (f1 `max` f2) s y ltac:(lia) H2) as E2.
  congruence.
Qed.

Lemma scan_once_decode_fuel n s : exists r, scan_once n (decode_fuel s) s = Some r.
Proof.
  destruct (scan_once n (decode_fuel s) s) as [r|] eqn:E; [eauto|].
  exfalso. refine (proj1 (scan_total n _) s _ E). unfold decode_fuel. lia.
Qed.

(** ** Theorems *)

(** C25: the decoder terminates: from [2 * length s + 1] units of fuel on,
    the scanner returns a result on every input, the same for every such
    fuel, so [json_loads] never takes its out-of-fuel branch. *)
Theorem json_scan_total n s fuel :
  2 * length s < fuel ->
  exists r, scan_once n fuel s = Some r /\ scan_once n (decode_fuel s) s = Some r.
Proof.
  intros Hf. destruct (scan_once_decode_fuel n s) as [r Hr]. exists r. split; [|done].
  destruct (scan_once n fuel s) as [r'|] eqn:E.
  - by rewrite (scan_once_agree _ _ _ _ _ _ E Hr).
  - exfalso. exact (proj1 (scan_total n fuel) s Hf E).
Qed.

(** C33: a document that is empty or only whitespace (an empty knowledge
    file) raises [JSONDecodeError("Expecting value")] at its end. *)
Theorem json_loads_blank s :
  Forall (fun c => is_ws c = true) s ->
  json_loads s = Err (JSONDecodeError "Expecting value" (length s)).
Proof.
  intros Hws. unfold json_loads.
  rewrite decide_False.
  - rewrite <- (app_nil_r s), skip_ws_app_ws, app_nil_r by done.
    destruct (decode_fuel s) eqn:E; [unfold decode_fuel in E; lia|].
    simpl. unfold decode_error, pos. by rewrite Nat.sub_0_r.
  - intros Hb. destruct s as [|c s]; [done|]. apply Forall_cons in Hws as [Hc _].
    apply (f_equal head) in Hb. simpl in Hb. injection Hb as ->. done.
Qed.

(** C35: a knowledge file saved with a UTF-8 byte-order mark (as some
    editors write it) is refused: [json.load] raises [JSONDecodeError] at
    index 0, since [open(..., encoding="utf-8")] keeps the mark. *)
Theorem json_load_bom raw :
  utf8_valid raw = true ->
  json_load (BOM ++ raw) =
  Err (JSONDecodeError "Unexpected UTF-8 BOM (decode using utf-8-sig)" 0).
Proof.
  intros Hv. unfold json_load, read_text. simpl. rewrite Hv. simpl.
  unfold json_loads. by rewrite decide_True.
Qed.

(** ** Witnesses *)

Lemma json_scan_total_witness :
  2 * length (bytes_of "[1, {}]") < 20 /\
  exists r, scan_once 7 20 (bytes_of "[1, {}]") = Some r /\
            scan_once 7 (decode_fuel (bytes_of "[1, {}]")) (bytes_of "[1, {}]") = Some r.
Proof.
  assert (Hf : 2 * length (bytes_of "[1, {}]") < 20) by (simpl; lia).
  split; [exact Hf|exact (json_scan_total 7 _ 20 Hf)].
Defined.

Lemma json_loads_blank_witness :
  Forall (fun c => is_ws c = true) [" "%char; LF; " "%char] /\
  json_loads [" "%char; LF; " "%char] = Err (JSONDecodeError "Expecting value" 3).
Proof.
  assert (Hws : Forall (fun c => is_ws c = true) [" "%char; LF; " "%char])
    by repeat constructor.
  split; [exact Hws|exact (json_loads_blank _ Hws)].
Defined.

Lemma json_load_bom_witness :
  utf8_valid (bytes_of "{}") = true /\
  json_load (BOM ++ bytes_of "{}") =
  Err (JSONDecodeError "Unexpected UTF-8 BOM (decode using utf-8-sig)" 0).
Proof.
  assert (Hv : utf8_valid (bytes_of "{}") = true) by reflexivity.
  split; [exact Hv|exact (json_load_bom _ Hv)].
Defined.
