(* ===== verification/JsonRoundtrip.v ===== *)
(** * [json.load] reads back what [json.dump] wrote

    The two scripts communicate through [legal_knowledge.json]: the ETL
    writes it with [json.dump(..., indent=2, ensure_ascii=False)]
    ([JsonDump]), [rag_utils.py] reads it with [json.load] ([JsonLoad]).
    This file shows that the round trip is the identity: the decoder
    unescapes every escape the encoder writes ([scan_str_encoded]), skips
    the indentation, and rebuilds every list and every dict in order (a
    dict with distinct keys, as every Python dict has, is rebuilt with
    [dict_set] into the same association list).  It also shows that the
    encoder writes valid UTF-8 with no carriage return, so the text file
    layer changes nothing, and that anything but whitespace after an
    encoded value raises ["Extra data"]. *)

From S2P Require Import Prelude TextFile KnowledgeBase JsonDump JsonLoad.
From Stdlib Require Import Ascii.

(** Every dict of a value has distinct keys, as Python dicts do. *)
Fixpoint pyval_wf (v : pyval) : bool :=
  match v with
  | PyList l => forallb pyval_wf l
  | PyDict d => bool_decide (NoDup (fst <$> d)) && forallb (fun e => pyval_wf e.2) d
  | _ => true
  end.

(** ** Strings *)

Lemma scan_str_escape_char doc_len b c t0 t :
  scan_str doc_len b (escape_char c ++ t0 :: t) = prepend [c] (scan_str doc_len b (t0 :: t)).
Proof. destruct c as [[] [] [] [] [] [] [] []]; reflexivity. Qed.

Lemma scan_str_encoded doc_len b cs t :
  scan_str doc_len b (concat (escape_char <$> cs) ++ DQ :: t) = Ok (cs, t).
Proof.
  induction cs as [|c cs IH]; [done|]. rewrite fmap_cons, concat_cons, <- app_assoc.
  destruct (concat (escape_char <$> cs) ++ DQ :: t) as [|t0 t'] eqn:E;
    [by destruct (concat _)|].
  rewrite scan_str_escape_char, IH. done.
Qed.

Lemma scan_str_basestring doc_len b s t :
  scan_str doc_len b (tail (encode_basestring s) ++ t) = Ok (bytes_of s, t).
Proof.
  unfold encode_basestring. simpl. rewrite <- app_assoc. apply scan_str_encoded.
Qed.

(** ** Layout *)

Lemma newline_indent_ws k : Forall (fun c => is_ws c = true) (newline_indent k).
Proof.
  constructor; [done|]. apply Forall_replicate. done.
Qed.

Lemma skip_ws_newline_indent k s : skip_ws (newline_indent k ++ s) = skip_ws s.
Proof. apply skip_ws_app_ws, newline_indent_ws. Qed.

Lemma iterencode_head lvl v :
  exists c r, iterencode lvl v = c :: r /\ is_ws c = false /\
    c <> "]"%char /\ c <> "}"%char.
Proof.
  destruct v as [| [] | s | [|x xs] | [|[k x] kvs]]; simpl; eauto 10.
Qed.

Lemma skip_ws_iterencode lvl v s : skip_ws (iterencode lvl v ++ s) = iterencode lvl v ++ s.
Proof.
  destruct (iterencode_head lvl v) as (c & r & -> & Hc & _). simpl. by rewrite Hc.
Qed.

#[export] Hint Rewrite skip_ws_newline_indent skip_ws_iterencode : legalbot.

Lemma bytes_no_cr (bs : bytes) :
  bool_decide (CR ∈ bs) = false -> Forall (fun b => b <> CR) bs.
Proof.
  intros H. apply bool_decide_eq_false in H. apply Forall_forall. by intros b Hb ->.
Qed.

Lemma escape_char_no_cr c : Forall (fun b => b <> CR) (escape_char c).
Proof. apply bytes_no_cr. destruct c as [[] [] [] [] [] [] [] []]; reflexivity. Qed.

Lemma basestring_no_cr s : Forall (fun b => b <> CR) (encode_basestring s).
Proof.
  unfold encode_basestring. constructor; [done|]. apply Forall_app. split; [|by repeat constructor].
  apply Forall_concat, Forall_fmap, Forall_forall. intros c _. apply escape_char_no_cr.
Qed.

Lemma newline_indent_no_cr k : Forall (fun b => b <> CR) (newline_indent k).
Proof.
  constructor; [done|]. by apply Forall_replicate.
Qed.

(** ** Values *)

Local Opaque newline_indent.

(** The encoding of [v] at indentation [lvl] scans back to [to_json v],
    whatever follows it, with some fuel. *)
Definition decodes (lvl : nat) (v : pyval) : Prop :=
  exists f, forall n rest,
    scan_once n f (iterencode lvl v ++ rest) = Some (Ok (to_json v, rest)).




Lemma decodes_at lvl v n f rest :
  (forall n rest, scan_once n f (iterencode lvl v ++ rest) = Some (Ok (to_json v, rest))) ->
  forall f', f <= f' -> scan_once n f' (iterencode lvl v ++ rest) = Some (Ok (to_json v, rest)).
Proof. intros Hx f' Hf. eapply scan_once_lift; [exact Hf|apply Hx]. Qed.

Lemma parse_array_items lvl x xs acc :
  Forall (decodes (S lvl)) (x :: xs) ->
  exists f, forall n rest,
    parse_array n f acc (iterencode (S lvl) x ++
      concat ((fun y => ","%char :: newline_indent (S lvl) ++ iterencode (S lvl) y) <$> xs) ++
      newline_indent lvl ++ "]"%char :: rest)
    = Some (Ok (JArr (rev acc ++ (to_json <$> x :: xs)), rest)).
Proof.
  revert x acc; induction xs as [|y xs IH]; intros x acc Hall;
    apply Forall_cons in Hall as [[fx Hx] Hxs].
  - exists (S fx). intros n rest. simpl.
    rewrite (decodes_at _ _ n fx _ Hx fx) by lia. cbn [fbind].
    rewrite skip_ws_newline_indent. done.
  - destruct (IH y (to_json x :: acc) Hxs) as [fy Hy].
    exists (S (fx `max` fy)). intros n rest. simpl.
    rewrite (decodes_at _ _ n fx _ Hx) by lia. simpl.
    rewrite <- !app_assoc, skip_ws_newline_indent, skip_ws_iterencode.
    etransitivity; [exact (parse_array_lift _ fy (fx `max` fy) _ _ _ ltac:(lia) (Hy n rest))|].
    simpl. by rewrite <- app_assoc.
Qed.

Lemma encode_basestring_cons s : encode_basestring s = DQ :: tail (encode_basestring s).
Proof. done. Qed.

Lemma string_of_bytes_of s : String.string_of_list_ascii (bytes_of s) = s.
Proof. apply String.string_of_list_ascii_of_string. Qed.

Lemma skip_ws_basestring k s : skip_ws (encode_basestring k ++ s) = encode_basestring k ++ s.
Proof. done. Qed.

Local Opaque encode_basestring.

Lemma parse_object_items lvl k x kvs d :
  Forall (fun e : string * pyval => decodes (S lvl) e.2) ((k, x) :: kvs) ->
  NoDup (dict_keys d ++ k :: (fst <$> kvs)) ->
  exists f, forall n rest,
    parse_object n f d (encode_basestring k ++ bytes_of ": " ++ iterencode (S lvl) x ++
      concat ((fun e : string * pyval =>
                 ","%char :: newline_indent (S lvl) ++
                 encode_basestring e.1 ++ bytes_of ": " ++ iterencode (S lvl) e.2) <$> kvs) ++
      newline_indent lvl ++ "}"%char :: rest)
    = Some (Ok (JObj (d ++ ((fun e : string * pyval => (e.1, to_json e.2)) <$> (k, x) :: kvs)), rest)).
Proof.
  revert k x d; induction kvs as [|[k' y] kvs IH]; intros k x d Hall Hnd;
    apply Forall_cons in Hall as [[fx Hx] Hkvs]; simpl in Hx.
  all: assert (k ∉ dict_keys d) by (apply NoDup_app in Hnd as (_ & Hd & _); set_solver).
  - exists (S fx). intros n rest.
    rewrite encode_basestring_cons. simpl. rewrite scan_str_basestring. simpl.
    rewrite skip_ws_iterencode, (decodes_at _ _ n fx _ Hx) by lia. simpl.
    rewrite skip_ws_newline_indent, string_of_bytes_of, dict_set_new by done. done.
  - destruct (IH k' y (d ++ [(k, to_json x)]) Hkvs) as [fy Hy].
    { unfold dict_keys in *. rewrite fmap_app. simpl. rewrite <- app_assoc. done. }
    exists (S (fx `max` fy)). intros n rest.
    rewrite encode_basestring_cons. simpl. rewrite scan_str_basestring. simpl.
    rewrite skip_ws_iterencode, (decodes_at _ _ n fx _ Hx) by lia. simpl.
    rewrite <- !app_assoc, skip_ws_newline_indent, string_of_bytes_of, dict_set_new by done.
    etransitivity; [exact (parse_object_lift _ fy (fx `max` fy) _ _ _ ltac:(lia) (Hy n rest))|].
    simpl. by rewrite <- app_assoc.
Qed.

Lemma pyval_wf_list l : pyval_wf (PyList l) = true <-> Forall (fun x => pyval_wf x = true) l.
Proof.
  simpl. induction l as [|x l IH]; simpl; [split; constructor|].
  by rewrite andb_true_iff, Forall_cons, IH.
Qed.

Lemma pyval_wf_dict d :
  pyval_wf (PyDict d) = true <->
  NoDup (fst <$> d) /\ Forall (fun e : string * pyval => pyval_wf e.2 = true) d.
Proof.
  simpl. rewrite andb_true_iff, bool_decide_eq_true. f_equiv.
  induction d as [|e d IH]; simpl; [split; constructor|].
  by rewrite andb_true_iff, Forall_cons, IH.
Qed.

Lemma scan_open_array n f s :
  head s <> None -> head s <> Some "]"%char ->
  match s with
  | [] => parse_array n f [] []
  | c' :: r' => if decide (c' = "]"%char) then Some (mret (JArr [], r')) else parse_array n f [] (c' :: r')
  end = parse_array n f [] s.
Proof. destruct s as [|c r]; simpl; [done|]. intros _ Hc. rewrite decide_False; congruence. Qed.

Lemma scan_open_object n f s :
  head s <> None -> head s <> Some "}"%char ->
  match s with
  | [] => parse_object n f [] []
  | c' :: r' => if decide (c' = "}"%char) then Some (mret (JObj [], r')) else parse_object n f [] (c' :: r')
  end = parse_object n f [] s.
Proof. destruct s as [|c r]; simpl; [done|]. intros _ Hc. rewrite decide_False; congruence. Qed.

(** Every well-formed value scans back from its encoding, at every
    indentation level. *)
Lemma iterencode_decodes v : pyval_wf v = true -> forall lvl, decodes lvl v.
Proof.
  induction v as [| b | s | l IH | d IH] using pyval_ind'; intros Hwf lvl.
  - by exists 1.
  - exists 1. by destruct b.
  - exists 1. intros n rest. simpl. rewrite encode_basestring_cons. simpl.
    rewrite scan_str_basestring. simpl. by rewrite string_of_bytes_of.
  - apply pyval_wf_list in Hwf. destruct l as [|x xs]; [by exists 1|].
    destruct (parse_array_items lvl x xs []) as [f Hf].
    { apply Forall_forall. intros y Hy. eapply Forall_forall in IH; [|exact Hy].
      apply IH. by eapply Forall_forall in Hwf. }
    exists (S f). intros n rest. simpl.
    rewrite <- !app_assoc, skip_ws_newline_indent, skip_ws_iterencode.
    destruct (iterencode_head (S lvl) x) as (c & r & Henc & _ & Hc & _).
    rewrite scan_open_array by (rewrite Henc; simpl; congruence). apply Hf.
  - apply pyval_wf_dict in Hwf as [Hnd Hwf]. destruct d as [|[k x] kvs]; [by exists 1|].
    destruct (parse_object_items lvl k x kvs []) as [f Hf]; [|done|].
    { apply Forall_forall. intros e He. eapply Forall_forall in IH; [|exact He].
      apply IH. by eapply Forall_forall in Hwf. }
    exists (S f). intros n rest. simpl.
    rewrite <- !app_assoc, skip_ws_newline_indent.
    rewrite scan_open_object by (rewrite encode_basestring_cons; simpl; cbv; congruence).
    rewrite skip_ws_basestring.
    repeat (rewrite <- app_comm_cons || rewrite <- app_assoc). apply Hf.
Qed.

(** ** The whole document *)



Lemma iterencode_not_bom lvl v rest : take 3 (iterencode lvl v ++ rest) <> BOM.
Proof.
  intros H. apply (f_equal head) in H.
  destruct v as [| [] | s | [|x xs] | [|[k x] kvs]]; simpl in H;
    try rewrite encode_basestring_cons in H; simpl in H; vm_compute in H; congruence.
Qed.

Ltac no_cr :=
  repeat match goal with
  | |- Forall _ (_ ++ _) => apply Forall_app; split
  | |- Forall _ (_ :: _) => constructor; [done|]
  | |- Forall _ [] => constructor
  | |- Forall _ (newline_indent _) => apply newline_indent_no_cr
  | |- Forall _ (encode_basestring _) => apply basestring_no_cr
  | |- Forall _ (concat _) =>
      apply Forall_concat, Forall_fmap, Forall_forall;
      let e := fresh "e" in
      intros e ?; lazymatch type of e with (_ * _)%type => destruct e | _ => idtac end;
      unfold compose; simpl
  end.

(** The encoder never writes a carriage return: every one in a string is
    escaped, so reading the file back in text mode changes nothing. *)
Lemma iterencode_no_cr lvl v : Forall (fun b => b <> CR) (iterencode lvl v).
Proof.
  revert lvl; induction v as [| b | s | l IH | d IH] using pyval_ind'; intros lvl.
  - by apply bytes_no_cr.
  - destruct b; by apply bytes_no_cr.
  - apply basestring_no_cr.
  - destruct l as [|x xs]; simpl; [by apply bytes_no_cr|].
    apply Forall_cons in IH as [Hx Hxs]. no_cr; [apply Hx|].
    by eapply Forall_forall in Hxs.
  - destruct d as [|[k x] kvs]; simpl; [by apply bytes_no_cr|].
    apply Forall_cons in IH as [Hx Hkvs]. simpl in Hx. no_cr; [apply Hx|].
    exact (proj1 (Forall_forall _ _) Hkvs _ H (S lvl)).
Qed.

Lemma skip_ws_iterencode_nil lvl v : skip_ws (iterencode lvl v) = iterencode lvl v.
Proof. rewrite <- (app_nil_r (iterencode lvl v)). apply skip_ws_iterencode. Qed.

Lemma scan_document v rest n :
  pyval_wf v = true ->
  scan_once n (decode_fuel (iterencode 0 v ++ rest)) (iterencode 0 v ++ rest) =
  Some (Ok (to_json v, rest)).
Proof.
  intros Hwf. destruct (iterencode_decodes v Hwf 0) as [f Hf].
  destruct (scan_once_decode_fuel n (iterencode 0 v ++ rest)) as [r Hr].
  rewrite Hr. f_equal. exact (scan_once_agree _ _ _ _ _ _ Hr (Hf n rest)).
Qed.

(** ** Theorems *)

(** [json.loads] reads back what [json.dumps(v, indent=2,
    ensure_ascii=False)] wrote. *)
Lemma loads_iterencode v :
  pyval_wf v = true -> json_loads (iterencode 0 v) = Ok (to_json v).
Proof.
  intros Hwf. unfold json_loads.
  rewrite <- (app_nil_r (iterencode 0 v)), decide_False by apply iterencode_not_bom.
  rewrite skip_ws_iterencode, scan_document by done. done.
Qed.



(** C34: anything but whitespace after the encoded value raises
    [JSONDecodeError("Extra data")] at the index where the value ends. *)
Theorem json_loads_extra_data v c t :
  pyval_wf v = true -> is_ws c = false ->
  json_loads (iterencode 0 v ++ c :: t) =
  Err (JSONDecodeError "Extra data" (length (iterencode 0 v))).
Proof.
  intros Hwf Hc. unfold json_loads.
  rewrite decide_False by apply iterencode_not_bom.
  rewrite skip_ws_iterencode, scan_document by done. simpl. rewrite Hc.
  unfold decode_error, pos. f_equal. f_equal. rewrite length_app. simpl. lia.
Qed.

Lemma iterencode_cr_free lvl v : CR ∉ iterencode lvl v.
Proof. intros Hin. eapply Forall_forall in Hin; [|apply iterencode_no_cr]. done. Qed.

Lemma load_dump v raw :
  pyval_wf v = true -> json_dump v = Ok raw -> json_load raw = Ok (to_json v).
Proof.
  intros Hwf Hd. unfold json_load.
  rewrite (read_write_text _ _ Hd) by apply iterencode_cr_free.
  by apply loads_iterencode.
Qed.

(** C22: the file round trip: [json.load] on a file that
    [json.dump(v, f, indent=2, ensure_ascii=False)] wrote through
    [open(..., "w", encoding="utf-8")] and read back in text mode gives
    [v] again, for every value whose dicts have distinct keys (as every
    Python dict has): strings unescaped, lists and dicts in their order. *)
Theorem json_load_dump v raw :
  pyval_wf v = true -> json_dump v = Ok raw -> json_load raw = Ok (to_json v).
Proof. apply load_dump. Qed.


(** ** The knowledge base in JSON *)

Lemma kb_to_py_wf kb : NoDup (dict_keys kb) -> pyval_wf (kb_to_py kb) = true.
Proof.
  intros Hnd. apply pyval_wf_dict. split.
  - unfold dict_keys in Hnd. by rewrite <- list_fmap_compose.
  - apply Forall_fmap, Forall_forall. intros [l ts] _. simpl.
    apply pyval_wf_list, Forall_fmap, Forall_forall. done.
Qed.

Lemma json_to_kb_to_py kb : json_to_kb (to_json (kb_to_py kb)) = Some kb.
Proof.
  unfold kb_to_py, json_to_kb. simpl (to_json (PyDict _)).
  apply mapM_Some. rewrite <- list_fmap_compose.
  apply Forall2_fmap_l, Forall_Forall2_diag, Forall_forall. intros [l ts] _. simpl.
  rewrite (proj2 (mapM_Some _ _ ts)); [done|].
  rewrite <- list_fmap_compose.
  apply Forall2_fmap_l, Forall_Forall2_diag, Forall_forall. done.
Qed.

(** ** Escaping keeps UTF-8 text valid *)

Definition esc (cs : bytes) : bytes := concat (escape_char <$> cs).

Lemma escape_char_high c : 128 <= bval c -> escape_char c = [c].
Proof. intros H. destruct c as [[] [] [] [] [] [] [] []]; try reflexivity; vm_compute in H; lia. Qed.

Lemma escape_char_low c :
  bval c < 128 -> exists b t, escape_char c = b :: t /\ bval b < 128.
Proof.
  intros H. destruct c as [[] [] [] [] [] [] [] []]; vm_compute in H; try lia;
    (eexists _, _; split; [reflexivity|vm_compute; lia]).
Qed.

Lemma escape_char_all_ascii c :
  bval c < 128 -> Forall (fun b => bval b < 128) (escape_char c).
Proof.
  intros H. apply (bool_decide_eq_true_1 (Forall _ _)).
  destruct c as [[] [] [] [] [] [] [] []]; vm_compute in H; try lia; reflexivity.
Qed.

Lemma esc_view c r :
  (128 <= bval c /\ esc (c :: r) = c :: esc r) \/
  (bval c < 128 /\ exists b t, esc (c :: r) = b :: t /\ bval b < 128).
Proof.
  unfold esc. rewrite fmap_cons, concat_cons.
  destruct (decide (bval c < 128)) as [Hc|Hc].
  - right. split; [done|]. destruct (escape_char_low c Hc) as (b & t & -> & Hb).
    by exists b, (t ++ concat (escape_char <$> r)).
  - left. split; [lia|]. by rewrite escape_char_high by lia.
Qed.

Lemma cont_ascii c : bval c < 128 -> cont c = false.
Proof. apply in_range_ascii. lia. Qed.

Ltac esc_view_tac :=
  repeat match goal with
  | |- context [esc (?c :: ?r)] =>
      let H := fresh "H" in let Hb := fresh "Hb" in
      destruct (esc_view c r) as [[H ->]|[H (? & ? & -> & Hb)]]
  end.

(** A branch where an ASCII byte stands where a continuation byte is
    needed: both sides are [false]. *)
Ltac utf8_ascii_branch lo hi :=
  repeat match goal with
  | |- context [match ?l with [] => _ | _ :: _ => _ end] => is_var l; destruct l
  end; cbn beta iota;
  repeat match goal with
  | H : bval ?b < 128 |- context [cont ?b] => rewrite (cont_ascii b H)
  | H : bval ?b < 128 |- context [in_range lo hi ?b] => rewrite (in_range_ascii lo hi b ltac:(done) H)
  end; rewrite ?andb_false_r; reflexivity.

Ltac esc_cons c r :=
  let H := fresh "H" in let Hb := fresh "Hb" in
  destruct (esc_view c r) as [[H ->]|[H (? & ? & -> & Hb)]].

(** Escaping touches only ASCII bytes, which never sit inside a multi-byte
    sequence: the escaped bytes are valid UTF-8 exactly when the string's
    are. *)
Lemma utf8_valid_esc cs : utf8_valid (esc cs) = utf8_valid cs.
Proof.
  induction cs as [cs IH] using (induction_ltof1 _ (@length _)). unfold ltof in IH.
  destruct cs as [|c r]; [done|].
  destruct (decide (bval c < 128)) as [Hc|Hc].
  - unfold esc. rewrite fmap_cons, concat_cons, utf8_valid_ascii_app
      by (by apply escape_char_all_ascii).
    cbn [utf8_valid]. destruct (second_range (bval c)).
    rewrite (proj2 (Nat.ltb_lt _ _) Hc). apply IH. simpl. lia.
  - unfold esc at 1. rewrite fmap_cons, concat_cons, escape_char_high by lia. fold (esc r).
    cbn [app utf8_valid].
    pose proof (second_range_lo (bval c)) as Hlo.
    destruct (second_range (bval c)) as [lo hi]. simpl in Hlo.
    rewrite (proj2 (Nat.ltb_ge _ _)) by lia.
    destruct (_ && _).
    { destruct r as [|c1 r1]; [reflexivity|]. esc_cons c1 r1; [|utf8_ascii_branch lo hi].
      rewrite IH; [done|simpl; lia]. }
    destruct (_ && _).
    { destruct r as [|c1 r1]; [reflexivity|]. esc_cons c1 r1; [|utf8_ascii_branch lo hi].
      destruct r1 as [|c2 r2]; [reflexivity|]. esc_cons c2 r2; [|utf8_ascii_branch lo hi].
      rewrite IH; [done|simpl; lia]. }
    destruct (_ && _); [|done].
    destruct r as [|c1 r1]; [reflexivity|]. esc_cons c1 r1; [|utf8_ascii_branch lo hi].
    destruct r1 as [|c2 r2]; [reflexivity|]. esc_cons c2 r2; [|utf8_ascii_branch lo hi].
    destruct r2 as [|c3 r3]; [reflexivity|]. esc_cons c3 r3; [|utf8_ascii_branch lo hi].
    rewrite IH; [done|simpl; lia].
Qed.

(** Every string of a value, and every key, is valid UTF-8: the value is a
    Python object whose strings hold no lone surrogate. *)
Fixpoint pyval_utf8 (v : pyval) : bool :=
  match v with
  | PyStr s => utf8_valid (bytes_of s)
  | PyList l => forallb pyval_utf8 l
  | PyDict d => forallb (fun e => utf8_valid (bytes_of e.1) && pyval_utf8 e.2) d
  | _ => true
  end.

Lemma utf8_valid_concat ls :
  Forall (fun l => utf8_valid l = true) ls -> utf8_valid (concat ls) = true.
Proof. induction 1; simpl; [done|]. by apply utf8_valid_app. Qed.

Lemma utf8_valid_cons_ascii c l :
  bval c < 128 -> utf8_valid (c :: l) = utf8_valid l.
Proof. intros Hc. apply (utf8_valid_ascii_app [c]). by constructor. Qed.

Lemma newline_indent_ascii k : Forall (fun c => bval c < 128) (newline_indent k).
Proof.
  Local Transparent newline_indent. unfold newline_indent. constructor; [cbv; lia|].
  apply Forall_replicate. cbv; lia.
Qed.
Local Opaque newline_indent.

Lemma basestring_utf8 s :
  utf8_valid (bytes_of s) = true -> utf8_valid (encode_basestring s) = true.
Proof.
  intros Hs. rewrite encode_basestring_cons. Local Transparent encode_basestring.
  unfold encode_basestring. simpl tail. rewrite utf8_valid_cons_ascii by (cbv; lia).
  apply utf8_valid_app; [|done]. fold (esc (bytes_of s)). by rewrite utf8_valid_esc.
Qed.
Local Opaque encode_basestring.

Ltac utf8_parts :=
  repeat match goal with
  | |- utf8_valid (_ ++ _) = true => apply utf8_valid_app
  | |- utf8_valid (newline_indent _ ++ _) = true =>
      rewrite utf8_valid_ascii_app by apply newline_indent_ascii
  | |- utf8_valid (?c :: _) = true => rewrite utf8_valid_cons_ascii by (cbv; lia)
  | |- utf8_valid (newline_indent _) = true =>
      rewrite <- (app_nil_r (newline_indent _)), utf8_valid_ascii_app by apply newline_indent_ascii
  | |- utf8_valid [] = true => reflexivity
  | |- utf8_valid (encode_basestring _) = true => apply basestring_utf8
  | |- utf8_valid (concat _) = true =>
      apply utf8_valid_concat, Forall_fmap, Forall_forall;
      let e := fresh "e" in
      intros e ?; lazymatch type of e with (_ * _)%type => destruct e | _ => idtac end;
      unfold compose; simpl
  end.

(** The encoding of a value whose strings are valid UTF-8 is valid UTF-8. *)
Lemma iterencode_utf8 lvl v :
  pyval_utf8 v = true -> utf8_valid (iterencode lvl v) = true.
Proof.
  revert lvl; induction v as [| b | s | l IH | d IH] using pyval_ind'; intros lvl Hv.
  - done.
  - by destruct b.
  - by apply basestring_utf8.
  - destruct l as [|x xs]; simpl in *; [done|].
    apply andb_true_iff in Hv as [Hx Hxs]. apply Forall_cons in IH as [IHx IHxs].
    utf8_parts; auto.
    rewrite forallb_forall in Hxs. eapply Forall_forall in IHxs; [apply IHxs|done].
    apply Hxs. by apply list_elem_of_In.
  - destruct d as [|[k x] kvs]; simpl in *; [done|].
    apply andb_true_iff in Hv as [Hkx Hkvs]. apply andb_true_iff in Hkx as [Hk Hx].
    apply Forall_cons in IH as [IHx IHkvs]. simpl in IHx.
    utf8_parts; auto.
    all: rewrite forallb_forall in Hkvs.
    all: match goal with H : (_, _) ∈ _ |- _ =>
      pose proof (Hkvs _ (proj1 (list_elem_of_In _ _) H)) as Hp;
      apply andb_true_iff in Hp as [Hs' Hp'] end.
    + done.
    + exact (proj1 (Forall_forall _ _) IHkvs _ H _ Hp').
Qed.

Lemma json_dump_ok v : pyval_utf8 v = true -> json_dump v = Ok (iterencode 0 v).
Proof. intros Hv. unfold json_dump, write_text. by rewrite iterencode_utf8. Qed.

(** ** Witnesses *)

(** The dict of the spec's scenario, written and read back. *)
Lemma json_load_dump_witness :
  pyval_wf (kb_to_py scenario_knowledge) = true /\
  json_dump (kb_to_py scenario_knowledge) = Ok (iterencode 0 (kb_to_py scenario_knowledge)) /\
  json_load (iterencode 0 (kb_to_py scenario_knowledge)) = Ok (to_json (kb_to_py scenario_knowledge)).
Proof.
  assert (Hwf : pyval_wf (kb_to_py scenario_knowledge) = true) by reflexivity.
  assert (Hd : json_dump (kb_to_py scenario_knowledge) =
               Ok (iterencode 0 (kb_to_py scenario_knowledge))) by (vm_compute; reflexivity).
  split_and!; [exact Hwf|exact Hd|exact (json_load_dump _ _ Hwf Hd)].
Defined.



Lemma json_loads_extra_data_witness :
  pyval_wf (PyList [PyNone]) = true /\ is_ws "x"%char = false /\
  json_loads (iterencode 0 (PyList [PyNone]) ++ ["x"%char]) =
  Err (JSONDecodeError "Extra data" (length (iterencode 0 (PyList [PyNone])))).
Proof.
  assert (Hwf : pyval_wf (PyList [PyNone]) = true) by reflexivity.
  assert (Hc : is_ws "x"%char = false) by reflexivity.
  split_and!; [exact Hwf|exact Hc|exact (json_loads_extra_data _ _ [] Hwf Hc)].
Defined.

