(* ===== verification/Embedding.v ===== *)
(** * The embedding store: [rag_utils.py], lines 6-14

    [model = SentenceTransformer(...)] is an opaque, deterministic map from
    a text to a vector: the class [Encoder].  [model.encode(texts)] on a
    list ([encode_batch]) follows [SentenceTransformer.encode]: it sorts
    the texts by decreasing length with [np.argsort], encodes them in that
    order, and puts the embeddings back in the input order with the
    argsort of the sort's indices; [encode_batch_fmap] proves that this
    gives the embedding of each text at its own index, whatever order the
    length sort chooses for texts of equal length.  [cosine_similarity] is the
    class [Similarity]; its sklearn definition on real vectors is in
    [Cosine].  The module-level state of [rag_utils.py] is the record
    [rag_state]: the loaded dict [knowledge] and the dict [embeddings]
    built from it by the comprehension of line 14 ([load_rag]).  The
    theorem of this file is the alignment invariant the spec calls
    load-bearing: the same labels in the same order, and for every label
    the vector at index [i] is the embedding of the chunk at index [i].
    The import from the file's bytes is [load_rag_file]; it raises
    [AttributeError] on a file whose JSON value is not a dict. *)

From S2P Require Import Prelude Score ArgSort KnowledgeBase TextFile JsonLoad.

Class Encoder (V : Type) := encode : string -> V.
Class Similarity (V Sc : Type) := similarity : V -> V -> Sc.

Section Index.
Context {V : Type} `{Encoder V}.

Definition embedding_index : Type := list (string * list V).

  (** [SentenceTransformer._text_length(text)] of a [str]: [len(text)],
      its number of code points. *)
Definition text_length (t : string) : Z :=
    Z.of_nat (code_points (String.list_ascii_of_string t)).

  (** [model.encode(texts)]: [SentenceTransformer.encode] on a list
      (sentence-transformers, modelled from its source) sorts the texts
      by decreasing length,
      [length_sorted_idx = np.argsort([-self._text_length(sen) for sen in sentences])],
      encodes them in that order, and restores the input order,
      [all_embeddings = [all_embeddings[idx] for idx in np.argsort(length_sorted_idx)]].
      Encoding a text does not depend on the batch it is in (the
      encoder is deterministic and opaque). *)
Definition encode_batch (texts : list string) : list V :=
    let length_sorted_idx := argsort ((fun t => (- text_length t)%Z) <$> texts) in
    let sentences_sorted := (fun idx => nth idx texts EmptyString) <$> length_sorted_idx in
    let all_embeddings := encode <$> sentences_sorted in
    (fun idx => nth idx all_embeddings (encode EmptyString)) <$>
      argsort (Z.of_nat <$> length_sorted_idx).

  (** Line 14: [{label: model.encode(texts) for label, texts in
      knowledge.items()}]. *)
Definition build_index (knowledge : knowledge_base) : embedding_index :=
    (fun e : string * list string => (e.1, encode_batch e.2)) <$> knowledge.

  (** The module state of [rag_utils.py] after its import. *)
Record rag_state := {
    knowledge : knowledge_base;
    embeddings : embedding_index
  }.

  (** Lines 10-14: [knowledge = json.load(f)], then the index. *)
Definition load_rag (kb : knowledge_base) : rag_state :=
    {| knowledge := kb; embeddings := build_index kb |}.

  (** Lines 9-14 from the file's bytes: [json.load(f)], then the
      comprehension over [knowledge.items()], which raises
      [AttributeError] when the file's value is not a dict.  [None] when
      it is a dict whose values are not all lists of strings:
      [rag_utils.py] does not check the shape, and what the encoder does
      with such values is not modelled. *)
Definition load_rag_file (raw : bytes) : result (option rag_state) :=
    v ← json_load raw;
    match v with
    | JObj _ => mret (load_rag <$> json_to_kb v)
    | _ => raise (AttributeError "items")
    end.

  (** The alignment invariant of the spec's data model. *)
Definition aligned (kb : knowledge_base) (idx : embedding_index) : Prop :=
    dict_keys idx = dict_keys kb /\
    forall label texts, dict_get label kb = Some texts ->
      exists vecs, dict_get label idx = Some vecs /\
        length vecs = length texts /\
        forall i t, texts !! i = Some t -> vecs !! i = Some (encode t).

  (** Whatever order the length sort puts the texts in, indexing the
      embeddings by [np.argsort] of that order gives them back in the
      order of the texts: the keys of the second argsort are distinct. *)
Lemma unsort_any_order (texts : list string) (p : list nat) :
    p ≡ₚ seq 0 (length texts) ->
    (fun idx => nth idx (encode <$> ((fun i => nth i texts EmptyString) <$> p))
                  (encode EmptyString)) <$> argsort (Z.of_nat <$> p)
    = encode <$> texts.
  Proof.
    intros Hp. pose proof (Permutation_length Hp) as Hlen. rewrite length_seq in Hlen.
    destruct (argsort_spec (Z.of_nat <$> p)) as [Hq _]. rewrite length_fmap in Hq.
    transitivity ((fun j => encode (nth j texts EmptyString)) <$>
                  ((fun idx => nth idx p 0) <$> argsort (Z.of_nat <$> p))).
    - rewrite <- (list_fmap_compose (fun idx => nth idx p 0) _ (argsort _)).
      apply list_fmap_ext. intros k idx Hk.
      assert (Hidx : idx < length p).
      { apply list_elem_of_lookup_2 in Hk. rewrite Hq, elem_of_seq in Hk. lia. }
      unfold compose. rewrite (nth_fmap_lt _ _ _ _ EmptyString) by (rewrite length_fmap; lia).
      by rewrite (nth_fmap_lt _ _ _ _ 0) by lia.
    - rewrite argsort_unsort by (by rewrite Hlen). rewrite Hlen.
      rewrite <- (fmap_nth_seq texts EmptyString) at 2. by rewrite <- list_fmap_compose.
  Qed.

Lemma encode_batch_fmap texts : encode_batch texts = encode <$> texts.
  Proof.
    unfold encode_batch. apply unsort_any_order.
    rewrite (proj1 (argsort_spec _)). by rewrite length_fmap.
  Qed.

Lemma build_index_get kb label :
    dict_get label (build_index kb) = encode_batch <$> dict_get label kb.
  Proof.
    induction kb as [|[l ts] kb IH]; simpl; [done|].
    case_decide; [done|]. apply IH.
  Qed.

Lemma build_index_keys kb : dict_keys (build_index kb) = dict_keys kb.
  Proof.
    unfold dict_keys, build_index. rewrite <- list_fmap_compose. done.
  Qed.

(** C9: the index built at import is aligned with the knowledge base:
      same labels in the same order, one vector per chunk, and the vector
      at index [i] is the embedding of chunk [i]. *)
Theorem build_index_aligned kb : aligned kb (build_index kb).
  Proof.
    split; [apply build_index_keys|].
    intros label texts Hget. exists (encode_batch texts).
    rewrite build_index_get, Hget. split_and!; [done| |]; rewrite encode_batch_fmap;
      [apply length_fmap|]. intros i t Hi. by rewrite list_lookup_fmap, Hi.
  Qed.

  (** Groups are non-empty in the index exactly when they are in the
      knowledge base. *)
Lemma build_index_nonempty kb :
    Forall (fun e : string * list string => e.2 <> []) kb <->
    Forall (fun e : string * list V => e.2 <> []) (build_index kb).
  Proof.
    unfold build_index. rewrite Forall_fmap.
    apply Forall_iff. intros [l ts]. simpl. rewrite encode_batch_fmap.
    split; intros Hne Hnil; apply Hne; [by apply fmap_nil_inv in Hnil|by subst].
  Qed.
End Index.

Arguments rag_state V : clear implicits.
Arguments embedding_index V : clear implicits.

(** C39: a knowledge file whose JSON value is not a dict (a list, a
    string, a number, a boolean or [null]) makes the import of
    [rag_utils.py] raise [AttributeError] at [knowledge.items()], after
    [json.load] succeeded: the shape is never checked. *)
Theorem load_rag_file_not_dict `{Encoder V} raw v :
  json_load raw = Ok v -> (forall d, v <> JObj d) ->
  load_rag_file raw = Err (AttributeError "items").
Proof.
  intros Hv Hnd. unfold load_rag_file. rewrite Hv. cbn [mbind result_bind].
  destruct v; [..|by destruct (Hnd d)]; done.
Qed.

(** ** Witness *)

(** The identity encoder: texts are their own embeddings. *)
#[local] Instance text_encoder_id : Encoder string := fun s => s.

Lemma load_rag_file_not_dict_witness :
  json_load (String.list_ascii_of_string "[]") = Ok (JArr []) /\
  (forall d, JArr [] <> JObj d) /\
  @load_rag_file string _ (String.list_ascii_of_string "[]") = Err (AttributeError "items").
Proof.
  assert (Hv : json_load (String.list_ascii_of_string "[]") = Ok (JArr [])) by reflexivity.
  assert (Hnd : forall d, JArr [] <> JObj d) by discriminate.
  split_and!; [exact Hv|exact Hnd|exact (load_rag_file_not_dict _ (JArr []) Hv Hnd)].
Defined.
