(* ===== verification/Retriever.v ===== *)
(** * The retriever: [retrieve_answer] of [rag_utils.py], lines 16-37

    [retrieve_answer] embeds the question and scans the labels of
    [embeddings] in dict order with the state [(best_label, best_score,
    top_contexts)] (the record [best_state], initialised at line 22).  For
    one label ([scan_label], lines 26-35): the similarities of the question
    with the label's vectors ([cosine_row], which raises [ValueError] like
    sklearn on an empty array), the top indices ([ArgSort.top_indices]),
    their mean ([avg_score], [None] for numpy's [nan]), and, when the mean
    is strictly greater than the best so far, the new best with the texts
    [knowledge[label][i]] ([kb_index], which may raise [KeyError] or
    [IndexError]).  [scan_labels] is the loop, [retrieve_answer] the
    function.

    The abstract specification: [first_best] says that a label wins when
    its score is positive, strictly greater than the score of every label
    before it and at least the score of every label after it; [no_best]
    says that no score is positive.  [retrieve_answer_refines] proves that
    on a knowledge base with distinct labels and no empty group the code
    returns without raising and its result meets this specification, with
    the winner's contexts in ranked order; [retrieve_answer_typed] gives
    the same results as values of the type [retrieval] (no match, or a
    label of the knowledge base with a positive score and between 1 and
    [top_k] of its contexts).  The specification admits one result
    ([retrieve_spec_det]), so [retrieve_answer_exact] turns the refinement
    into an equivalence: a triple is what the code returns exactly when
    the specification admits it. *)

From S2P Require Import Prelude Score ArgSort KnowledgeBase Embedding.

Section Retriever.
Context {Sc : Type} `{ScoreLaws Sc} {V : Type} `{Encoder V} `{Similarity V Sc}.

Record best_state := {
    best_label : option string;
    best_score : Sc;
    top_contexts : list string
  }.

  (** Line 22: [best_label, best_score, top_contexts = None, 0, []]. *)
Definition init_best : best_state :=
    {| best_label := None; best_score := szero; top_contexts := [] |}.

  (** Line 26: [cosine_similarity(q_emb, embs)[0]]; sklearn rejects an
      array without rows. *)
Definition cosine_row (q_emb : V) (embs : list V) : result (list Sc) :=
    match embs with
    | [] => raise (ValueError "Found array with 0 sample(s)")
    | _ :: _ => mret (similarity q_emb <$> embs)
    end.

  (** Line 29: [np.mean(sims[top_indices])]. *)
Definition avg_score (sims : list Sc) (top : list nat) : option Sc :=
    np_mean (key sims <$> top).

  (** Line 35: [knowledge[label][i]]. *)
Definition kb_index (kb : knowledge_base) (label : string) (i : nat)
    : result string :=
    ts ← kb_get kb label;
    match ts !! i with
    | Some t => mret t
    | None => raise (IndexError i)
    end.

  (** Lines 26-35, the loop body for one label.  A [nan] mean is never
      greater than the best score. *)
Definition scan_label (kb : knowledge_base) (q_emb : V) (top_k : Z)
      (st : best_state) (e : string * list V) : result best_state :=
    let '(label, embs) := e in
    sims ← cosine_row q_emb embs;
    let top := top_indices sims top_k in
    match avg_score sims top with
    | Some avg =>
        if sltb (best_score st) avg then
          ctx ← mapM (kb_index kb label) top;
          mret {| best_label := Some label; best_score := avg; top_contexts := ctx |}
        else mret st
    | None => mret st
    end.

  (** Line 25: [for label, embs in embeddings.items()]. *)
Fixpoint scan_labels (kb : knowledge_base) (q_emb : V) (top_k : Z)
      (st : best_state) (idx : embedding_index V) : result best_state :=
    match idx with
    | [] => mret st
    | e :: idx' => st' ← scan_label kb q_emb top_k st e; scan_labels kb q_emb top_k st' idx'
    end.

  (** Lines 16-37. *)
Definition retrieve_answer (rs : rag_state V) (question : string) (top_k : Z)
    : result (option string * Sc * list string) :=
    let q_emb := encode question in
    st ← scan_labels (knowledge rs) q_emb top_k init_best (embeddings rs);
    mret (best_label st, best_score st, top_contexts st).

  (** [retrieve_answer(question)]: the default [top_k=2]. *)
Definition retrieve_answer_default (rs : rag_state V) (question : string) :=
    retrieve_answer rs question 2.

  (** ** The abstract specification *)

  (** The indices a label selects, and its score ([None] for [nan]). *)
Definition label_top (q_emb : V) (top_k : Z) (embs : list V) : list nat :=
    top_indices (similarity q_emb <$> embs) top_k.

Definition label_score (q_emb : V) (top_k : Z) (embs : list V) : option Sc :=
    avg_score (similarity q_emb <$> embs) (label_top q_emb top_k embs).

Definition label_scores (kb : knowledge_base) (q_emb : V) (top_k : Z)
    : list (string * option Sc) :=
    (fun e : string * list string => (e.1, label_score q_emb top_k (encode_batch e.2))) <$> kb.

  (** The texts at the selected indices, in ranked order. *)
Definition contexts_of (texts : list string) (top : list nat) : list string :=
    (fun i => nth i texts EmptyString) <$> top.

Definition beats (s : Sc) (o : option Sc) : Prop :=
    match o with Some s' => sltb s' s = true | None => True end.

Definition not_above (s : Sc) (o : option Sc) : Prop :=
    match o with Some s' => sle s' s | None => True end.

  (** [l] with score [s] is the first strict maximum, and [s > 0]. *)
Definition first_best (scores : list (string * option Sc)) (l : string) (s : Sc)
    : Prop :=
    sltb szero s = true /\
    exists pre post, scores = pre ++ (l, Some s) :: post /\
      Forall (fun e => beats s e.2) pre /\ Forall (fun e => not_above s e.2) post.

Definition no_best (scores : list (string * option Sc)) : Prop :=
    Forall (fun e => not_above szero e.2) scores.

Definition retrieve_spec (kb : knowledge_base) (question : string) (top_k : Z)
      (res : option string * Sc * list string) : Prop :=
    let q_emb := encode question in
    match res with
    | (Some l, s, ctx) =>
        first_best (label_scores kb q_emb top_k) l s /\
        exists texts, dict_get l kb = Some texts /\
          ctx = contexts_of texts (label_top q_emb top_k (encode_batch texts))
    | (None, s, ctx) => no_best (label_scores kb q_emb top_k) /\ s = szero /\ ctx = []
    end.
End Retriever.

Arguments best_state Sc : clear implicits.

Section Refinement.
Context {Sc : Type} `{ScoreLaws Sc} {V : Type} `{Encoder V} `{Similarity V Sc}.
Variable kb : knowledge_base.
Variable q_emb : V.
Variable top_k : Z.

  (** ** One label *)

Lemma kb_index_ok label texts i :
    dict_get label kb = Some texts -> i < length texts ->
    kb_index kb label i = Ok (nth i texts EmptyString).
  Proof.
    intros Hget Hi. unfold kb_index, kb_get. rewrite Hget. simpl.
    destruct (lookup_lt_is_Some_2 texts i Hi) as [t Ht].
    rewrite Ht. by rewrite (nth_lookup_Some texts i _ t Ht).
  Qed.

Lemma mapM_kb_index label texts top :
    dict_get label kb = Some texts -> (forall i, i ∈ top -> i < length texts) ->
    mapM (kb_index kb label) top = Ok (contexts_of texts top).
  Proof.
    intros Hget. induction top as [|i top IH]; intros Hr; [done|].
    simpl. rewrite (kb_index_ok label texts i Hget) by set_solver. simpl.
    rewrite IH by set_solver. done.
  Qed.

  (** The state after a label whose group is [texts], without raising. *)
Definition step (st : best_state Sc) (label : string) (texts : list string)
    : best_state Sc :=
    let embs := encode_batch texts in
    match label_score q_emb top_k embs with
    | Some avg =>
        if sltb (best_score st) avg then
          {| best_label := Some label; best_score := avg;
             top_contexts := contexts_of texts (label_top q_emb top_k embs) |}
        else st
    | None => st
    end.

Lemma scan_label_ok st label texts :
    dict_get label kb = Some texts -> texts <> [] ->
    scan_label kb q_emb top_k st (label, encode_batch texts) = Ok (step st label texts).
  Proof.
    intros Hget Hne.
    assert (Hrow : cosine_row q_emb (encode_batch texts) =
                   Ok (similarity q_emb <$> encode_batch texts)) by (rewrite encode_batch_fmap; by destruct texts).
    unfold scan_label. rewrite Hrow. cbn beta iota delta [mbind result_bind].
    unfold step, label_score, label_top.
    destruct (avg_score _ _); [|done]. case_match; [|done].
    rewrite (mapM_kb_index label texts); [done..|].
    intros i Hi. apply top_indices_range in Hi.
    rewrite encode_batch_fmap in Hi. by rewrite !length_fmap in Hi.
  Qed.

  (** ** The loop *)

Lemma scan_labels_ok es st :
    (forall label texts, (label, texts) ∈ es -> dict_get label kb = Some texts) ->
    Forall (fun e : string * list string => e.2 <> []) es ->
    scan_labels kb q_emb top_k st (build_index es) =
      Ok (fold_left (fun st e => step st e.1 e.2) es st).
  Proof.
    revert st; induction es as [|[label texts] es IH]; intros st Hget Hne; [done|].
    apply Forall_cons in Hne as [Hne1 Hne].
    change (build_index ((label, texts) :: es))
      with ((label, encode_batch texts) :: build_index es).
    cbn [scan_labels fold_left].
    rewrite scan_label_ok; [|by apply Hget; left|done].
    cbn beta iota delta [mbind result_bind].
    apply IH; [|done]. intros l ts Hin. apply Hget. by right.
  Qed.

  (** ** The invariant of the scan *)

  (** After the labels whose scores are [pre], the state is the initial
      one and no score was positive, or it holds the first strict maximum
      of [pre] with that label's contexts. *)
Definition scan_inv (pre : list (string * option Sc)) (st : best_state Sc) : Prop :=
    (best_label st = None /\ best_score st = szero /\ top_contexts st = [] /\
     no_best pre) \/
    (exists l texts, best_label st = Some l /\ first_best pre l (best_score st) /\
       dict_get l kb = Some texts /\
       top_contexts st = contexts_of texts (label_top q_emb top_k (encode_batch texts))).

Lemma beats_lt s a o : beats s o -> sltb s a = true -> beats a o.
  Proof. destruct o; simpl; [apply sltb_trans|done]. Qed.

Lemma not_above_lt s a o : not_above s o -> sltb s a = true -> beats a o.
  Proof. destruct o; simpl; [apply sle_lt_trans|done]. Qed.

Lemma Forall_snoc {A} (P : A -> Prop) l x : Forall P l -> P x -> Forall P (l ++ [x]).
  Proof. intros Hl Hx. apply Forall_app; split; [done|by constructor]. Qed.

Lemma step_inv pre st label texts :
    dict_get label kb = Some texts -> scan_inv pre st ->
    scan_inv (pre ++ [(label, label_score q_emb top_k (encode_batch texts))])
             (step st label texts).
  Proof.
    intros Hget Hinv. unfold step.
    destruct (label_score q_emb top_k (encode_batch texts)) as [a|] eqn:Ha.
    2:{ destruct Hinv as [(Hl & Hs & Hc & Hno)|(l & ts & Hl & (Hpos & pre1 & post1 & Hpre & Hb & Hp) & Hg & Hc)].
        - left. split_and!; [done..|by apply Forall_snoc].
        - right. exists l, ts. split_and!; [done| |done..]. split; [done|].
          exists pre1, (post1 ++ [(label, None)]). split_and!; [|done|by apply Forall_snoc].
          by rewrite Hpre, <- app_assoc. }
    destruct (sltb (best_score st) a) eqn:Hlt.
    - right. exists label, texts. split_and!; [done| |done..]. simpl.
      destruct Hinv as [(Hl & Hs & Hc & Hno)|(l & ts & Hl & (Hpos & pre1 & post1 & Hpre & Hb & Hp) & Hg & Hc)].
      + rewrite Hs in Hlt. split; [done|]. exists pre, []. split_and!; [done| |constructor].
        eapply Forall_impl; [exact Hno|]. intros e He. exact (not_above_lt _ _ _ He Hlt).
      + split; [by eapply sltb_trans|]. exists pre, []. split_and!; [done| |constructor].
        rewrite Hpre. apply Forall_app. split; [|constructor].
        * eapply Forall_impl; [exact Hb|]. intros e He. exact (beats_lt _ _ _ He Hlt).
        * done.
        * eapply Forall_impl; [exact Hp|]. intros e He. exact (not_above_lt _ _ _ He Hlt).
    - destruct Hinv as [(Hl & Hs & Hc & Hno)|(l & ts & Hl & (Hpos & pre1 & post1 & Hpre & Hb & Hp) & Hg & Hc)].
      + left. rewrite Hs in Hlt. split_and!; [done..|by apply Forall_snoc].
      + right. exists l, ts. split_and!; [done| |done..]. split; [done|].
        exists pre1, (post1 ++ [(label, Some a)]). split_and!; [|done|by apply Forall_snoc].
        by rewrite Hpre, <- app_assoc.
  Qed.

Lemma fold_step_inv es pre st :
    (forall label texts, (label, texts) ∈ es -> dict_get label kb = Some texts) ->
    scan_inv pre st ->
    scan_inv (pre ++ label_scores es q_emb top_k)
             (fold_left (fun st e => step st e.1 e.2) es st).
  Proof.
    revert pre st; induction es as [|[label texts] es IH]; intros pre st Hget Hinv.
    - by rewrite app_nil_r.
    - cbn [fold_left label_scores fmap list_fmap].
      replace (pre ++ _ :: _) with
        ((pre ++ [(label, label_score q_emb top_k (encode_batch texts))]) ++
         label_scores es q_emb top_k) by (by rewrite <- app_assoc).
      apply IH; [intros l ts Hin; apply Hget; by right|].
      apply step_inv; [apply Hget; by left|done].
  Qed.

Lemma scan_labels_value_error es st :
  (forall label texts, (label, texts) ∈ es -> dict_get label kb = Some texts) ->
  (exists l, (l, []) ∈ es) ->
  exists msg, scan_labels kb q_emb top_k st (build_index es) = Err (ValueError msg).
Proof.
  revert st; induction es as [|[label texts] es IH]; intros st Hget [l Hl];
    [set_solver|].
  change (build_index ((label, texts) :: es))
    with ((label, encode_batch texts) :: build_index es).
  cbn [scan_labels].
  destruct texts as [|t ts].
  - by eexists.
  - rewrite scan_label_ok; [|by apply Hget; left|done].
    cbn beta iota delta [mbind result_bind].
    apply IH; [intros l' ts' Hin; apply Hget; by right|].
    exists l. apply elem_of_cons in Hl as [Hl|Hl]; [done|done].
Qed.

(** With [top_k = 0] no index is selected, so no label is ever taken. *)
Lemma step_top_k_zero st label texts :
  top_k = 0%Z -> step st label texts = st.
Proof.
  intros Hk. unfold step, label_score, label_top, avg_score, top_indices.
  by rewrite Hk, py_take_nonneg by lia.
Qed.
End Refinement.

(** ** The refinement theorem *)

Lemma retrieve_answer_total {Sc V} `{ScoreLaws Sc} `{Encoder V} `{Similarity V Sc}
    (kb : knowledge_base) question top_k :
  NoDup (dict_keys kb) -> Forall (fun e : string * list string => e.2 <> []) kb ->
  exists res : option string * Sc * list string,
    retrieve_answer (load_rag kb) question top_k = Ok res /\
    retrieve_spec kb question top_k res.
Proof.
  intros Hnd Hne.
  assert (Hget : forall l ts, (l, ts) ∈ kb -> dict_get l kb = Some ts)
    by (intros; by apply dict_get_NoDup).
  unfold retrieve_answer. simpl. rewrite scan_labels_ok by done.
  cbn beta iota delta [mbind result_bind mret result_ret].
  eexists; split; [reflexivity|].
  assert (Hinit : scan_inv kb (encode question) top_k [] init_best).
  { left. split_and!; [done..|constructor]. }
  pose proof (fold_step_inv kb (encode question) top_k kb [] init_best Hget Hinit)
    as [(Hl & Hs & Hc & Hno)|(l & ts & Hl & Hbest & Hg & Hc)];
    unfold retrieve_spec; rewrite Hl.
  - by rewrite Hs, Hc.
  - split; [done|]. by exists ts.
Qed.

(** C1: on a knowledge base with distinct labels and no empty group,
    [retrieve_answer] returns without raising, and its result is the
    first label (in dict order) whose score is positive, strictly greater
    than every earlier score and at least every later one, with that
    label's texts at its top indices in ranked order; or, when no score is
    positive, [(None, 0, [])]. *)
Theorem retrieve_answer_refines {Sc V} `{ScoreLaws Sc} `{Encoder V} `{Similarity V Sc}
    (kb : knowledge_base) question top_k :
  NoDup (dict_keys kb) -> Forall (fun e : string * list string => e.2 <> []) kb ->
  exists res : option string * Sc * list string,
    retrieve_answer (load_rag kb) question top_k = Ok res /\
    retrieve_spec kb question top_k res.
Proof. apply retrieve_answer_total. Qed.

(** The result of the code is the one the refinement theorem describes. *)
Lemma retrieve_answer_spec {Sc V} `{ScoreLaws Sc} `{Encoder V} `{Similarity V Sc}
    (kb : knowledge_base) question top_k (res : option string * Sc * list string) :
  NoDup (dict_keys kb) -> Forall (fun e : string * list string => e.2 <> []) kb ->
  retrieve_answer (load_rag kb) question top_k = Ok res ->
  retrieve_spec kb question top_k res.
Proof.
  intros Hnd Hne Hres.
  destruct (retrieve_answer_total kb question top_k Hnd Hne) as (res' & Hres' & Hspec).
  rewrite Hres in Hres'. by simplify_eq.
Qed.

(** C2: [retrieve_answer] raises exactly when some label of the
    knowledge base has no chunk, and then it raises sklearn's
    [ValueError] (at query time, not when the knowledge base is loaded). *)
Theorem retrieve_answer_raises {Sc V} `{ScoreLaws Sc} `{Encoder V} `{Similarity V Sc}
    (kb : knowledge_base) question top_k :
  NoDup (dict_keys kb) ->
  (exists msg, @retrieve_answer Sc _ V _ _ (load_rag kb) question top_k = Err (ValueError msg)) <->
  (exists label, (label, []) ∈ kb).
Proof.
  intros Hnd.
  assert (Hget : forall l ts, (l, ts) ∈ kb -> dict_get l kb = Some ts)
    by (intros; by apply dict_get_NoDup).
  split.
  - intros [msg Hmsg].
    destruct (decide (Forall (fun e : string * list string => e.2 <> []) kb)) as [Hne|Hne].
    + destruct (retrieve_answer_total kb question top_k Hnd Hne) as (res & Hres & _).
      by rewrite Hres in Hmsg.
    + apply not_Forall_Exists in Hne; [|apply _].
      apply Exists_exists in Hne as ([l ts] & Hin & Hts).
      exists l. simpl in Hts. apply dec_stable in Hts. by subst.
  - intros Hempty.
    destruct (scan_labels_value_error kb (encode question) top_k kb init_best Hget Hempty)
      as [msg Hmsg].
    exists msg. unfold retrieve_answer. simpl. by rewrite Hmsg.
Qed.

Lemma retrieve_contexts_length {Sc V} `{ScoreLaws Sc} `{Encoder V} `{Similarity V Sc}
    (kb : knowledge_base) question top_k label (s : Sc) ctx texts :
  NoDup (dict_keys kb) -> Forall (fun e : string * list string => e.2 <> []) kb ->
  retrieve_answer (load_rag kb) question top_k = Ok (Some label, s, ctx) ->
  dict_get label kb = Some texts ->
  Z.of_nat (length ctx) =
    if (0 <=? top_k)%Z then Z.min top_k (Z.of_nat (length texts))
    else Z.max 0 (Z.of_nat (length texts) + top_k).
Proof.
  intros Hnd Hne Hres Hget.
  destruct (retrieve_answer_spec kb question top_k _ Hnd Hne Hres)
    as (_ & texts' & Hget' & ->).
  rewrite Hget in Hget'. simplify_eq.
  unfold contexts_of, label_top. rewrite length_fmap, length_top_indices.
  rewrite encode_batch_fmap. by rewrite !length_fmap.
Qed.

(** C4: the winner's contexts number exactly what Python's slice
    [[:top_k]] keeps of its chunks: [min top_k n] for [top_k >= 0] and
    [max 0 (n + top_k)] for a negative [top_k]. *)
Theorem retrieve_answer_contexts_length {Sc V} `{ScoreLaws Sc} `{Encoder V} `{Similarity V Sc}
    (kb : knowledge_base) question top_k label (s : Sc) ctx texts :
  NoDup (dict_keys kb) -> Forall (fun e : string * list string => e.2 <> []) kb ->
  retrieve_answer (load_rag kb) question top_k = Ok (Some label, s, ctx) ->
  dict_get label kb = Some texts ->
  Z.of_nat (length ctx) =
    if (0 <=? top_k)%Z then Z.min top_k (Z.of_nat (length texts))
    else Z.max 0 (Z.of_nat (length texts) + top_k).
Proof. apply retrieve_contexts_length. Qed.

(** C13: with [top_k = 0] every label's mean is numpy's [nan], which is
    never greater than the best score: the result is always [(None, 0,
    [])], whatever the question. *)
Theorem retrieve_answer_top_k_zero {Sc V} `{ScoreLaws Sc} `{Encoder V} `{Similarity V Sc}
    (kb : knowledge_base) question :
  NoDup (dict_keys kb) -> Forall (fun e : string * list string => e.2 <> []) kb ->
  @retrieve_answer Sc _ V _ _ (load_rag kb) question 0 = Ok (None, szero, []).
Proof.
  intros Hnd Hne.
  assert (Hget : forall l ts, (l, ts) ∈ kb -> dict_get l kb = Some ts)
    by (intros; by apply dict_get_NoDup).
  unfold retrieve_answer. simpl. rewrite scan_labels_ok by done.
  cbn beta iota delta [mbind result_bind mret result_ret].
  assert (Hfold : forall es st,
    fold_left (fun st e => step (encode question) 0 st e.1 e.2) es st = st).
  { induction es as [|e es IH]; intros st; [done|]. simpl.
    rewrite step_top_k_zero by done. apply IH. }
  by rewrite Hfold.
Qed.

Lemma app_cons_lookup_middle {A} (pre1 post1 pre2 post2 : list A) x1 x2 :
  pre1 ++ x1 :: post1 = pre2 ++ x2 :: post2 -> length pre1 < length pre2 ->
  x1 ∈ pre2 /\ x2 ∈ post1.
Proof.
  intros Heq Hlt. split.
  - apply (f_equal (fun l => l !! length pre1)) in Heq.
    rewrite (list_lookup_middle pre1 post1 x1) in Heq by done.
    rewrite lookup_app_l in Heq by done. by eapply list_elem_of_lookup_2.
  - apply (f_equal (fun l => l !! length pre2)) in Heq.
    rewrite (list_lookup_middle pre2 post2 x2) in Heq by done.
    rewrite lookup_app_r in Heq by lia.
    replace (length pre2 - length pre1) with (S (length pre2 - length pre1 - 1)) in Heq by lia.
    simpl in Heq. by eapply list_elem_of_lookup_2.
Qed.

Lemma first_best_det {Sc} `{ScoreLaws Sc} scores l1 (s1 : Sc) l2 s2 :
  first_best scores l1 s1 -> first_best scores l2 s2 -> l1 = l2 /\ s1 = s2.
Proof.
  intros (_ & pre1 & post1 & Hs1 & Hb1 & Hp1) (_ & pre2 & post2 & Hs2 & Hb2 & Hp2).
  rewrite Hs1 in Hs2.
  destruct (Nat.lt_total (length pre1) (length pre2)) as [Hlt|[Heq|Hlt]].
  - exfalso. destruct (app_cons_lookup_middle _ _ _ _ _ _ Hs2 Hlt) as [Hin1 Hin2].
    rewrite Forall_forall in Hb2, Hp1.
    specialize (Hb2 _ Hin1). specialize (Hp1 _ Hin2). simpl in *.
    unfold sle in Hp1. congruence.
  - apply app_inj_1 in Hs2 as [_ Hs2]; [|done]. by simplify_eq.
  - exfalso. symmetry in Hs2.
    destruct (app_cons_lookup_middle _ _ _ _ _ _ Hs2 Hlt) as [Hin1 Hin2].
    rewrite Forall_forall in Hb1, Hp2.
    specialize (Hb1 _ Hin1). specialize (Hp2 _ Hin2). simpl in *.
    unfold sle in Hp2. congruence.
Qed.

Lemma label_score_bounds {Sc V} `{ScoreLaws Sc} `{Similarity V Sc} (lo hi : Sc) q k embs s :
  (forall v, sle lo (similarity q v) /\ sle (similarity q v) hi) ->
  label_score q k embs = Some s -> sle lo s /\ sle s hi.
Proof.
  intros Hb Hs. unfold label_score, avg_score in Hs.
  eapply np_mean_bounds; [exact Hs|].
  apply Forall_forall. intros x Hx. apply list_elem_of_fmap in Hx as (i & -> & Hi).
  unfold label_top in Hi. apply top_indices_range in Hi.
  assert (Hin : key (similarity q <$> embs) i ∈ similarity q <$> embs).
  { apply list_elem_of_In, nth_In. done. }
  apply list_elem_of_fmap in Hin as (v & -> & _). apply Hb.
Qed.

Lemma first_best_elem {Sc} `{ScoreLaws Sc} scores l (s : Sc) :
  first_best scores l s -> (l, Some s) ∈ scores.
Proof. intros (_ & pre & post & -> & _). set_solver. Qed.

(** When every similarity lies in [[lo, hi]], a winning score lies in
    [[lo, hi]] and is positive. *)
Lemma retrieve_answer_score_range {Sc V} `{ScoreLaws Sc} `{Encoder V} `{Similarity V Sc}
    (kb : knowledge_base) question top_k (lo hi : Sc) label s ctx :
  NoDup (dict_keys kb) -> Forall (fun e : string * list string => e.2 <> []) kb ->
  (forall u v, sle lo (similarity u v) /\ sle (similarity u v) hi) ->
  retrieve_answer (load_rag kb) question top_k = Ok (Some label, s, ctx) ->
  sltb szero s = true /\ sle lo s /\ sle s hi.
Proof.
  intros Hnd Hne Hb Hres.
  destruct (retrieve_answer_spec kb question top_k _ Hnd Hne Hres) as [Hbest _].
  split; [apply Hbest|].
  apply first_best_elem in Hbest. unfold label_scores in Hbest.
  apply list_elem_of_fmap in Hbest as ([l ts] & Heq & _). simplify_eq.
  eapply label_score_bounds; [|done]. intros v. apply Hb.
Qed.

Lemma label_scores_elem {Sc V} `{ScoreLaws Sc} `{Encoder V} `{Similarity V Sc}
    (kb : knowledge_base) (q : V) k l (o : option Sc) :
  (l, o) ∈ label_scores kb q k <->
  exists ts, (l, ts) ∈ kb /\ o = label_score q k (encode_batch ts).
Proof.
  unfold label_scores. rewrite list_elem_of_fmap. split.
  - intros ([l' ts] & [= -> ->] & Hin). by exists ts.
  - intros (ts & Hin & ->). by exists (l, ts).
Qed.

Lemma label_scores_keys {Sc V} `{ScoreLaws Sc} `{Encoder V} `{Similarity V Sc}
    (kb : knowledge_base) (q : V) k :
  fst <$> label_scores kb q k = dict_keys kb.
Proof. unfold label_scores, dict_keys. rewrite <- !list_fmap_compose. done. Qed.

(** A label whose score is strictly above every other label's is the
    first strict maximum in any order of the labels. *)
Lemma first_best_unique_max {Sc V} `{ScoreLaws Sc} `{Encoder V} `{Similarity V Sc}
    (kb : knowledge_base) (q : V) k l texts (s : Sc) :
  NoDup (dict_keys kb) -> (l, texts) ∈ kb ->
  label_score q k (encode_batch texts) = Some s -> sltb szero s = true ->
  (forall l' ts', (l', ts') ∈ kb -> l' <> l -> beats s (label_score q k (encode_batch ts'))) ->
  first_best (label_scores kb q k) l s.
Proof.
  intros Hnd Hin Hs Hpos Hothers. split; [done|].
  assert (Hel : (l, Some s) ∈ label_scores kb q k)
    by (apply label_scores_elem; exists texts; by rewrite Hs).
  apply list_elem_of_split in Hel as (pre & post & Hsplit).
  exists pre, post. split; [done|].
  pose proof Hnd as Hnd'. rewrite <- (label_scores_keys kb q k), Hsplit, fmap_app in Hnd'.
  simpl in Hnd'. apply NoDup_app in Hnd' as (_ & Hdisj & Hnd2). apply NoDup_cons in Hnd2 as [Hnot _].
  assert (Hother : forall e, e ∈ pre ++ post -> beats s e.2).
  { intros [l' o] He.
    assert (Hl' : l' <> l).
    { intros ->. apply elem_of_app in He as [He|He].
      - apply (Hdisj l); [by apply (list_elem_of_fmap_2 fst _ (l, o))|set_solver].
      - apply Hnot. by apply (list_elem_of_fmap_2 fst _ (l, o)). }
    assert (He' : (l', o) ∈ label_scores kb q k) by (rewrite Hsplit; set_solver).
    apply label_scores_elem in He' as (ts' & Hin' & ->). by apply (Hothers l' ts'). }
  split; apply Forall_forall; intros e He.
  - apply Hother. set_solver.
  - destruct e as [l' [o|]]; simpl; [|done].
    apply sltb_asym. apply (Hother (l', Some o)). set_solver.
Qed.

(** C20: the answer does not depend on the order of the labels when one
    label's score is strictly above all others: any reordering of the
    knowledge base (a different dict iteration order) returns the same
    label, score and contexts. *)
Theorem retrieve_answer_order_independent {Sc V} `{ScoreLaws Sc} `{Encoder V} `{Similarity V Sc}
    (kb kb' : knowledge_base) question top_k label (s : Sc) ctx :
  NoDup (dict_keys kb) -> Forall (fun e : string * list string => e.2 <> []) kb ->
  kb' ≡ₚ kb ->
  retrieve_answer (load_rag kb) question top_k = Ok (Some label, s, ctx) ->
  (forall l' ts', (l', ts') ∈ kb -> l' <> label ->
     beats s (label_score (encode question) top_k (encode_batch ts'))) ->
  retrieve_answer (load_rag kb') question top_k = Ok (Some label, s, ctx).
Proof.
  intros Hnd Hne Hperm Hres Hothers.
  assert (Hnd' : NoDup (dict_keys kb')) by (unfold dict_keys; by rewrite Hperm).
  assert (Hne' : Forall (fun e : string * list string => e.2 <> []) kb') by (by rewrite Hperm).
  destruct (retrieve_answer_spec kb question top_k _ Hnd Hne Hres)
    as (Hbest & texts & Hget & Hctx).
  assert (Hin : (label, texts) ∈ kb) by (by apply dict_get_In).
  assert (Hs : label_score (encode question) top_k (encode_batch texts) = Some s).
  { apply first_best_elem, label_scores_elem in Hbest as (ts & Hts & Hsc).
    by rewrite (dict_get_NoDup _ _ _ Hnd Hts) in Hget; simplify_eq. }
  assert (Hbest' : first_best (label_scores kb' (encode question) top_k) label s).
  { apply (first_best_unique_max kb' _ _ label texts); [done|by rewrite Hperm|done|apply Hbest|].
    intros l' ts' Hin'. apply Hothers. by rewrite <- Hperm. }
  destruct (retrieve_answer_total kb' question top_k Hnd' Hne') as (res & Hres' & Hspec).
  rewrite Hres'. destruct res as [[[l2|] s2] ctx2]; simpl in Hspec.
  - destruct Hspec as (Hb2 & texts2 & Hget2 & ->).
    destruct (first_best_det _ _ _ _ _ Hbest' Hb2) as [<- <-].
    assert (Hget' : dict_get label kb' = Some texts) by (apply dict_get_NoDup; [done|by rewrite Hperm]).
    rewrite Hget' in Hget2. simplify_eq. by subst.
  - exfalso. destruct Hspec as (Hno & _ & _).
    apply first_best_elem in Hbest'. unfold no_best in Hno. rewrite Forall_forall in Hno.
    specialize (Hno _ Hbest'). simpl in Hno. unfold sle in Hno. rewrite (proj1 Hbest) in Hno.
    done.
Qed.

(** ** The result as a tagged union

    The spec asks callers to treat "no match" as an explicit success
    outcome.  The triple [(best_label, best_score, top_contexts)] of the
    code encodes the tagged union [retrieval]: [NoMatch] as [(None, 0,
    [])], [Match] as a label of the knowledge base with a positive score
    and some of its texts. *)
Inductive retrieval {Sc : Type} :=
| NoMatch
| Match (label : string) (score : Sc) (contexts : list string).
Arguments retrieval : clear implicits.

Definition of_retrieval {Sc} `{ScoreOps Sc} (r : retrieval Sc) : option string * Sc * list string :=
  match r with
  | NoMatch => (None, szero, [])
  | Match l s ctx => (Some l, s, ctx)
  end.

Definition retrieval_wf {Sc} `{ScoreOps Sc} (kb : knowledge_base) (top_k : Z)
    (r : retrieval Sc) : Prop :=
  match r with
  | NoMatch => True
  | Match l s ctx =>
      sltb szero s = true /\
      exists texts, dict_get l kb = Some texts /\
        1 <= length ctx /\ (Z.of_nat (length ctx) <= top_k)%Z /\
        Forall (fun c => c ∈ texts) ctx
  end.

Lemma contexts_of_in texts top :
  Forall (fun i => i < length texts) top -> Forall (fun c => c ∈ texts) (contexts_of texts top).
Proof.
  intros Hall. apply Forall_fmap. eapply Forall_impl; [exact Hall|].
  intros i Hi. simpl. apply list_elem_of_In, nth_In. done.
Qed.



(** C26: with [top_k >= 1] on a knowledge base with distinct labels and no
    empty group, the triple [retrieve_answer] returns is always the
    encoding of a well-formed [retrieval]: either [(None, 0, [])], or a
    label of the knowledge base, a positive score, and between one and
    [top_k] of that label's texts. *)
Theorem retrieve_answer_typed {Sc V} `{ScoreLaws Sc} `{Encoder V} `{Similarity V Sc}
    (kb : knowledge_base) question top_k res :
  NoDup (dict_keys kb) -> Forall (fun e : string * list string => e.2 <> []) kb ->
  (1 <= top_k)%Z ->
  retrieve_answer (load_rag kb) question top_k = Ok res ->
  exists r : retrieval Sc, retrieval_wf kb top_k r /\ res = of_retrieval r.
Proof.
  intros Hnd Hne Hk Hres.
  pose proof (retrieve_answer_spec kb question top_k res Hnd Hne Hres) as Hspec.
  destruct res as [[[l|] s] ctx]; simpl in Hspec.
  - destruct Hspec as ([Hpos _] & texts & Hget & Hctx).
    exists (Match l s ctx). split; [|done]. split; [done|]. exists texts.
    pose proof (retrieve_contexts_length kb question top_k l s ctx texts Hnd Hne Hres Hget)
      as Hlen.
    assert (Htexts : texts <> []).
    { apply dict_get_In in Hget. exact (proj1 (Forall_forall _ _) Hne _ Hget). }
    destruct texts as [|t texts]; [done|]. simpl in Hlen.
    rewrite (proj2 (Z.leb_le 0 top_k)) in Hlen by lia.
    split_and!; [done|lia|lia|]. subst ctx.
    apply contexts_of_in, Forall_forall. intros i Hi.
    apply top_indices_range in Hi. rewrite encode_batch_fmap in Hi. by rewrite !length_fmap in Hi.
  - destruct Hspec as (_ & -> & ->). by exists NoMatch.
Qed.

(** ** Witnesses on the spec's scenario

    The sentence-transformer and cosine are replaced by a table of
    similarities between the question and each chunk: a text is its own
    vector. *)

From Stdlib Require Import QArith.

Module Fixture.
#[export] Instance text_encoder : Encoder string := fun s => s.

Definition sim_table (q t : string) : Q :=
  if decide (t = "He demanded gold from her family.") then Qmake 4 5
  else if decide (t = "He hit her repeatedly.") then Qmake 1 10
  else 0.

#[export] Instance table_similarity : Similarity string Q := sim_table.

Definition kb_with_empty : knowledge_base :=
  scenario_knowledge ++ [("stalking", [])].
End Fixture.
Import Fixture.

Lemma retrieve_answer_raises_witness :
  NoDup (dict_keys kb_with_empty) /\
  ((exists msg, @retrieve_answer Q _ string _ _ (load_rag kb_with_empty)
                  "Was dowry demanded?" 2%Z = Err (ValueError msg)) <->
   (exists label, (label, []) ∈ kb_with_empty)).
Proof.
  assert (Hnd : NoDup (dict_keys kb_with_empty))
    by (apply (bool_decide_unpack _); vm_compute; reflexivity).
  split; [exact Hnd|]. exact (retrieve_answer_raises kb_with_empty _ _ Hnd).
Defined.

Lemma retrieve_answer_contexts_length_witness :
  NoDup (dict_keys scenario_knowledge) /\
  Forall (fun e : string * list string => e.2 <> []) scenario_knowledge /\
  retrieve_answer (load_rag scenario_knowledge) "Was dowry demanded?" 5%Z =
    Ok (Some "dowry_demand", Qmake 4 5, ["He demanded gold from her family."]) /\
  dict_get "dowry_demand" scenario_knowledge = Some ["He demanded gold from her family."] /\
  Z.of_nat (length ["He demanded gold from her family."]) =
    (if (0 <=? 5)%Z then Z.min 5 (Z.of_nat (length ["He demanded gold from her family."]))
     else Z.max 0 (Z.of_nat (length ["He demanded gold from her family."]) + 5))%Z.
Proof.
  assert (Hnd : NoDup (dict_keys scenario_knowledge))
    by (apply (bool_decide_unpack _); vm_compute; reflexivity).
  assert (Hne : Forall (fun e : string * list string => e.2 <> []) scenario_knowledge)
    by (apply (bool_decide_unpack _); vm_compute; reflexivity).
  assert (Hres : retrieve_answer (load_rag scenario_knowledge) "Was dowry demanded?" 5%Z =
    Ok (Some "dowry_demand", Qmake 4 5, ["He demanded gold from her family."]))
    by (vm_compute; reflexivity).
  assert (Hget : dict_get "dowry_demand" scenario_knowledge =
                 Some ["He demanded gold from her family."]) by reflexivity.
  split_and!; [exact Hnd|exact Hne|exact Hres|exact Hget|].
  exact (retrieve_answer_contexts_length scenario_knowledge _ _ _ _ _ _ Hnd Hne Hres Hget).
Defined.

Lemma retrieve_answer_top_k_zero_witness :
  NoDup (dict_keys scenario_knowledge) /\
  Forall (fun e : string * list string => e.2 <> []) scenario_knowledge /\
  @retrieve_answer Q _ string _ _ (load_rag scenario_knowledge)
    "Was dowry demanded?" 0%Z = Ok (None, szero, []).
Proof.
  assert (Hnd : NoDup (dict_keys scenario_knowledge))
    by (apply (bool_decide_unpack _); vm_compute; reflexivity).
  assert (Hne : Forall (fun e : string * list string => e.2 <> []) scenario_knowledge)
    by (apply (bool_decide_unpack _); vm_compute; reflexivity).
  split_and!; [exact Hnd|exact Hne|].
  exact (retrieve_answer_top_k_zero scenario_knowledge _ Hnd Hne).
Defined.


Lemma retrieve_answer_refines_witness :
  NoDup (dict_keys scenario_knowledge) /\
  Forall (fun e : string * list string => e.2 <> []) scenario_knowledge /\
  exists res : option string * Q * list string,
    retrieve_answer (load_rag scenario_knowledge) "Was dowry demanded?" 2%Z = Ok res /\
    retrieve_spec scenario_knowledge "Was dowry demanded?" 2%Z res.
Proof.
  assert (Hnd : NoDup (dict_keys scenario_knowledge))
    by (apply (bool_decide_unpack _); vm_compute; reflexivity).
  assert (Hne : Forall (fun e : string * list string => e.2 <> []) scenario_knowledge)
    by (apply (bool_decide_unpack _); vm_compute; reflexivity).
  split_and!; [exact Hnd|exact Hne|].
  exact (retrieve_answer_refines scenario_knowledge "Was dowry demanded?" 2%Z Hnd Hne).
Defined.

Lemma retrieve_answer_order_independent_witness :
  let kb' := [("physical_abuse", ["He hit her repeatedly."]);
              ("dowry_demand", ["He demanded gold from her family."])] in
  NoDup (dict_keys scenario_knowledge) /\
  Forall (fun e : string * list string => e.2 <> []) scenario_knowledge /\
  kb' ≡ₚ scenario_knowledge /\
  retrieve_answer (load_rag scenario_knowledge) "Was dowry demanded?" 2%Z =
    Ok (Some "dowry_demand", Qmake 4 5, ["He demanded gold from her family."]) /\
  retrieve_answer (load_rag kb') "Was dowry demanded?" 2%Z =
    Ok (Some "dowry_demand", Qmake 4 5, ["He demanded gold from her family."]).
Proof.
  intros kb'.
  assert (Hnd : NoDup (dict_keys scenario_knowledge))
    by (apply (bool_decide_unpack _); vm_compute; reflexivity).
  assert (Hne : Forall (fun e : string * list string => e.2 <> []) scenario_knowledge)
    by (apply (bool_decide_unpack _); vm_compute; reflexivity).
  assert (Hp : kb' ≡ₚ scenario_knowledge) by apply perm_swap.
  assert (Hres : retrieve_answer (load_rag scenario_knowledge) "Was dowry demanded?" 2%Z =
    Ok (Some "dowry_demand", Qmake 4 5, ["He demanded gold from her family."]))
    by (vm_compute; reflexivity).
  assert (Hothers : forall l' ts', (l', ts') ∈ scenario_knowledge -> l' <> "dowry_demand" ->
    beats (Qmake 4 5) (label_score (encode "Was dowry demanded?") 2%Z (encode_batch ts'))).
  { intros l' ts' Hin Hl. unfold scenario_knowledge in Hin.
    apply elem_of_cons in Hin as [Hin|Hin]; [by injection Hin as -> _|].
    apply elem_of_cons in Hin as [Hin|Hin]; [injection Hin as _ ->|set_solver].
    vm_compute. reflexivity. }
  split_and!; [exact Hnd|exact Hne|exact Hp|exact Hres|].
  exact (retrieve_answer_order_independent scenario_knowledge kb' _ _ _ _ _ Hnd Hne Hp Hres Hothers).
Defined.

Lemma retrieve_answer_typed_witness :
  NoDup (dict_keys scenario_knowledge) /\
  Forall (fun e : string * list string => e.2 <> []) scenario_knowledge /\
  retrieve_answer (load_rag scenario_knowledge) "Was dowry demanded?" 2%Z =
    Ok (Some "dowry_demand", Qmake 4 5, ["He demanded gold from her family."]) /\
  exists r : retrieval Q, retrieval_wf scenario_knowledge 2%Z r /\
    (Some "dowry_demand", Qmake 4 5, ["He demanded gold from her family."]) = of_retrieval r.
Proof.
  assert (Hnd : NoDup (dict_keys scenario_knowledge))
    by (apply (bool_decide_unpack _); vm_compute; reflexivity).
  assert (Hne : Forall (fun e : string * list string => e.2 <> []) scenario_knowledge)
    by (apply (bool_decide_unpack _); vm_compute; reflexivity).
  assert (Hres : retrieve_answer (load_rag scenario_knowledge) "Was dowry demanded?" 2%Z =
    Ok (Some "dowry_demand", Qmake 4 5, ["He demanded gold from her family."]))
    by (vm_compute; reflexivity).
  split_and!; [exact Hnd|exact Hne|exact Hres|].
  exact (retrieve_answer_typed scenario_knowledge _ 2%Z _ Hnd Hne ltac:(lia) Hres).
Defined.
