(* ===== verification/Pipeline.v ===== *)
(** * The two scripts together: the ETL's file is the retriever's input

    [convert_to_json.py] runs once, offline: it groups the rows of the
    annotation sheet ([build_knowledge]), writes the dict with
    [json.dump] ([json_dump]) and prints a message ([convert_to_json_main],
    lines 4-21; the sheets [pd.read_excel] reads, lines 5-6, are its
    input).  [rag_utils.py] then reads the file back when it is imported
    ([load_rag_file], lines 9-14) and answers questions
    ([retrieve_answer]).  The theorems of this file compose the components
    along that path: the module state [rag_utils.py] builds from the file
    is the one built from the ETL's dict, and the retriever on it meets
    its specification for the grouped rows, with no assumption left on the
    knowledge base. *)

From S2P Require Import Prelude Score KnowledgeBase TextFile JsonDump JsonLoad JsonRoundtrip Embedding Retriever.

(** Line 21: [print("✅ legal_knowledge.json created successfully!")]. *)
Definition created_message : string := "✅ legal_knowledge.json created successfully!".

(** [convert_to_json.py], lines 8-21, from the rows [annotations.iterrows()]
    yields: the bytes left in [legal_knowledge.json] and the line printed. *)
Definition convert_to_json_main (annotations : list row) : result (bytes * string) :=
  knowledge ← build_knowledge annotations;
  raw ← json_dump (kb_to_py knowledge);
  mret (raw, created_message).

(** The labels and texts of the sheet are Python strings, so their UTF-8
    bytes are valid. *)
Definition rows_utf8 (rows : list row) : bool :=
  forallb (fun r : row => utf8_valid (bytes_of r.1) && utf8_valid (bytes_of r.2)) rows.

Lemma rows_utf8_elem rows r :
  rows_utf8 rows = true -> r ∈ rows ->
  utf8_valid (bytes_of r.1) = true /\ utf8_valid (bytes_of r.2) = true.
Proof.
  unfold rows_utf8. rewrite forallb_forall. intros Hall Hr.
  apply andb_true_iff, Hall, list_elem_of_In, Hr.
Qed.

(** The dict the ETL builds from such rows has valid UTF-8 labels and
    texts, so [json.dump] does not raise. *)
Lemma kb_to_py_utf8 rows (kb : knowledge_base) :
  rows_utf8 rows = true ->
  Forall (fun e : string * list string => e.1 ∈ fst <$> rows) kb ->
  concat (snd <$> kb) ≡ₚ snd <$> rows ->
  pyval_utf8 (kb_to_py kb) = true.
Proof.
  intros Hu Hkeys Htexts. simpl. apply forallb_forall. intros e He.
  apply list_elem_of_In, list_elem_of_fmap in He as ([l ts] & -> & He). simpl.
  apply andb_true_iff. split.
  - eapply Forall_forall in Hkeys; [|exact He]. simpl in Hkeys.
    apply list_elem_of_fmap in Hkeys as (r & -> & Hr).
    by apply rows_utf8_elem in Hr as [? _].
  - apply forallb_forall. intros x Hx.
    apply list_elem_of_In, list_elem_of_fmap in Hx as (t & -> & Ht). simpl.
    assert (Hin : t ∈ snd <$> rows).
    { rewrite <- Htexts. apply list_elem_of_In, in_concat. exists ts.
      split; [|by apply list_elem_of_In].
      apply list_elem_of_In, list_elem_of_fmap. by exists (l, ts). }
    apply list_elem_of_fmap in Hin as (r & -> & Hr).
    by apply rows_utf8_elem in Hr as [_ ?].
Qed.

Section Pipeline.
Context {V : Type} `{Encoder V}.

(** The file's bytes, loaded by [rag_utils.py], give back the ETL's dict. *)
Lemma load_dumped_knowledge (kb : knowledge_base) raw :
  NoDup (dict_keys kb) -> json_dump (kb_to_py kb) = Ok raw ->
  load_rag_file raw = Ok (Some (load_rag kb)).
Proof.
  intros Hnd Hd. unfold load_rag_file.
  rewrite (load_dump _ _ (kb_to_py_wf kb Hnd) Hd). cbn [mbind result_bind].
  by rewrite json_to_kb_to_py.
Qed.

(** C24: the ETL never fails on a sheet of Python strings, and
    [rag_utils.py], importing the file it writes, holds exactly the dict
    the ETL built, with its embeddings: the JSON file loses nothing
    between the two scripts. *)
Theorem convert_then_load rows :
  rows_utf8 rows = true ->
  exists knowledge raw,
    build_knowledge rows = Ok knowledge /\
    convert_to_json_main rows = Ok (raw, created_message) /\
    load_rag_file raw = Ok (Some (load_rag knowledge)).
Proof.
  intros Hu. destruct (build_knowledge_shape rows) as (kb & Hkb & Hnd & _ & Hkeys & Htexts).
  pose proof (json_dump_ok _ (kb_to_py_utf8 rows kb Hu Hkeys Htexts)) as Hd.
  exists kb, (iterencode 0 (kb_to_py kb)). split_and!; [done| |].
  - unfold convert_to_json_main. rewrite Hkb. simpl. by rewrite Hd.
  - by apply load_dumped_knowledge.
Qed.
End Pipeline.

(** C23: end to end: whenever [convert_to_json.py] succeeds, the module
    state [rag_utils.py] loads from its file answers every question
    without raising, and the answer is the one the retriever's
    specification gives for the rows grouped by label. *)
Theorem convert_then_retrieve {Sc V} `{ScoreLaws Sc} `{Encoder V} `{Similarity V Sc}
    rows raw msg question top_k :
  convert_to_json_main rows = Ok (raw, msg) ->
  exists (rs : rag_state V) (res : option string * Sc * list string),
    load_rag_file raw = Ok (Some rs) /\
    retrieve_answer rs question top_k = Ok res /\
    retrieve_spec (group_by_label rows) question top_k res.
Proof.
  intros Hmain. destruct (build_knowledge_shape rows) as (kb & Hkb & Hnd & Hne & _).
  pose proof (build_knowledge_groups rows) as Hg. rewrite Hkb in Hg. injection Hg as <-.
  unfold convert_to_json_main in Hmain. rewrite Hkb in Hmain. simpl in Hmain.
  destruct (json_dump (kb_to_py kb)) as [raw'|] eqn:Hd; [|done].
  simpl in Hmain. injection Hmain as <- _.
  destruct (retrieve_answer_total kb question top_k Hnd Hne) as (res & Hres & Hspec).
  exists (load_rag kb), res. split_and!; [|done|done].
  by apply load_dumped_knowledge.
Qed.

(** ** Witnesses on the spec's scenario *)

From Stdlib Require Import QArith.
Import Fixture.

Lemma convert_then_load_witness :
  rows_utf8 scenario_rows = true /\
  exists knowledge raw,
    build_knowledge scenario_rows = Ok knowledge /\
    convert_to_json_main scenario_rows = Ok (raw, created_message) /\
    @load_rag_file string _ raw = Ok (Some (load_rag knowledge)).
Proof.
  assert (Hu : rows_utf8 scenario_rows = true) by reflexivity.
  split; [exact Hu|exact (convert_then_load scenario_rows Hu)].
Defined.

Lemma convert_then_retrieve_witness :
  convert_to_json_main scenario_rows =
    Ok (iterencode 0 (kb_to_py scenario_knowledge), created_message) /\
  exists (rs : rag_state string) (res : option string * Q * list string),
    load_rag_file (iterencode 0 (kb_to_py scenario_knowledge)) = Ok (Some rs) /\
    retrieve_answer rs "Was dowry demanded?" 2%Z = Ok res /\
    retrieve_spec (group_by_label scenario_rows) "Was dowry demanded?" 2%Z res.
Proof.
  assert (Hm : convert_to_json_main scenario_rows =
    Ok (iterencode 0 (kb_to_py scenario_knowledge), created_message))
    by (vm_compute; reflexivity).
  split; [exact Hm|exact (convert_then_retrieve scenario_rows _ _ _ _ Hm)].
Defined.
