(* ===== verification/Cosine.v ===== *)
(** * Cosine similarity on real vectors

    [rag_utils.py] line 26 calls sklearn's [cosine_similarity(q_emb,
    embs)]: it normalises every row by its Euclidean norm (a zero norm is
    replaced by 1 by [_handle_zeros_in_scale], so the zero vector stays
    zero) and takes dot products.  [cosine_similarity] models one entry of
    that matrix on vectors of reals.  Its value lies in [[-1, 1]]
    ([cosine_similarity_bounds]); with it the real numbers form a [Score]
    instance, and the score [retrieve_answer] returns lies in [[0, 1]]:
    it is [0] when no label matches and in [(0, 1]] otherwise. *)

From S2P Require Import Prelude Score KnowledgeBase Embedding Retriever.
From Stdlib Require Import Reals Lra.

Local Open Scope R_scope.

(** [np.dot] of two rows. *)
Fixpoint dot (u v : list R) : R :=
  match u, v with
  | a :: u', b :: v' => a * b + dot u' v'
  | _, _ => 0
  end.

(** sklearn's [row_norms]. *)
Definition row_norm (u : list R) : R := sqrt (dot u u).

(** sklearn's [_handle_zeros_in_scale]: a zero scale becomes 1. *)
Definition handle_zero (n : R) : R := if Req_EM_T n 0 then 1 else n.

(** sklearn's [normalize(X)] for one row. *)
Definition normalize (u : list R) : list R :=
  let n := handle_zero (row_norm u) in (fun a => a / n) <$> u.

(** [cosine_similarity(x, y)[0][0]]. *)
Definition cosine_similarity (x y : list R) : R := dot (normalize x) (normalize y).

#[export] Instance cosine_sim : Similarity (list R) R := cosine_similarity.

(** ** The bound *)

Lemma dot_self_nonneg u : 0 <= dot u u.
Proof. induction u as [|a u IH]; simpl; nra. Qed.

(** [2 |u.v| <= u.u + v.v], coordinate by coordinate. *)
Lemma dot_am_gm u v :
  2 * dot u v <= dot u u + dot v v /\ - (dot u u + dot v v) <= 2 * dot u v.
Proof.
  revert v; induction u as [|a u IH]; intros [|b v]; simpl.
  - lra.
  - pose proof (dot_self_nonneg v). nra.
  - pose proof (dot_self_nonneg u). nra.
  - destruct (IH v). pose proof (pow2_ge_0 (a - b)). pose proof (pow2_ge_0 (a + b)).
    split; nra.
Qed.

Lemma dot_scale u c : c <> 0 ->
  dot ((fun a => a / c) <$> u) ((fun a => a / c) <$> u) = dot u u / (c * c).
Proof.
  intros Hc. induction u as [|a u IH]; [simpl; field; done|].
  change (dot ((fun a => a / c) <$> a :: u) ((fun a => a / c) <$> a :: u))
    with (a / c * (a / c) + dot ((fun a => a / c) <$> u) ((fun a => a / c) <$> u)).
  rewrite IH. simpl. field. done.
Qed.

Lemma dot_normalize_le u : dot (normalize u) (normalize u) <= 1.
Proof.
  unfold normalize, handle_zero, row_norm.
  pose proof (dot_self_nonneg u) as Hnn.
  destruct (Req_EM_T (sqrt (dot u u)) 0) as [Hz|Hz].
  - rewrite dot_scale by lra. apply sqrt_eq_0 in Hz; [|done]. rewrite Hz. lra.
  - rewrite dot_scale by done. rewrite sqrt_sqrt by done.
    assert (dot u u <> 0) by (intros E; apply Hz; rewrite E; apply sqrt_0).
    right. field. done.
Qed.

(** C15: sklearn's cosine similarity of two real vectors lies in
    [[-1, 1]], zero vectors included. *)
Theorem cosine_similarity_bounds x y :
  -1 <= cosine_similarity x y <= 1.
Proof.
  unfold cosine_similarity.
  destruct (dot_am_gm (normalize x) (normalize y)) as [H1 H2].
  pose proof (dot_normalize_le x). pose proof (dot_normalize_le y).
  pose proof (dot_self_nonneg (normalize x)). pose proof (dot_self_nonneg (normalize y)).
  lra.
Qed.

(** ** Reals as scores *)

#[export] Instance R_score_ops : ScoreOps R := {
  szero := 0;
  sadd := Rplus;
  sdivn x n := x / INR n;
  sltb x y := if Rlt_dec x y then true else false
}.

Lemma R_sltb_iff (x y : R) : sltb x y = true <-> x < y.
Proof. simpl. destruct (Rlt_dec x y); split; congruence || done. Qed.

Lemma R_sle_iff (x y : R) : sle x y <-> x <= y.
Proof.
  unfold sle. simpl. destruct (Rlt_dec y x); split; intros; try lra; done.
Qed.

Lemma R_ssum_ub (hi : R) (xs : list R) :
  Forall (fun x => x <= hi) xs -> ssum xs <= INR (length xs) * hi.
Proof.
  induction xs as [|x xs IH]; intros Hall; [unfold ssum; simpl; lra|].
  inversion Hall as [|? ? Hx Hxs]; subst.
  change (ssum (x :: xs)) with (x + ssum xs).
  rewrite length_cons, S_INR. specialize (IH Hxs). lra.
Qed.

Lemma R_ssum_lb (lo : R) (xs : list R) :
  Forall (fun x => lo <= x) xs -> INR (length xs) * lo <= ssum xs.
Proof.
  induction xs as [|x xs IH]; intros Hall; [unfold ssum; simpl; lra|].
  inversion Hall as [|? ? Hx Hxs]; subst.
  change (ssum (x :: xs)) with (x + ssum xs).
  rewrite length_cons, S_INR. specialize (IH Hxs). lra.
Qed.

Lemma R_length_pos (xs : list R) : xs <> [] -> 0 < INR (length xs).
Proof. destruct xs; [done|]. intros _. apply lt_0_INR. simpl. lia. Qed.

#[export] Instance R_score_laws : ScoreLaws R.
Proof.
  split.
  - intros x. apply R_sle_iff. lra.
  - intros x y z. rewrite !R_sltb_iff. lra.
  - intros x y z. rewrite !R_sltb_iff. intros Hxz.
    destruct (Rlt_le_dec x y); [by left|right; lra].
  - intros hi xs Hne Hall. apply R_sle_iff. simpl.
    pose proof (R_length_pos xs Hne).
    assert (Hs : ssum xs <= INR (length xs) * hi).
    { apply R_ssum_ub. eapply Forall_impl; [exact Hall|]. intros x. apply R_sle_iff. }
    assert (E : ssum xs / INR (length xs) * INR (length xs) = ssum xs) by (field; lra).
    set (m := ssum xs / INR (length xs)) in *. nra.
  - intros lo xs Hne Hall. apply R_sle_iff. simpl.
    pose proof (R_length_pos xs Hne).
    assert (Hs : INR (length xs) * lo <= ssum xs).
    { apply R_ssum_lb. eapply Forall_impl; [exact Hall|]. intros x. apply R_sle_iff. }
    assert (E : ssum xs / INR (length xs) * INR (length xs) = ssum xs) by (field; lra).
    set (m := ssum xs / INR (length xs)) in *. nra.
Qed.

(** ** The score of [retrieve_answer] *)

(** C3: with sklearn's cosine similarity, [retrieve_answer] on a
    knowledge base with distinct labels and no empty group returns a
    score in [[0, 1]]: exactly [0] when no label is returned, and
    positive when one is. *)
Theorem retrieve_answer_score_bounds `{Encoder (list R)} (kb : knowledge_base) question top_k :
  NoDup (dict_keys kb) -> Forall (fun e : string * list string => e.2 <> []) kb ->
  exists label (s : R) ctx,
    @retrieve_answer R _ (list R) _ cosine_sim (load_rag kb) question top_k = Ok (label, s, ctx) /\
    0 <= s <= 1 /\ (label = None -> s = 0) /\ (label <> None -> 0 < s).
Proof.
  intros Hnd Hne.
  destruct (retrieve_answer_total kb question top_k Hnd Hne)
    as ([[label s] ctx] & Hres & Hspec).
  exists label, s, ctx. split; [done|].
  destruct label as [label|].
  - destruct (retrieve_answer_score_range kb question top_k (-1) 1 label s ctx Hnd Hne)
      as (Hpos & Hlo & Hhi); [|done|].
    { intros u v. rewrite !R_sle_iff. apply cosine_similarity_bounds. }
    apply R_sltb_iff in Hpos. apply R_sle_iff in Hhi. simpl in Hpos. split_and!; [lra|lra|done|lra].
  - destruct Hspec as (_ & -> & _). simpl. split_and!; [lra|lra|done|done].
Qed.

(** A constant encoder, enough to exercise the bound on the scenario. *)
#[local] Instance constant_encoder : Encoder (list R) := fun _ => [1].

Lemma retrieve_answer_score_bounds_witness :
  NoDup (dict_keys scenario_knowledge) /\
  Forall (fun e : string * list string => e.2 <> []) scenario_knowledge /\
  exists label (s : R) ctx,
    retrieve_answer (load_rag scenario_knowledge) "Was dowry demanded?" 2
      = Ok (label, s, ctx) /\
    0 <= s <= 1 /\ (label = None -> s = 0) /\ (label <> None -> 0 < s).
Proof.
  assert (Hnd : NoDup (dict_keys scenario_knowledge))
    by (apply (bool_decide_unpack _); vm_compute; reflexivity).
  assert (Hne : Forall (fun e : string * list string => e.2 <> []) scenario_knowledge)
    by (apply (bool_decide_unpack _); vm_compute; reflexivity).
  split_and!; [exact Hnd|exact Hne|].
  exact (retrieve_answer_score_bounds scenario_knowledge "Was dowry demanded?" 2 Hnd Hne).
Defined.
