(* ===== verification/App.v ===== *)
(** * The Streamlit page: [app.py]

    Streamlit re-runs the script from the top on every interaction; only
    [st.session_state] survives between runs.  [app_run] is one run, lines
    5-76: the page header ([page_header], lines 5-16), the file uploader
    (whose value stays [Some] while a file sits in the widget; its bytes
    are decoded with [errors="ignore"] by [decode_case], line 24), the
    text input, and the "Get Answer" button with its two guards and the
    answer path.  The state is the record [session] (the key
    ["case_text"] of [st.session_state]); the widgets' values are the
    record [inputs]; what the run renders is a list of [ui] elements.
    The text generator [qa(prompt, ...)[0]['generated_text']] is the
    section variable [qa], the retriever is [Retriever.retrieve_answer]
    with its default [top_k = 2] on the module state [rs] of
    [rag_utils.py]; slicing a [str] counts code points ([str_take]),
    [question.strip()] is [PyStr.py_strip], and the caption's text is
    [Format.caption_text], which renders the score through the class
    [ScoreFormat].  A run can raise only where [retrieve_answer] does
    ([app_run_raises]); Streamlit then shows the exception ([Exception])
    after what the run drew before.  The drawing of the widgets themselves is not part of
    the model: their values are the record [inputs]. *)

From S2P Require Import Prelude Score ArgSort KnowledgeBase TextFile PyStr Format Embedding Retriever.

Inductive warning :=
| UploadFirst    (* "Please upload a case file first." *)
| EnterQuestion. (* "Please enter a question." *)

Section App.
Context {Sc V : Type} `{ScoreLaws Sc} `{ScoreFormat Sc} `{Encoder V} `{Similarity V Sc}.

(** The module state of [rag_utils.py], loaded once. *)
Variable rs : rag_state V.

(** [qa(prompt, max_length=250, temperature=0.3,
    num_return_sequences=1)[0]['generated_text']]. *)
Variable qa : string -> string.

(** [st.session_state]: the case text, once a file was uploaded. *)
Record session := { case_text : option string }.

(** The widgets' values in one run. *)
Record inputs := {
  uploaded : option string;   (* st.file_uploader: the file's bytes *)
  question : string;          (* st.text_input *)
  get_answer : bool           (* st.button("Get Answer") *)
}.

Inductive ui :=
| PageConfig (title layout : string)         (* line 5 *)
| Style (css : string)                       (* lines 8-14 *)
| Title (text : string)                      (* line 16 *)
| UploadSuccess                              (* line 26 *)
| Heading (text : string)                    (* line 67 *)
| Warning (w : warning)                      (* lines 34, 36 *)
| AnswerBox (ans : string)                   (* lines 67-68 *)
| Caption (text : string)                     (* line 69 *)
| PrimaryContext (snippet : string)          (* line 74 *)
| SupportingContext (snippet : string)       (* line 76 *)
| Exception (e : py_error).                  (* an uncaught exception: Streamlit shows it and stops the run *)

Definition newline : string := String (Ascii.ascii_of_nat 10) EmptyString.
Definition dquote : string := String (Ascii.ascii_of_nat 34) EmptyString.

(** Lines 5-16: what every run renders first. *)
Definition style_css : string :=
  newline ++ "<style>" ++ newline ++
  "    .stApp { background-color: #f9fafb; font-family: 'Segoe UI', sans-serif; }" ++ newline ++
  "    .answer-box { background-color: #eef3f8; padding: 1em; border-radius: 8px; }" ++ newline ++
  "    .context-box { background-color: #f4f4f6; padding: 0.7em; border-radius: 6px; margin-top: 0.5em; font-size: 0.9em; color: #333; }" ++
  newline ++ "</style>" ++ newline.

Definition page_header : list ui :=
  [PageConfig "⚖️ Domestic Violence Legal Q&A" "centered"; Style style_css;
   Title "⚖️ Domestic Violence Legal Q&A Chatbot"].

(** Lines 44-62: the f-string of the prompt. *)
Definition build_prompt (context_sample case_snippet q : string) : string :=
  newline ++
  "You are a legal research assistant specializing in domestic violence case analysis." ++
  newline ++ newline ++
  "Use the CONTEXT section carefully to answer the QUESTION below." ++ newline ++
  "If the context clearly supports the answer, rephrase and summarize it clearly in 2–3 lines." ++
  newline ++
  "If not enough evidence exists, respond: " ++ dquote ++
  "Insufficient evidence in context." ++ dquote ++ newline ++ newline ++
  "### CONTEXT (from prior annotated data)" ++ newline ++
  context_sample ++ newline ++ newline ++
  "### NEW CASE SNIPPET" ++ newline ++
  case_snippet ++ newline ++ newline ++
  "### QUESTION" ++ newline ++
  q ++ newline ++ newline ++
  "Answer in a structured, factual, and lawyer-friendly manner." ++ newline ++
  "Keep it concise (2–3 lines) and avoid raw repetition." ++ newline.

(** Lines 40-41: what the prompt is built from. *)
Definition context_sample (context : list string) : string :=
  py_join " " (take 4 context).

Definition case_snippet (case : string) : string := str_take 1500 case.

(** Lines 72-76: the expander with the first two contexts. *)
Definition context_views (context : list string) : list ui :=
  match context with
  | [] => []
  | [c0] => [PrimaryContext (str_take 600 c0 ++ "...")]
  | c0 :: c1 :: _ =>
      [PrimaryContext (str_take 600 c0 ++ "...");
       SupportingContext (str_take 600 c1 ++ "...")]
  end.

(** Lines 38-76: the answer path. *)
Definition answer (case q : string) : result (list ui) :=
  '(label, score, context) ← retrieve_answer_default rs q;
  let prompt := build_prompt (context_sample context) (case_snippet case) q in
  let ans := qa prompt in
  mret ([Heading "### 🧾 Answer"; AnswerBox ans; Caption (caption_text label score)] ++ context_views context).

(** Line 24: [uploaded.read().decode("utf-8", errors="ignore")]. *)
Definition decode_case (raw : string) : string :=
  String.string_of_list_ascii (decode_ignore (String.list_ascii_of_string raw)).

(** Lines 22-26: the uploader. *)
Definition upload_step (ss : session) (up : option string) : session * list ui :=
  match up with
  | Some raw =>
      let new_case := decode_case raw in
      ({| case_text := Some new_case |}, [UploadSuccess])
  | None => (ss, [])
  end.

(** Lines 32-37: the button and its guards. *)
Definition button_step (ss : session) (q : string) : result (list ui) :=
  match case_text ss with
  | None => mret [Warning UploadFirst]
  | Some case =>
      if decide (py_strip q = EmptyString) then mret [Warning EnterQuestion]
      else answer case q
  end.

(** One run of the script. *)
Definition app_run (ss : session) (inp : inputs) : result (session * list ui) :=
  let '(ss', out) := upload_step ss (uploaded inp) in
  if get_answer inp then
    more ← button_step ss' (question inp);
    mret (ss', page_header ++ out ++ more)
  else mret (ss', page_header ++ out).
End App.

Section AppProperties.
Context {Sc V : Type} `{ScoreLaws Sc} `{ScoreFormat Sc} `{Encoder V} `{Similarity V Sc}.
Variable qa : string -> string.

(** C17: without a case in the session and no file in the uploader, the
    button only warns; the retriever is not called, whatever the question
    (a blank one included) and the knowledge base. *)
Theorem app_run_no_case (rs : rag_state V) ss inp :
  case_text ss = None -> uploaded inp = None -> get_answer inp = true ->
  app_run rs qa ss inp = Ok (ss, page_header ++ [Warning UploadFirst]).
Proof. intros Hc Hu Hb. unfold app_run, upload_step, button_step. by rewrite Hu, Hb, Hc. Qed.

(** C18: with a case, a question made only of whitespace (the characters
    [str.strip] removes) gets a warning and no retrieval. *)
Theorem app_run_blank_question (rs : rag_state V) ss inp :
  case_text (upload_step ss (uploaded inp)).1 <> None ->
  Forall (fun u => is_space_cp u = true) (utf8_decode (String.list_ascii_of_string (question inp))) ->
  get_answer inp = true ->
  app_run rs qa ss inp =
    Ok ((upload_step ss (uploaded inp)).1,
        page_header ++ (upload_step ss (uploaded inp)).2 ++ [Warning EnterQuestion]).
Proof.
  intros Hc Hq Hb. apply py_strip_nil_iff in Hq.
  unfold app_run. destruct (upload_step ss (uploaded inp)) as [ss' out]. simpl in *.
  rewrite Hb. unfold button_step.
  destruct (case_text ss') as [case|]; [|done]. by rewrite decide_True.
Qed.

(** The case the session holds after a run. *)
Lemma app_run_case_text (rs : rag_state V) ss inp ss' out :
  app_run rs qa ss inp = Ok (ss', out) ->
  case_text ss' = match uploaded inp with Some t => Some (decode_case t) | None => case_text ss end.
Proof.
  unfold app_run, upload_step.
  destruct (uploaded inp) as [t|], (get_answer inp); simpl; intros Hrun;
    try (apply bind_Ok in Hrun as (more & _ & Hrun)); by injection Hrun as <- _.
Qed.

(** The case the session holds after the uploader of lines 22-26. *)
Lemma upload_step_case_text ss up :
  case_text (upload_step ss up).1 =
  match up with Some t => Some (decode_case t) | None => case_text ss end.
Proof. by destruct up. Qed.

(** What line 24 stores is a valid [str], whatever the file's bytes. *)
Lemma decode_case_valid raw : utf8_valid (String.list_ascii_of_string (decode_case raw)) = true.
Proof. unfold decode_case. rewrite String.list_ascii_of_string_of_list_ascii. apply decode_ignore_valid. Qed.

(** C19: the session keeps the case of the last upload: a run with a file
    in the uploader stores it, a run without keeps the previous one (also
    when the user has removed the file from the widget). *)
Theorem app_run_session (rs : rag_state V) ss inp ss' out :
  app_run rs qa ss inp = Ok (ss', out) ->
  case_text ss' = match uploaded inp with Some t => Some (decode_case t) | None => case_text ss end.
Proof. apply app_run_case_text. Qed.

(** The winner's contexts number at most two with the default [top_k]. *)
Lemma retrieve_default_contexts_le (kb : knowledge_base) q label (score : Sc) ctx :
  NoDup (dict_keys kb) -> Forall (fun e : string * list string => e.2 <> []) kb ->
  retrieve_answer_default (load_rag kb) q = Ok (label, score, ctx) ->
  length ctx <= 2.
Proof.
  intros Hnd Hne Hres. unfold retrieve_answer_default in Hres.
  destruct label as [label|].
  - destruct (retrieve_answer_spec kb q 2 _ Hnd Hne Hres) as (_ & texts & Hget & _).
    pose proof (retrieve_contexts_length kb q 2 label score ctx texts Hnd Hne Hres Hget)
      as Hlen.
    simpl in Hlen. lia.
  - destruct (retrieve_answer_spec kb q 2 _ Hnd Hne Hres) as (_ & _ & ->). simpl. lia.
Qed.

(** C16: on a well-formed knowledge base, a question about an uploaded
    case is answered from a prompt whose context is every retrieved
    context joined by spaces: [context[:4]] never drops anything, since
    [retrieve_answer] returns at most two; the case enters the prompt cut
    to its first 1500 characters. *)
Theorem app_run_answer (kb : knowledge_base) ss inp case label (score : Sc) ctx :
  NoDup (dict_keys kb) -> Forall (fun e : string * list string => e.2 <> []) kb ->
  case_text (upload_step ss (uploaded inp)).1 = Some case ->
  py_strip (question inp) <> EmptyString -> get_answer inp = true ->
  retrieve_answer_default (load_rag kb) (question inp) = Ok (label, score, ctx) ->
  app_run (load_rag kb) qa ss inp =
    Ok ((upload_step ss (uploaded inp)).1,
        page_header ++ (upload_step ss (uploaded inp)).2 ++
        [Heading "### 🧾 Answer"; AnswerBox (qa (build_prompt (py_join " " ctx) (str_take 1500 case) (question inp)));
         Caption (caption_text label score)] ++ context_views ctx).
Proof.
  intros Hnd Hne Hc Hq Hb Hres.
  pose proof (retrieve_default_contexts_le kb _ _ _ _ Hnd Hne Hres) as Hlen.
  unfold app_run. destruct (upload_step ss (uploaded inp)) as [ss' out]. simpl in *.
  rewrite Hb. unfold button_step. rewrite Hc, decide_False by done.
  unfold answer. rewrite Hres. simpl.
  unfold context_sample, case_snippet. by rewrite take_ge by lia.
Qed.
(** C40: a run raises exactly on the answer path, when the button was
    pressed, the session holds a case after the upload and the question
    is not blank, and then exactly when [retrieve_answer] raises, with its
    exception: no other line of the script raises, and the guards run
    before the retriever. *)
Theorem app_run_raises (rs : rag_state V) ss inp e :
  app_run rs qa ss inp = Err e <->
  get_answer inp = true /\ case_text (upload_step ss (uploaded inp)).1 <> None /\
  py_strip (question inp) <> EmptyString /\ retrieve_answer_default rs (question inp) = Err e.
Proof.
  unfold app_run, button_step, answer.
  destruct (upload_step ss (uploaded inp)) as [ss' out]. simpl.
  destruct (get_answer inp), (case_text ss'); try case_decide;
    destruct (retrieve_answer_default rs (question inp)) as [[[? ?] ?]|]; simpl; naive_solver.
Qed.
End AppProperties.

(** ** Witnesses on the spec's scenario (table similarities of [Fixture]) *)

From Stdlib Require Import QArith.
Import Fixture.

(** The generator echoes its prompt. *)
Definition echo_qa (prompt : string) : string := prompt.

Definition scenario_rag : rag_state string := load_rag scenario_knowledge.

Definition ask (up : option string) (q : string) : inputs :=
  {| uploaded := up; question := q; get_answer := true |}.

Lemma app_run_no_case_witness :
  case_text {| case_text := None |} = None /\ uploaded (ask None EmptyString) = None /\
  get_answer (ask None EmptyString) = true /\
  @app_run Q string _ _ _ _ scenario_rag echo_qa {| case_text := None |} (ask None EmptyString) =
    Ok ({| case_text := None |}, page_header ++ [Warning UploadFirst]).
Proof.
  split_and!; [reflexivity..|].
  exact (app_run_no_case echo_qa scenario_rag {| case_text := None |} (ask None EmptyString)
           eq_refl eq_refl eq_refl).
Defined.

Lemma app_run_blank_question_witness :
  case_text (upload_step {| case_text := Some "case" |} (uploaded (ask None " "))).1
    <> None /\
  Forall (fun u => is_space_cp u = true)
    (utf8_decode (String.list_ascii_of_string (question (ask None " ")))) /\
  get_answer (ask None " ") = true /\
  @app_run Q string _ _ _ _ scenario_rag echo_qa {| case_text := Some "case" |} (ask None " ") =
    Ok ((upload_step {| case_text := Some "case" |} (uploaded (ask None " "))).1,
        page_header ++ (upload_step {| case_text := Some "case" |} (uploaded (ask None " "))).2
          ++ [Warning EnterQuestion]).
Proof.
  assert (Hc : case_text (upload_step {| case_text := Some "case" |}
                            (uploaded (ask None " "))).1 <> None) by (simpl; congruence).
  assert (Hq : Forall (fun u => is_space_cp u = true)
                 (utf8_decode (String.list_ascii_of_string (question (ask None " ")))))
    by (simpl; repeat constructor).
  split_and!; [exact Hc|exact Hq|reflexivity|].
  exact (app_run_blank_question echo_qa scenario_rag _ _ Hc Hq eq_refl).
Defined.

Lemma app_run_session_witness :
  @app_run Q string _ _ _ _ scenario_rag echo_qa {| case_text := Some "old case" |} (ask None " ") =
    Ok ({| case_text := Some "old case" |}, page_header ++ [Warning EnterQuestion]) /\
  case_text {| case_text := Some "old case" |} =
    match uploaded (ask None " ") with Some t => Some (decode_case t)
    | None => case_text {| case_text := Some "old case" |} end.
Proof.
  assert (Hrun : @app_run Q string _ _ _ _ scenario_rag echo_qa {| case_text := Some "old case" |}
                   (ask None " ") =
                 Ok ({| case_text := Some "old case" |}, page_header ++ [Warning EnterQuestion]))
    by (vm_compute; reflexivity).
  split; [exact Hrun|].
  exact (app_run_session echo_qa scenario_rag _ _ _ _ Hrun).
Defined.

Lemma app_run_answer_witness :
  let inp := ask None "Was dowry demanded?" in
  let ss := {| case_text := Some "He asked her father for a car." |} in
  NoDup (dict_keys scenario_knowledge) /\
  Forall (fun e : string * list string => e.2 <> []) scenario_knowledge /\
  case_text (upload_step ss (uploaded inp)).1 = Some "He asked her father for a car." /\
  py_strip (question inp) <> EmptyString /\ get_answer inp = true /\
  retrieve_answer_default scenario_rag (question inp) =
    Ok (Some "dowry_demand", Qmake 4 5, ["He demanded gold from her family."]) /\
  app_run scenario_rag echo_qa ss inp =
    Ok ((upload_step ss (uploaded inp)).1,
        page_header ++ (upload_step ss (uploaded inp)).2 ++
        [Heading "### 🧾 Answer"; AnswerBox (echo_qa (build_prompt (py_join " " ["He demanded gold from her family."])
                      (str_take 1500 "He asked her father for a car.") (question inp)));
         Caption (caption_text (Some "dowry_demand") (Qmake 4 5))] ++
        context_views ["He demanded gold from her family."]).
Proof.
  intros inp ss.
  assert (Hnd : NoDup (dict_keys scenario_knowledge))
    by (apply (bool_decide_unpack _); vm_compute; reflexivity).
  assert (Hne : Forall (fun e : string * list string => e.2 <> []) scenario_knowledge)
    by (apply (bool_decide_unpack _); vm_compute; reflexivity).
  assert (Hq : py_strip (question inp) <> EmptyString) by (vm_compute; discriminate).
  assert (Hres : retrieve_answer_default scenario_rag (question inp) =
    Ok (Some "dowry_demand", Qmake 4 5, ["He demanded gold from her family."]))
    by (vm_compute; reflexivity).
  split_and!; [exact Hnd|exact Hne|reflexivity|exact Hq|reflexivity|exact Hres|].
  exact (app_run_answer echo_qa scenario_knowledge ss inp _ _ _ _ Hnd Hne
           eq_refl Hq eq_refl Hres).
Defined.

(** A run on the knowledge base with an empty group raises sklearn's
    [ValueError] at the retriever. *)
Lemma app_run_raises_witness :
  @app_run Q string _ _ _ _ (load_rag kb_with_empty) echo_qa {| case_text := Some "case" |}
    (ask None "Was dowry demanded?") = Err (ValueError "Found array with 0 sample(s)") /\
  retrieve_answer_default (Sc:=Q) (load_rag kb_with_empty) "Was dowry demanded?" =
    Err (ValueError "Found array with 0 sample(s)").
Proof.
  assert (Hrun : @app_run Q string _ _ _ _ (load_rag kb_with_empty) echo_qa
    {| case_text := Some "case" |} (ask None "Was dowry demanded?") =
    Err (ValueError "Found array with 0 sample(s)")) by (vm_compute; reflexivity).
  split; [exact Hrun|]. exact (proj2 (proj2 (proj2 (proj1 (app_run_raises echo_qa _ _ _ _) Hrun)))).
Defined.
