(* ===== verification/Session.v ===== *)
(** * A browser session of the Streamlit page

    Streamlit runs [app.py] from the top on every interaction, and only
    [st.session_state] lives from one run to the next.  A session is
    therefore a state machine over [App.session]: [app_step] is one run
    ([App.app_run]) with the values the widgets hold at that moment, a run
    that returns or a run that raises (the page then shows the exception,
    and the session keeps what the uploader stored), and
    [reachable h ss] says that the interactions [h], in order, lead from
    a fresh session (an empty [st.session_state], [init_session]) to [ss].
    The theorems, by induction on [reachable]: the session always holds
    the last file uploaded ([reachable_case_text]); an answer is only ever
    shown after some upload and for a question that is not blank; and from
    every reachable state an answer can be obtained in one interaction. *)

From S2P Require Import Prelude Score KnowledgeBase TextFile PyStr Format Embedding Retriever App.

Section Session.
Context {Sc V : Type} `{ScoreLaws Sc} `{ScoreFormat Sc} `{Encoder V} `{Similarity V Sc}.
Variable rs : rag_state V.
Variable qa : string -> string.

(** A new browser tab: [st.session_state] has no ["case_text"]. *)
Definition init_session : session := {| case_text := None |}.

(** One interaction: a run of the script with the widgets' values [inp],
    rendering [out].  A run that raises (only [retrieve_answer] can, on
    the answer path, before anything of that path is drawn) stops there:
    the page keeps what lines 5-26 drew and shows the exception, and
    [st.session_state] keeps what line 25 stored. *)
Inductive app_step : session -> inputs -> list (ui) -> session -> Prop :=
| app_step_run ss inp ss' out :
    app_run rs qa ss inp = Ok (ss', out) -> app_step ss inp out ss'
| app_step_raise ss inp e :
    app_run rs qa ss inp = Err e ->
    app_step ss inp (page_header ++ (upload_step ss (uploaded inp)).2 ++ [Exception e])
      (upload_step ss (uploaded inp)).1.

(** The sessions a history of interactions (oldest first) leads to. *)
Inductive reachable : list inputs -> session -> Prop :=
| reachable_init : reachable [] init_session
| reachable_step h ss inp out ss' :
    reachable h ss -> app_step ss inp out ss' -> reachable (h ++ [inp]) ss'.

(** The text of the file of the last interaction whose uploader held
    one, as line 24 decodes it. *)
Definition last_upload (h : list inputs) : option string :=
  fold_left (fun acc inp => match uploaded inp with Some t => Some (decode_case t) | None => acc end)
    h None.

Lemma last_upload_snoc h inp :
  last_upload (h ++ [inp]) =
  match uploaded inp with Some t => Some (decode_case t) | None => last_upload h end.
Proof. unfold last_upload. by rewrite fold_left_app. Qed.

(** An answer box is rendered only on the answer path: the button was
    pressed, the session holds a case and the question is not blank. *)
Lemma app_run_answer_box ss inp ss' out a :
  app_run rs qa ss inp = Ok (ss', out) -> AnswerBox a ∈ out ->
  case_text ss' <> None /\ py_strip (question inp) <> EmptyString.
Proof.
  unfold app_run, upload_step.
  destruct (uploaded inp) as [t|] eqn:Hu, (get_answer inp); simpl; intros Hrun Ha.
  all: try (injection Hrun as <- <-; set_solver).
  all: apply bind_Ok in Hrun as (more & Hb & Hrun); injection Hrun as <- <-.
  all: unfold button_step in Hb; unfold mret, result_ret in Hb; simpl in *.
  all: repeat case_match; simplify_eq; try set_solver.
Qed.
(** With a case in the session after the upload and a question that is not
    blank, pressing the button answers whenever the retriever returns. *)
Lemma app_run_answers ss up q res :
  case_text (upload_step ss up).1 <> None -> py_strip q <> EmptyString ->
  retrieve_answer_default rs q = Ok res ->
  exists out, app_run rs qa ss (ask up q) = Ok ((upload_step ss up).1, out) /\
    exists a, AnswerBox a ∈ out.
Proof.
  intros Hc Hq Hres. unfold app_run. simpl.
  destruct (upload_step ss up) as [ss' out0]. simpl in *.
  unfold button_step. destruct (case_text ss') as [case|]; [|done].
  rewrite decide_False by done. unfold answer. rewrite Hres.
  destruct res as [[label score] ctx]. simpl.
  eexists. split; [reflexivity|].
  exists (qa (build_prompt (context_sample ctx) (case_snippet case) q)). set_solver.
Qed.
End Session.

Section SessionProperties.
Context {Sc V : Type} `{ScoreLaws Sc} `{ScoreFormat Sc} `{Encoder V} `{Similarity V Sc}.
Variable qa : string -> string.

Lemma reachable_last_upload (rs : rag_state V) h ss :
  reachable rs qa h ss -> case_text ss = last_upload h.
Proof.
  induction 1 as [|h ss inp out ss' _ IH Hstep]; [done|].
  rewrite last_upload_snoc, <- IH.
  inversion Hstep as [? ? ? ? Hrun|]; subst;
    [apply (app_run_case_text qa rs _ _ _ _ Hrun)|apply upload_step_case_text].
Qed.

(** C28: in every reachable state of a session, [st.session_state] holds
    the file of the last interaction whose uploader held one, and nothing
    before the first upload: removing the file from the widget does not
    forget the case. *)
Theorem reachable_case_text (rs : rag_state V) h ss :
  reachable rs qa h ss -> case_text ss = last_upload h.
Proof. apply reachable_last_upload. Qed.

Lemma last_upload_utf8 h case :
  last_upload h = Some case -> utf8_valid (String.list_ascii_of_string case) = true.
Proof.
  induction h as [|inp h IH] using rev_ind; [done|].
  rewrite last_upload_snoc. destruct (uploaded inp); [intros [= <-]; apply decode_case_valid|done].
Qed.

(** C30: in every reachable state of a session, the case text it holds is
    a valid [str] (valid UTF-8), whatever bytes were uploaded: line 24
    drops what does not decode. *)
Theorem reachable_case_utf8 (rs : rag_state V) h ss case :
  reachable rs qa h ss -> case_text ss = Some case ->
  utf8_valid (String.list_ascii_of_string case) = true.
Proof. intros Hr Hc. rewrite (reachable_last_upload rs h ss Hr) in Hc. by apply last_upload_utf8 in Hc. Qed.

(** C29: in a session, an answer is only ever shown by a run whose
    question is not blank, after some interaction uploaded a case (in
    this run or an earlier one). *)
Theorem answer_needs_upload (rs : rag_state V) h ss inp out ss' a :
  reachable rs qa h ss -> app_step rs qa ss inp out ss' -> AnswerBox a ∈ out ->
  last_upload (h ++ [inp]) <> None /\ py_strip (question inp) <> EmptyString.
Proof.
  intros Hr Hstep Ha. inversion Hstep as [? ? ? ? Hrun|? ? e Hrun]; subst;
    [|exfalso; destruct (uploaded inp); unfold page_header in Ha; set_solver].
  destruct (app_run_answer_box rs qa _ _ _ _ _ Hrun Ha) as [Hc Hq]. split; [|done].
  rewrite <- (reachable_last_upload rs (h ++ [inp]) ss'); [done|].
  by eapply reachable_step.
Qed.

(** C27: liveness: on a knowledge base with distinct labels and no empty
    group, from every reachable state of a session, one interaction with a
    question that is not blank shows an answer, provided a file is in the
    uploader or was uploaded before. *)
Theorem answer_reachable (kb : knowledge_base) h ss up q :
  NoDup (dict_keys kb) -> Forall (fun e : string * list string => e.2 <> []) kb ->
  reachable (load_rag kb) qa h ss -> py_strip q <> EmptyString ->
  up <> None \/ last_upload h <> None ->
  exists out ss', reachable (load_rag kb) qa (h ++ [ask up q]) ss' /\
    app_step (load_rag kb) qa ss (ask up q) out ss' /\ exists a, AnswerBox a ∈ out.
Proof.
  intros Hnd Hne Hr Hq Hup.
  destruct (retrieve_answer_total kb q 2 Hnd Hne) as (res & Hres & _).
  assert (Hc : case_text (upload_step ss up).1 <> None).
  { rewrite <- (reachable_last_upload _ _ _ Hr) in Hup.
    destruct up; simpl; [done|]. by destruct Hup. }
  destruct (app_run_answers (load_rag kb) qa ss up q res Hc Hq Hres) as (out & Hrun & Ha).
  exists out, (upload_step ss up).1.
  assert (Hstep : app_step (load_rag kb) qa ss (ask up q) out (upload_step ss up).1)
    by by constructor.
  split_and!; [by eapply reachable_step|done|done].
Qed.
End SessionProperties.

(** ** Witnesses on the spec's scenario (table similarities of [Fixture]) *)

From Stdlib Require Import QArith.
Import Fixture.

Definition blank_run : list (ui) := page_header ++ [UploadSuccess; Warning EnterQuestion].

Lemma reachable_case_text_witness :
  reachable (Sc:=Q) scenario_rag echo_qa [ask (Some "case") " "] {| case_text := Some "case" |} /\
  case_text {| case_text := Some "case" |} = last_upload [ask (Some "case") " "].
Proof.
  assert (Hr : reachable (Sc:=Q) scenario_rag echo_qa [ask (Some "case") " "]
                 {| case_text := Some "case" |}).
  { apply (reachable_step _ _ [] init_session (ask (Some "case") " ") blank_run);
      [constructor|constructor; vm_compute; reflexivity]. }
  split; [exact Hr|exact (reachable_case_text echo_qa scenario_rag _ _ Hr)].
Defined.

Definition dowry_box : ui :=
  AnswerBox (echo_qa (build_prompt (context_sample ["He demanded gold from her family."])
                        (case_snippet "case") "Was dowry demanded?")).

Definition dowry_run : list (ui) :=
  page_header ++ UploadSuccess :: [Heading "### 🧾 Answer"; dowry_box; Caption (caption_text (Some "dowry_demand") (Qmake 4 5))] ++
  context_views ["He demanded gold from her family."].

Lemma answer_needs_upload_witness :
  reachable (Sc:=Q) scenario_rag echo_qa [] init_session /\
  app_step scenario_rag echo_qa init_session (ask (Some "case") "Was dowry demanded?") dowry_run
    {| case_text := Some "case" |} /\
  dowry_box ∈ dowry_run /\
  last_upload ([] ++ [ask (Some "case") "Was dowry demanded?"]) <> None /\
  py_strip (question (ask (Some "case") "Was dowry demanded?")) <> EmptyString.
Proof.
  assert (Hr : reachable (Sc:=Q) scenario_rag echo_qa [] init_session) by constructor.
  assert (Hs : app_step scenario_rag echo_qa init_session (ask (Some "case") "Was dowry demanded?")
                 dowry_run {| case_text := Some "case" |})
    by (constructor; vm_compute; reflexivity).
  assert (Ha : dowry_box ∈ dowry_run)
    by (unfold dowry_run; set_solver).
  pose proof (answer_needs_upload echo_qa scenario_rag _ _ _ _ _ _ Hr Hs Ha) as [H1 H2].
  split_and!; [exact Hr|exact Hs|exact Ha|exact H1|exact H2].
Defined.

Lemma answer_reachable_witness :
  NoDup (dict_keys scenario_knowledge) /\
  Forall (fun e : string * list string => e.2 <> []) scenario_knowledge /\
  py_strip "Was dowry demanded?" <> EmptyString /\
  exists out ss', reachable (Sc:=Q) (load_rag scenario_knowledge) echo_qa
                    ([] ++ [ask (Some "case") "Was dowry demanded?"]) ss' /\
    app_step (load_rag scenario_knowledge) echo_qa init_session
      (ask (Some "case") "Was dowry demanded?") out ss' /\ exists a, AnswerBox a ∈ out.
Proof.
  assert (Hnd : NoDup (dict_keys scenario_knowledge))
    by (apply (bool_decide_unpack _); vm_compute; reflexivity).
  assert (Hne : Forall (fun e : string * list string => e.2 <> []) scenario_knowledge)
    by (apply (bool_decide_unpack _); vm_compute; reflexivity).
  assert (Hq : py_strip "Was dowry demanded?" <> EmptyString) by (vm_compute; discriminate).
  split_and!; [exact Hnd|exact Hne|exact Hq|].
  apply (answer_reachable echo_qa scenario_knowledge [] init_session (Some "case")
           "Was dowry demanded?" Hnd Hne (reachable_init _ _) Hq).
  left. discriminate.
Defined.

Lemma reachable_case_utf8_witness :
  reachable (Sc:=Q) scenario_rag echo_qa [ask (Some (String.string_of_list_ascii latin1_cafe)) " "]
    {| case_text := Some (decode_case (String.string_of_list_ascii latin1_cafe)) |} /\
  case_text {| case_text := Some (decode_case (String.string_of_list_ascii latin1_cafe)) |} =
    Some (decode_case (String.string_of_list_ascii latin1_cafe)) /\
  utf8_valid (String.list_ascii_of_string (decode_case (String.string_of_list_ascii latin1_cafe)))
    = true.
Proof.
  assert (Hr : reachable (Sc:=Q) scenario_rag echo_qa
                 [ask (Some (String.string_of_list_ascii latin1_cafe)) " "]
                 {| case_text := Some (decode_case (String.string_of_list_ascii latin1_cafe)) |}).
  { apply (reachable_step _ _ [] init_session _ blank_run);
      [constructor|constructor; vm_compute; reflexivity]. }
  split_and!; [exact Hr|reflexivity|exact (reachable_case_utf8 echo_qa scenario_rag _ _ _ Hr eq_refl)].
Defined.
